(** * Contact manager (task_1.py): field validation, records, the address
    book and the upcoming-birthday calculation.

    The development embeds the Python source shallowly.  Python values are
    modelled as follows.

    - [str]: a Rocq [string]; every [ascii] stands for one code point below
      256 (the Latin-1 range of Python's [str]).  On that range
      [str.isdigit] accepts the ten ASCII digits and the three superscript
      digits U+00B2, U+00B3, U+00B9, and the regular-expression class [\d]
      accepts the ten ASCII digits only.  The parsing of a birthday is
      modelled a second time, in the module [wide], on texts of arbitrary
      code points, where [\d] and [int] take the decimal digits of every
      script; the two models agree on the texts of code points below 256.
    - [int]: [Z].
    - [datetime.date]: a record of year, month and day; the constructor
      checks the fields as CPython does and raises [ValueError].
    - exceptions: the [result] type; a method that mutates [self] and may
      raise returns the new state together with its outcome.
    - [dict] (the [UserDict] data of the address book): an association list
      in insertion order. *)

From Stdlib Require Import ZArith List String Ascii Bool Lia.
Import ListNotations.

Local Open Scope string_scope.
Local Open Scope list_scope.
Local Open Scope Z_scope.

(* ------------------------------------------------------------------ *)
(** ** Exceptions *)

Inductive exn : Type :=
| ValueError (msg : string)
| KeyError (msg : string)
| IndexError (msg : string)
| OverflowError (msg : string).

(** [str(e)] for an exception built from one message; for a [KeyError]
    the message stands for the text [str] gives. *)
Definition exn_str (e : exn) : string :=
  match e with
  | ValueError m | KeyError m | IndexError m | OverflowError m => m
  end.

Inductive result (A : Type) : Type :=
| Ok (a : A)
| Raise (e : exn).

Arguments Ok {A} a.
Arguments Raise {A} e.

Definition bind {A B : Type} (r : result A) (k : A -> result B) : result B :=
  match r with
  | Ok a => k a
  | Raise e => Raise e
  end.

Notation "'try!' x ':=' r 'in' k" := (bind r (fun x => k))
  (at level 10, x name, r at level 100, k at level 200).

(* ------------------------------------------------------------------ *)
(** ** Decimal text *)

Definition digit_char (n : Z) : ascii :=
  ascii_of_N (Z.to_N (48 + n mod 10)).

(** [width] decimal digits of [n], most significant first, zero padded
    (the low [width] digits when [n] has more). *)
Fixpoint zero_padded (width : nat) (n : Z) : string :=
  match width with
  | O => EmptyString
  | S w => (zero_padded w (n / 10) ++ String (digit_char n) EmptyString)%string
  end.

Fixpoint decimal_digits (fuel : nat) (n : Z) (acc : string) : string :=
  match fuel with
  | O => acc
  | S f =>
      let acc := String (digit_char n) acc in
      if n <? 10 then acc else decimal_digits f (n / 10) acc
  end.

(** [str(n)] for an integer: a sign and the digits without padding. *)
Definition decimal (n : Z) : string :=
  let a := Z.abs n in
  let digits := decimal_digits (S (Z.to_nat (Z.log2 a))) a EmptyString in
  if n <? 0 then String "-" digits else digits.

(* ------------------------------------------------------------------ *)
(** ** datetime.date *)

Module datetime.

Definition MINYEAR : Z := 1.
Definition MAXYEAR : Z := 9999.
Definition _MAXORDINAL : Z := 3652059.

Definition _DI400Y : Z := 146097.
Definition _DI100Y : Z := 36524.
Definition _DI4Y : Z := 1461.

Definition _is_leap (year : Z) : bool :=
  (year mod 4 =? 0) && (negb (year mod 100 =? 0) || (year mod 400 =? 0)).

Definition _DAYS_IN_MONTH (month : Z) : Z :=
  match month with
  | 1 => 31 | 2 => 28 | 3 => 31 | 4 => 30 | 5 => 31 | 6 => 30
  | 7 => 31 | 8 => 31 | 9 => 30 | 10 => 31 | 11 => 30 | 12 => 31
  | _ => -1
  end.

Definition _DAYS_BEFORE_MONTH (month : Z) : Z :=
  match month with
  | 1 => 0 | 2 => 31 | 3 => 59 | 4 => 90 | 5 => 120 | 6 => 151
  | 7 => 181 | 8 => 212 | 9 => 243 | 10 => 273 | 11 => 304 | 12 => 334
  | _ => -1
  end.

Definition _days_before_year (year : Z) : Z :=
  let y := year - 1 in
  y * 365 + y / 4 - y / 100 + y / 400.

Definition _days_in_month (year month : Z) : Z :=
  if (month =? 2) && _is_leap year then 29 else _DAYS_IN_MONTH month.

Definition _days_before_month (year month : Z) : Z :=
  _DAYS_BEFORE_MONTH month + (if (2 <? month) && _is_leap year then 1 else 0).

Definition _ymd2ord (year month day : Z) : Z :=
  _days_before_year year + _days_before_month year month + day.

Definition _ord2ymd (n : Z) : Z * Z * Z :=
  let n := n - 1 in
  let n400 := n / _DI400Y in
  let n := n mod _DI400Y in
  let year := n400 * 400 + 1 in
  let n100 := n / _DI100Y in
  let n := n mod _DI100Y in
  let n4 := n / _DI4Y in
  let n := n mod _DI4Y in
  let n1 := n / 365 in
  let n := n mod 365 in
  let year := year + n100 * 100 + n4 * 4 + n1 in
  if (n1 =? 4) || (n100 =? 4) then (year - 1, 12, 31)
  else
    let leapyear := (n1 =? 3) && (negb (n4 =? 24) || (n100 =? 3)) in
    let month := Z.shiftr (n + 50) 5 in
    let preceding :=
      _DAYS_BEFORE_MONTH month + (if (2 <? month) && leapyear then 1 else 0) in
    if n <? preceding then
      let month := month - 1 in
      let preceding :=
        preceding
        - (_DAYS_IN_MONTH month + (if (month =? 2) && leapyear then 1 else 0)) in
      (year, month, n - preceding + 1)
    else (year, month, n - preceding + 1).

Record date : Type := mkdate { year : Z; month : Z; day : Z }.

(** [date(year, month, day)]: the field checks of the constructor.  The
    texts of the messages are those of CPython 3.12; no statement below
    depends on them. *)
Definition date_new (y m d : Z) : result date :=
  if negb ((MINYEAR <=? y) && (y <=? MAXYEAR)) then
    Raise (ValueError ("year " ++ decimal y ++ " is out of range")%string)
  else if negb ((1 <=? m) && (m <=? 12)) then
    Raise (ValueError "month must be in 1..12")
  else if negb ((1 <=? d) && (d <=? _days_in_month y m)) then
    Raise (ValueError "day is out of range for month")
  else Ok (mkdate y m d).

(** What the constructor guarantees of every [date] object. *)
Definition valid (d : date) : bool :=
  (MINYEAR <=? year d) && (year d <=? MAXYEAR)
  && (1 <=? month d) && (month d <=? 12)
  && (1 <=? day d) && (day d <=? _days_in_month (year d) (month d)).

(** [d.replace(year=y)]. *)
Definition replace_year (d : date) (y : Z) : result date :=
  date_new y (month d) (day d).

Definition toordinal (d : date) : Z :=
  _ymd2ord (year d) (month d) (day d).

Definition fromordinal (n : Z) : date :=
  let '(y, m, d) := _ord2ymd n in mkdate y m d.

(** [a < b]: comparison of the (year, month, day) triples. *)
Definition lt (a b : date) : bool :=
  (year a <? year b)
  || ((year a =? year b)
      && ((month a <? month b)
          || ((month a =? month b) && (day a <? day b)))).

(** [(a - b).days]. *)
Definition sub_days (a b : date) : Z := toordinal a - toordinal b.

(** [d + timedelta(days=n)]. *)
Definition add_days (d : date) (n : Z) : result date :=
  let o := toordinal d + n in
  if (0 <? o) && (o <=? _MAXORDINAL) then Ok (fromordinal o)
  else Raise (OverflowError "date value out of range").

(** [d.weekday()]: Monday is 0, Sunday is 6. *)
Definition weekday (d : date) : Z := (toordinal d + 6) mod 7.

(** [d.strftime("%Y.%m.%d")] as CPython 3.11 gives it with the C library
    of Linux: month and day in two digits, the year in its decimal digits,
    which are fewer than four for a year below 1000 (other C libraries, and
    later versions of CPython, pad the year to four digits; the texts read
    as the same date). *)
Definition strftime_Ymd (d : date) : string :=
  (decimal (year d) ++ "." ++ zero_padded 2 (month d)
   ++ "." ++ zero_padded 2 (day d))%string.

End datetime.

(* ------------------------------------------------------------------ *)
(** ** str *)

Module str.

Definition len (s : string) : Z := Z.of_nat (String.length s).

Definition code (c : ascii) : Z := Z.of_N (N_of_ascii c).

(** The characters [str.isdigit] accepts among the code points below 256:
    0-9, and the superscripts two, three and one. *)
Definition char_isdigit (c : ascii) : bool :=
  let n := code c in
  ((48 <=? n) && (n <=? 57)) || (n =? 178) || (n =? 179) || (n =? 185).

(** The characters the class [\d] and [str.isdecimal] accept among the
    code points below 256: 0-9. *)
Definition char_isdecimal (c : ascii) : bool :=
  let n := code c in (48 <=? n) && (n <=? 57).

Fixpoint all (f : ascii -> bool) (s : string) : bool :=
  match s with
  | EmptyString => true
  | String c r => f c && all f r
  end.

(** [s.isdigit()]: every character is a digit and there is at least one. *)
Definition isdigit (s : string) : bool :=
  match s with
  | EmptyString => false
  | _ => all char_isdigit s
  end.

(** Truth value of a string: it is not empty. *)
Definition truthy (s : string) : bool :=
  match s with
  | EmptyString => false
  | _ => true
  end.

End str.

(* ------------------------------------------------------------------ *)
(** ** Regular expressions, as far as [strptime] uses them *)

Module re.

Inductive pattern : Type :=
| Lit (c : ascii)
| Range (lo hi : ascii)
| Digit
| Cat (p q : pattern)
| Or (p q : pattern).

Definition one (ok : ascii -> bool) (s : string) : list (string * string) :=
  match s with
  | String c r => if ok c then [(String c EmptyString, r)] else []
  | EmptyString => []
  end.

(** The ways [p] matches a prefix of [s], as (matched text, rest), in the
    order a backtracking matcher tries them: the left branch of an
    alternative first. *)
Fixpoint matches (p : pattern) (s : string) : list (string * string) :=
  match p with
  | Lit c => one (Ascii.eqb c) s
  | Range lo hi =>
      one (fun c => (str.code lo <=? str.code c) && (str.code c <=? str.code hi)) s
  | Digit => one str.char_isdecimal s
  | Cat p q =>
      flat_map
        (fun m1 => map (fun m2 => ((fst m1 ++ fst m2)%string, snd m2))
                       (matches q (snd m1)))
        (matches p s)
  | Or p q => matches p s ++ matches q s
  end.

(** The texts a pattern matches. *)
Inductive lang : pattern -> string -> Prop :=
| lang_lit c : lang (Lit c) (String c EmptyString)
| lang_range lo hi c :
    str.code lo <= str.code c <= str.code hi ->
    lang (Range lo hi) (String c EmptyString)
| lang_digit c :
    str.char_isdecimal c = true -> lang Digit (String c EmptyString)
| lang_cat p q a b : lang p a -> lang q b -> lang (Cat p q) (a ++ b)%string
| lang_or_l p q a : lang p a -> lang (Or p q) a
| lang_or_r p q a : lang q a -> lang (Or p q) a.

End re.

(* ------------------------------------------------------------------ *)
(** ** datetime.strptime(value, '%d.%m.%Y').date()

    On the texts of code points below 256; the module [wide] below has the
    same functions on texts of all code points. *)

Module _strptime.

Import re.

(** [3[0-1]|[1-2]\d|0[1-9]|[1-9]| [1-9]] *)
Definition re_d : pattern :=
  Or (Cat (Lit "3") (Range "0" "1"))
     (Or (Cat (Range "1" "2") Digit)
         (Or (Cat (Lit "0") (Range "1" "9"))
             (Or (Range "1" "9") (Cat (Lit " ") (Range "1" "9"))))).

(** [1[0-2]|0[1-9]|[1-9]] *)
Definition re_m : pattern :=
  Or (Cat (Lit "1") (Range "0" "2"))
     (Or (Cat (Lit "0") (Range "1" "9")) (Range "1" "9")).

(** [\d\d\d\d] *)
Definition re_Y : pattern := Cat Digit (Cat Digit (Cat Digit Digit)).

(** The groups d, m, Y and the unmatched rest for every way the compiled
    format [(?P<d>...)\.(?P<m>...)\.(?P<Y>...)] matches at the start of the
    text; [re.match] returns the first. *)
Definition found (data_string : string) : list (string * string * string * string) :=
  flat_map (fun d =>
  flat_map (fun dot1 =>
  flat_map (fun m =>
  flat_map (fun dot2 =>
  map (fun y => (fst d, fst m, fst y, snd y))
      (matches re_Y (snd dot2)))
      (matches (Lit ".") (snd m)))
      (matches re_m (snd dot1)))
      (matches (Lit ".") (snd d)))
      (matches re_d data_string).

(** [int(text)] on the text of a group: digits, after blanks. *)
Fixpoint int_digits (s : string) (acc : Z) : result Z :=
  match s with
  | EmptyString => Ok acc
  | String c r =>
      if str.char_isdecimal c then int_digits r (10 * acc + (str.code c - 48))
      else Raise (ValueError "invalid literal for int() with base 10")
  end.

Fixpoint int (s : string) : result Z :=
  match s with
  | EmptyString => Raise (ValueError "invalid literal for int() with base 10")
  | String c r => if Ascii.eqb c " " then int r else int_digits s 0
  end.

(** The messages of the two matching errors carry the text and the format;
    [Birthday] discards them, so they are abbreviated here. *)
Definition strptime (data_string : string) : result datetime.date :=
  match found data_string with
  | [] => Raise (ValueError "time data does not match format")
  | (d, m, y, rest) :: _ =>
      if str.truthy rest then Raise (ValueError "unconverted data remains")
      else
        try! year := int y in
        try! month := int m in
        try! day := int d in
        datetime.date_new year month day
  end.

End _strptime.

(* ------------------------------------------------------------------ *)
(** ** Fields *)

Module Phone.

Record t : Type := mk { value : string }.

Definition __init__ (value : string) : result t :=
  if negb (str.isdigit value) || negb (str.len value =? 10) then
    Raise (ValueError "Phone number must be a string of 10 digits.")
  else Ok (mk value).

End Phone.

Module Birthday.

Record t : Type := mk { value : string; date_value : datetime.date }.

Definition __init__ (value : string) : result t :=
  match _strptime.strptime value with
  | Ok d => Ok (mk value d)
  | Raise (ValueError _) => Raise (ValueError "Invalid date format. Use DD.MM.YYYY")
  | Raise e => Raise e
  end.

End Birthday.

(* ------------------------------------------------------------------ *)
(** ** Record *)

Module Record_.

Record t : Type := mk {
  name : string;
  phones : list Phone.t;
  birthday : option Birthday.t
}.

Definition __init__ (name : string) : t := mk name [] None.

Definition set_phones (self : t) (ps : list Phone.t) : t :=
  mk (name self) ps (birthday self).

(** [self.phones.append(Phone(phone))] *)
Definition add_phone (self : t) (phone : string) : t * result unit :=
  match Phone.__init__ phone with
  | Ok p => (set_phones self (phones self ++ [p]), Ok tt)
  | Raise e => (self, Raise e)
  end.

(** The argument is a [Birthday.t], so the [isinstance] test passes; a
    [Birthday] object has no length and no truth method, so
    [if self.birthday] tests that it is not [None]. *)
Definition add_birthday (self : t) (b : Birthday.t) : t * result unit :=
  match birthday self with
  | Some _ => (self, Raise (ValueError "Only one birthday allowed per record."))
  | None => (mk (name self) (phones self) (Some b), Ok tt)
  end.

(** The loop of [remove_phone]; [None] when no phone matched. *)
Fixpoint remove_first (ps : list Phone.t) (phone : string) : option (list Phone.t) :=
  match ps with
  | [] => None
  | p :: rest =>
      if String.eqb (Phone.value p) phone then Some rest
      else option_map (cons p) (remove_first rest phone)
  end.

(** Returns the text printed, if any. *)
Definition remove_phone (self : t) (phone : string) : t * option string :=
  match remove_first (phones self) phone with
  | Some ps => (set_phones self ps, None)
  | None => (self, Some ("Phone number " ++ phone ++ " not found")%string)
  end.

(** The loop of [edit_phone] over the phone objects: the first one whose
    value is [old_phone] gets the value of [Phone(new_phone)], and the loop
    stops there. *)
Fixpoint edit_loop (ps : list Phone.t) (old_phone new_phone : string)
  : list Phone.t * result unit :=
  match ps with
  | [] => ([], Ok tt)
  | p :: rest =>
      if String.eqb (Phone.value p) old_phone then
        match Phone.__init__ new_phone with
        | Ok q => (Phone.mk (Phone.value q) :: rest, Ok tt)
        | Raise e => (p :: rest, Raise e)
        end
      else
        let '(rest', r) := edit_loop rest old_phone new_phone in
        (p :: rest', r)
  end.

Definition edit_phone (self : t) (old_phone new_phone : string) : t * result unit :=
  let '(ps, r) := edit_loop (phones self) old_phone new_phone in
  (set_phones self ps, r).

Fixpoint find_in (ps : list Phone.t) (number : string) : option Phone.t :=
  match ps with
  | [] => None
  | p :: rest =>
      if String.eqb (Phone.value p) number then Some p else find_in rest number
  end.

Definition find_phone (self : t) (number : string) : option Phone.t :=
  find_in (phones self) number.

End Record_.

(* ------------------------------------------------------------------ *)
(** ** dict, in insertion order *)

Module dict.

Section WithValue.

Context {V : Type}.

Definition t : Type := list (string * V).

(** [d.get(k)] *)
Fixpoint get (d : t) (k : string) : option V :=
  match d with
  | [] => None
  | (k', v) :: rest => if String.eqb k' k then Some v else get rest k
  end.

(** [d[k] = v]: an existing key keeps its place. *)
Fixpoint set (d : t) (k : string) (v : V) : t :=
  match d with
  | [] => [(k, v)]
  | (k', v') :: rest =>
      if String.eqb k' k then (k, v) :: rest else (k', v') :: set rest k v
  end.

(** [del d[k]] for a key that may be absent. *)
Fixpoint del (d : t) (k : string) : t :=
  match d with
  | [] => []
  | (k', v') :: rest =>
      if String.eqb k' k then rest else (k', v') :: del rest k
  end.

Definition keys (d : t) : list string := map fst d.

Definition values (d : t) : list V := map snd d.

End WithValue.

Arguments t V : clear implicits.

End dict.

(* ------------------------------------------------------------------ *)
(** ** AddressBook *)

Module AddressBook.

Definition t : Type := dict.t Record_.t.

Definition empty : t := [].

Definition add_record (self : t) (record : Record_.t) : t :=
  dict.set self (Record_.name record) record.

Definition find (self : t) (name : string) : option Record_.t :=
  dict.get self name.

Definition delete (self : t) (name : string) : t :=
  dict.del self name.

(** An element of the returned list: the dict with the keys "name" and
    "congratulation_date". *)
Record entry : Type := mkentry {
  entry_name : string;
  congratulation_date : string
}.

(** The body of the loop for one record. *)
Definition visit (today : datetime.date) (upcoming_birthdays : list entry)
    (record : Record_.t) : result (list entry) :=
  match Record_.birthday record with
  | None => Ok upcoming_birthdays
  | Some b =>
      let birthday := Birthday.date_value b in
      try! birthday_this_year :=
        datetime.replace_year birthday (datetime.year today) in
      try! birthday_this_year :=
        (if datetime.lt birthday_this_year today
         then datetime.replace_year birthday_this_year (datetime.year today + 1)
         else Ok birthday_this_year) in
      let days_until_birthday := datetime.sub_days birthday_this_year today in
      if (0 <=? days_until_birthday) && (days_until_birthday <=? 7) then
        try! birthday_this_year :=
          (if (datetime.weekday birthday_this_year =? 5)
              || (datetime.weekday birthday_this_year =? 6)
           then
             if datetime.weekday birthday_this_year =? 5
             then datetime.add_days birthday_this_year 2
             else datetime.add_days birthday_this_year 1
           else Ok birthday_this_year) in
        Ok (upcoming_birthdays
            ++ [mkentry (Record_.name record)
                        (datetime.strftime_Ymd birthday_this_year)])
      else Ok upcoming_birthdays
  end.

Fixpoint loop (today : datetime.date) (records : list Record_.t)
    (upcoming_birthdays : list entry) : result (list entry) :=
  match records with
  | [] => Ok upcoming_birthdays
  | record :: rest =>
      try! upcoming_birthdays := visit today upcoming_birthdays record in
      loop today rest upcoming_birthdays
  end.

(** [today] is what [datetime.today().date()] returned. *)
Definition get_upcoming_birthdays (today : datetime.date) (self : t)
  : result (list entry) :=
  loop today (dict.values self) [].

End AddressBook.

(* ------------------------------------------------------------------ *)
(** ** Command handlers *)

(** A handler works on the book it is given and may raise after it has
    changed it: it returns the book as it is left and the outcome. *)
Definition handler : Type := list string -> AddressBook.t -> AddressBook.t * result string.

Definition input_error (func : handler) : handler :=
  fun args book =>
    match func args book with
    | (book', Raise (ValueError m)) => (book', Ok (exn_str (ValueError m)))
    | (book', Raise (KeyError m)) => (book', Ok (exn_str (KeyError m)))
    | (book', Raise (IndexError m)) => (book', Ok (exn_str (IndexError m)))
    | other => other
    end.

(** The function that the decorator wraps.  The record found or created is
    the object the book holds under [name]: [add_phone] changes it there. *)
Definition add_contact_func : handler :=
  fun args book =>
    match args with
    | name :: phone :: _ =>
        let record := AddressBook.find book name in
        let message := "Contact updated." in
        let '(record, book, message) :=
          match record with
          | None =>
              let record := Record_.__init__ name in
              (record, AddressBook.add_record book record, "Contact added.")
          | Some record => (record, book, message)
          end in
        if str.truthy phone then
          let '(record, r) := Record_.add_phone record phone in
          (dict.set book name record, try! _u := r in Ok message)
        else (book, Ok message)
    | _ =>
        (book,
         Raise (ValueError ("not enough values to unpack (expected at least 2, got "
                            ++ decimal (Z.of_nat (List.length args)) ++ ")")%string))
    end.

Definition add_contact : handler := input_error add_contact_func.

(* ------------------------------------------------------------------ *)
(** ** More of [str]: blanks, [split], [strip], [join] *)

Module pystr.

(** The characters [str.isspace] accepts among the code points below 256;
    [split()] and [strip()] use the same set. *)
Definition isspace (c : ascii) : bool :=
  let n := str.code c in
  ((9 <=? n) && (n <=? 13)) || ((28 <=? n) && (n <=? 32))
  || (n =? 133) || (n =? 160).

(** The line feed, written [\n] in the source. *)
Definition nl : string := String "010" EmptyString.

(** [s.split()] from a position on; [word] holds the characters of the
    word that is being read. *)
Fixpoint split_from (s : string) (word : string) : list string :=
  match s with
  | EmptyString => if str.truthy word then [word] else []
  | String c r =>
      if isspace c then
        if str.truthy word then word :: split_from r EmptyString
        else split_from r EmptyString
      else split_from r (word ++ String c EmptyString)
  end.

Definition split (s : string) : list string := split_from s EmptyString.

Fixpoint lstrip (s : string) : string :=
  match s with
  | EmptyString => EmptyString
  | String c r => if isspace c then lstrip r else s
  end.

Fixpoint rstrip (s : string) : string :=
  match s with
  | EmptyString => EmptyString
  | String c r =>
      match rstrip r with
      | EmptyString => if isspace c then EmptyString else String c EmptyString
      | r' => String c r'
      end
  end.

Definition strip (s : string) : string := rstrip (lstrip s).

(** [sep.join(parts)] *)
Fixpoint join (sep : string) (parts : list string) : string :=
  match parts with
  | [] => EmptyString
  | p :: rest =>
      match rest with
      | [] => p
      | _ => (p ++ sep ++ join sep rest)%string
      end
  end.

End pystr.

(** [Record.__str__]; the text of a field is its value. *)
Definition Record_str (self : Record_.t) : string :=
  let phones := pystr.join "; " (map Phone.value (Record_.phones self)) in
  let birthday :=
    match Record_.birthday self with
    | Some b => Birthday.value b
    | None => "Not set"
    end in
  ("Contact name: " ++ Record_.name self ++ ", phones: " ++ phones
   ++ ", birthday: " ++ birthday)%string.

(* ------------------------------------------------------------------ *)
(** ** The other command handlers *)

Definition change_phone_func : handler :=
  fun args book =>
    match args with
    | name :: old_phone :: new_phone :: _ =>
        match AddressBook.find book name with
        | None => (book, Ok ("Contact " ++ name ++ " not found.")%string)
        | Some record =>
            let '(record, r) := Record_.edit_phone record old_phone new_phone in
            (dict.set book name record,
             try! _u := r in
             Ok ("Phone number for " ++ name ++ " changed from " ++ old_phone
                 ++ " to " ++ new_phone ++ ".")%string)
        end
    | _ =>
        (book,
         Raise (ValueError ("not enough values to unpack (expected at least 3, got "
                            ++ decimal (Z.of_nat (List.length args)) ++ ")")%string))
    end.

Definition change_phone : handler := input_error change_phone_func.

Definition show_phone_func : handler :=
  fun args book =>
    match args with
    | [] => (book, Raise (IndexError "list index out of range"))
    | name :: _ =>
        match AddressBook.find book name with
        | None => (book, Ok ("Contact " ++ name ++ " not found.")%string)
        | Some record =>
            let phones := pystr.join ", " (map Phone.value (Record_.phones record)) in
            (book, Ok (name ++ "'s phone numbers: " ++ phones)%string)
        end
    end.

Definition show_phone : handler := input_error show_phone_func.

Definition show_all_contacts_func : handler :=
  fun args book =>
    match book with
    | [] => (book, Ok "No contacts found.")
    | _ =>
        (book,
         Ok (fold_left (fun result record => (result ++ Record_str record ++ pystr.nl)%string)
                       (dict.values book) ("All contacts:" ++ pystr.nl)%string))
    end.

Definition show_all_contacts : handler := input_error show_all_contacts_func.

(** The handler [add_birthday]; a [Record] object is always true, so
    [if not record] tests for [None].  The inner [try] turns a [ValueError]
    of [Birthday] or of [Record.add_birthday] into its message. *)
Definition add_birthday_func : handler :=
  fun args book =>
    match args with
    | [name; birthday_str] =>
        match AddressBook.find book name with
        | None => (book, Ok ("Contact " ++ name ++ " not found.")%string)
        | Some record =>
            match Birthday.__init__ birthday_str with
            | Ok birthday =>
                match Record_.add_birthday record birthday with
                | (record, Ok _) =>
                    (dict.set book name record,
                     Ok ("Birthday for " ++ name ++ " added as " ++ birthday_str
                         ++ ".")%string)
                | (record, Raise (ValueError m)) =>
                    (dict.set book name record, Ok (exn_str (ValueError m)))
                | (record, Raise e) => (dict.set book name record, Raise e)
                end
            | Raise (ValueError m) => (book, Ok (exn_str (ValueError m)))
            | Raise e => (book, Raise e)
            end
        end
    | _ :: _ :: _ :: _ =>
        (book, Raise (ValueError "too many values to unpack (expected 2)"))
    | _ =>
        (book,
         Raise (ValueError ("not enough values to unpack (expected 2, got "
                            ++ decimal (Z.of_nat (List.length args)) ++ ")")%string))
    end.

Definition add_birthday : handler := input_error add_birthday_func.

Definition show_birthday_func : handler :=
  fun args book =>
    match args with
    | [] => (book, Raise (IndexError "list index out of range"))
    | name :: _ =>
        match AddressBook.find book name with
        | None => (book, Ok ("Contact " ++ name ++ " not found.")%string)
        | Some record =>
            match Record_.birthday record with
            | Some b =>
                (book, Ok ("Birthday for " ++ name ++ " is " ++ Birthday.value b
                           ++ ".")%string)
            | None => (book, Ok ("Birthday for " ++ name ++ " is not set.")%string)
            end
        end
    end.

Definition show_birthday : handler := input_error show_birthday_func.

(** The handler [birthdays]; [today] is what the clock gives. *)
Definition birthdays_func (today : datetime.date) : handler :=
  fun args book =>
    match AddressBook.get_upcoming_birthdays today book with
    | Raise e => (book, Raise e)
    | Ok [] => (book, Ok "No birthdays in the next week.")
    | Ok upcoming_birthdays =>
        (book,
         Ok (fold_left
               (fun result bd =>
                  (result ++ AddressBook.entry_name bd ++ ": "
                   ++ AddressBook.congratulation_date bd ++ pystr.nl)%string)
               upcoming_birthdays ("Upcoming birthdays:" ++ pystr.nl)%string))
    end.

Definition birthdays (today : datetime.date) : handler :=
  input_error (birthdays_func today).

Definition parse_input (user_input : string) : result (string * list string) :=
  match pystr.split (pystr.strip user_input) with
  | [] => Raise (IndexError "list index out of range")
  | command :: args => Ok (command, args)
  end.

(** One turn of the loop of [main] on the line read: the book it leaves,
    the texts it prints, and whether the loop ends.  Writing the file on
    exit ([save_data]) is not part of the model. *)
Definition main_step (today : datetime.date) (book : AddressBook.t)
    (user_input : string) : result (AddressBook.t * list string * bool) :=
  try! parsed := parse_input user_input in
  let command := fst parsed in
  let args := snd parsed in
  let print (h : handler) :=
    let '(book', r) := h args book in
    try! text := r in Ok (book', [text], false) in
  if String.eqb command "close" || String.eqb command "exit" then
    Ok (book, ["Good bye!"], true)
  else if String.eqb command "hello" then Ok (book, ["How can I help you?"], false)
  else if String.eqb command "add" then print add_contact
  else if String.eqb command "change" then print change_phone
  else if String.eqb command "phone" then print show_phone
  else if String.eqb command "all" then print show_all_contacts
  else if String.eqb command "add-birthday" then print add_birthday
  else if String.eqb command "show-birthday" then print show_birthday
  else if String.eqb command "birthdays" then print (birthdays today)
  else Ok (book, ["Invalid command."], false).

(* ------------------------------------------------------------------ *)
(** ** The properties, in the words of the specification *)

Module Spec.

Import datetime.

(** A day of the Gregorian calendar; the year has no upper bound here. *)
Definition calendar_day (y m d : Z) : bool :=
  (1 <=? y) && (1 <=? m) && (m <=? 12) && (1 <=? d) && (d <=? _days_in_month y m).

(** The number of a calendar day, counted from 0001-01-01 as day 1. *)
Definition day_number (d : date) : Z := _ymd2ord (year d) (month d) (day d).

(** The same month and day in year [y], when that day exists. *)
Definition occurrence_in (y : Z) (birthday : date) : option date :=
  if calendar_day y (month birthday) (day birthday)
  then Some (mkdate y (month birthday) (day birthday))
  else None.

(** This year's occurrence, or next year's when this year's has already
    passed relative to [today]. *)
Definition occurrence (today birthday : date) : option date :=
  match occurrence_in (year today) birthday with
  | Some o =>
      if day_number o <? day_number today
      then occurrence_in (year today + 1) birthday
      else Some o
  | None => None
  end.

(** occurrence - today, in whole days. *)
Definition days_until (today o : date) : Z := day_number o - day_number today.

Definition within_week (today o : date) : bool :=
  (0 <=? days_until today o) && (days_until today o <=? 7).

(** The record has a birthday whose occurrence is 0 to 7 days away. *)
Definition upcoming (today : date) (r : Record_.t) : bool :=
  match Record_.birthday r with
  | Some b =>
      match occurrence today (Birthday.date_value b) with
      | Some o => within_week today o
      | None => false
      end
  | None => false
  end.

(** The record has no birthday, or its birthday has an occurrence and
    that is a date the [date] type can hold. *)
Definition has_occurrence (today : date) (r : Record_.t) : bool :=
  match Record_.birthday r with
  | Some b =>
      match occurrence today (Birthday.date_value b) with
      | Some o => year o <=? MAXYEAR
      | None => false
      end
  | None => true
  end.

Definition representable (today : date) (book : AddressBook.t) : bool :=
  forallb (has_occurrence today) (dict.values book).

(** Days to move the congratulation: 2 from a Saturday, 1 from a Sunday. *)
Definition weekend_shift (o : date) : Z :=
  if weekday o =? 5 then 2 else if weekday o =? 6 then 1 else 0.

(** The number that a text of digits 0-9 writes. *)
Fixpoint number_from (s : string) (acc : Z) : option Z :=
  match s with
  | EmptyString => Some acc
  | String c r =>
      if str.char_isdecimal c then number_from r (10 * acc + (str.code c - 48))
      else None
  end.

Definition number (s : string) : option Z :=
  match s with
  | EmptyString => None
  | _ => number_from s 0
  end.

(** The text before the first dot, and the text after that dot when there
    is one. *)
Fixpoint cut (s : string) : string * option string :=
  match s with
  | EmptyString => (EmptyString, None)
  | String c r =>
      if Ascii.eqb c "." then (EmptyString, Some r)
      else (String c (fst (cut r)), snd (cut r))
  end.

(** The date that a text year.month.day names: the year in digits, the
    month and the day in two digits each. *)
Definition date_of_text (t : string) : option date :=
  match cut t with
  | (yt, Some r) =>
      match cut r with
      | (mt, Some dt) =>
          if ((String.length mt =? 2) && (String.length dt =? 2))%nat then
            match number yt, number mt, number dt with
            | Some y, Some m, Some d => Some (mkdate y m d)
            | _, _, _ => None
            end
          else None
      | _ => None
      end
  | _ => None
  end.

(** The entry [e] congratulates the record [r]: it has the record's name,
    and its text names, as year.month.day, the date [weekend_shift] days
    after the occurrence of the record's birthday; from the year 1000 on
    the text has the ten characters of YYYY.MM.DD. *)
Definition congratulates (today : date) (e : AddressBook.entry)
    (r : Record_.t) : Prop :=
  exists b o c,
    Record_.birthday r = Some b
    /\ occurrence today (Birthday.date_value b) = Some o
    /\ valid c = true
    /\ day_number c = day_number o + weekend_shift o
    /\ AddressBook.entry_name e = Record_.name r
    /\ date_of_text (AddressBook.congratulation_date e) = Some c
    /\ (1000 <= year c ->
        String.length (AddressBook.congratulation_date e) = 10%nat).

(** The birthday is a 29th of February. *)
Definition leap_day (birthday : date) : bool :=
  (month birthday =? 2) && (day birthday =? 29).

(** [c] is the decimal digit of value [v]. *)
Definition digit (c : ascii) (v : Z) : Prop :=
  str.code c = 48 + v /\ 0 <= v <= 9.

(** The text has a character that is not one of 0-9. *)
Definition has_non_decimal (s : string) : bool :=
  negb (str.all str.char_isdecimal s).

(** The strict form DD.MM.YYYY: two digits, a dot, two digits, a dot, four
    digits. *)
Definition dd_mm_yyyy (t : string) : bool :=
  match list_ascii_of_string t with
  | [d1; d2; p1; m1; m2; p2; y1; y2; y3; y4] =>
      forallb str.char_isdecimal [d1; d2; m1; m2; y1; y2; y3; y4]
      && Ascii.eqb p1 "." && Ascii.eqb p2 "."
  | _ => false
  end.

(** The value of a decimal digit. *)
Definition digit_value (c : ascii) : Z := str.code c - 48.

(** The date a text in the strict form DD.MM.YYYY names, when it is a
    real one. *)
Definition strict_date (t : string) : option date :=
  match list_ascii_of_string t with
  | [d1; d2; p1; m1; m2; p2; y1; y2; y3; y4] =>
      if dd_mm_yyyy t then
        let d :=
          mkdate (1000 * digit_value y1 + 100 * digit_value y2
                  + 10 * digit_value y3 + digit_value y4)
                 (10 * digit_value m1 + digit_value m2)
                 (10 * digit_value d1 + digit_value d2) in
        if valid d then Some d else None
      else None
  | _ => None
  end.

(** No character of the text is a dot. *)
Definition no_dot (s : string) : bool :=
  str.all (fun c => negb (Ascii.eqb c ".")) s.

(** The texts [strptime] takes for a day: two digits, one digit, or a blank
    and one digit. *)
Inductive day_text : string -> Z -> Prop :=
| day_two a b x y :
    digit a x -> digit b y -> 1 <= 10 * x + y <= 31 ->
    day_text (String a (String b EmptyString)) (10 * x + y)
| day_one b y :
    digit b y -> 1 <= y -> day_text (String b EmptyString) y
| day_blank b y :
    digit b y -> 1 <= y -> day_text (String " " (String b EmptyString)) y.

(** ... for a month: two digits or one. *)
Inductive month_text : string -> Z -> Prop :=
| month_two a b x y :
    digit a x -> digit b y -> 1 <= 10 * x + y <= 12 ->
    month_text (String a (String b EmptyString)) (10 * x + y)
| month_one b y :
    digit b y -> 1 <= y -> month_text (String b EmptyString) y.

(** ... for a year: four digits. *)
Inductive year_text : string -> Z -> Prop :=
| year_four a b c d w x y z :
    digit a w -> digit b x -> digit c y -> digit d z ->
    year_text (String a (String b (String c (String d EmptyString))))
              (1000 * w + 100 * x + 10 * y + z).

(** The text is day.month.year in those forms and names a real date. *)
Definition date_text (t : string) (d : date) : Prop :=
  exists dt mt yt,
    t = (dt ++ "." ++ mt ++ "." ++ yt)%string
    /\ day_text dt (day d) /\ month_text mt (month d) /\ year_text yt (year d)
    /\ valid d = true.

(** The keys of the book are the names of the records they hold. *)
Definition keys_match (book : AddressBook.t) : Prop :=
  Forall (fun kv => fst kv = Record_.name (snd kv)) book.

End Spec.

(* ------------------------------------------------------------------ *)
(** ** The 400-year cycle, checked day by day *)

Module Cycle.

Import datetime.

Definition shift_year (k : Z) (t : Z * Z * Z) : Z * Z * Z :=
  let '(y, m, d) := t in (y + k, m, d).

(** Day [r + 1] of the first cycle: [_ord2ymd] gives a real day of the
    years 1..400, [_ymd2ord] maps it back, and only the last 366 days
    lie in year 400. *)
Definition cycle_ok (r : Z) : bool :=
  let '(y, m, d) := _ord2ymd (r + 1) in
  (1 <=? y) && (y <=? 400) && (1 <=? m) && (m <=? 12)
  && (1 <=? d) && (d <=? _days_in_month y m)
  && (_ymd2ord y m d =? r + 1)
  && ((145730 <? r) || (y <=? 399)).

Fixpoint cycle_check (fuel : nat) (r : Z) : bool :=
  match fuel with
  | O => true
  | S f => cycle_ok r && cycle_check f (r + 1)
  end.

(** [f] holds of the [fuel] numbers from [r] on. *)
Fixpoint range_check (f : Z -> bool) (fuel : nat) (r : Z) : bool :=
  match fuel with
  | O => true
  | S n => f r && range_check f n (r + 1)
  end.

(** The text of a year reads as that year, has no dot, and has four
    characters from 1000 on. *)
Definition year_text_ok (y : Z) : bool :=
  match Spec.number (decimal y) with
  | Some v => v =? y
  | None => false
  end
  && Spec.no_dot (decimal y)
  && ((y <? 1000) || (String.length (decimal y) =? 4)%nat).

(** The two digits of a month or a day read as that number and have no
    dot. *)
Definition two_digits_ok (n : Z) : bool :=
  match Spec.number (zero_padded 2 n) with
  | Some v => v =? n
  | None => false
  end
  && Spec.no_dot (zero_padded 2 n).

End Cycle.

(* ------------------------------------------------------------------ *)
(** ** Invariants of records and books *)

Module Inv.

(** Every phone of the record is one that [Phone] accepts. *)
Definition phones_valid (r : Record_.t) : Prop :=
  Forall (fun p => Phone.__init__ (Phone.value p) = Ok p) (Record_.phones r).

(** A book as the operations build it: a key occurs once, it is the name of
    the record it holds, and all phones are valid. *)
Definition book_ok (book : AddressBook.t) : Prop :=
  NoDup (dict.keys book)
  /\ Forall (fun kv => fst kv = Record_.name (snd kv)) book
  /\ Forall phones_valid (dict.values book).

(** A word as [split] gives it: not empty, without blanks. *)
Definition word (w : string) : Prop :=
  w <> EmptyString /\ str.all (fun c => negb (pystr.isspace c)) w = true.

(** The record has a birthday whose occurrence is at most 7 days after
    [today]. *)
Definition at_most_week_ahead (today : datetime.date) (r : Record_.t) : bool :=
  match Record_.birthday r with
  | Some b =>
      match Spec.occurrence today (Birthday.date_value b) with
      | Some o => Spec.days_until today o <=? 7
      | None => false
      end
  | None => false
  end.

(** The exceptions that [input_error] turns into a message. *)
Definition caught (e : exn) : Prop :=
  match e with
  | OverflowError _ => False
  | _ => True
  end.

End Inv.

(* ------------------------------------------------------------------ *)
(** ** [Birthday] on texts of all code points

    [strptime] is the one place where characters above the code points of
    one byte are read differently from all others: the class [\d] of its
    pattern and [int] take the decimal digits of every script.  This module
    repeats [_strptime] for texts that are lists of code points, over a
    table of the scripts of decimal digits. *)

Module wide.

Definition text : Type := list Z.

(** A text of code points below 256 as a list of code points. *)
Definition codes (s : string) : text := map str.code (list_ascii_of_string s).

Record birthday : Type := mk { value : text; date_value : datetime.date }.

(** The digit zero of every script of decimal digits (category Nd) of
    Unicode 14.0, the data of CPython 3.11; the digits one to nine of a
    script follow its zero. *)
Definition unicode_14_zeros : list Z :=
  [48; 1632; 1776; 1984; 2406; 2534; 2662; 2790; 2918; 3046; 3174; 3302;
   3430; 3558; 3664; 3792; 3872; 4160; 4240; 6112; 6160; 6470; 6608; 6784;
   6800; 6992; 7088; 7232; 7248; 42528; 43216; 43264; 43472; 43504; 43600;
   44016; 65296; 66720; 68912; 69734; 69872; 69942; 70096; 70384; 70736;
   70864; 71248; 71360; 71472; 71904; 72016; 72784; 73040; 73120; 92768;
   92864; 93008; 120782; 120792; 120802; 120812; 120822; 123200; 123632;
   125264; 130032].

(** A table has the digits 0-9 first; the other scripts lie above the
    code points of one byte. *)
Definition table_ok (zeros : list Z) : bool :=
  match zeros with
  | z :: rest => (z =? 48) && forallb (fun z => 255 <? z) rest
  | [] => false
  end.

Section Table.

(** The digit zero of every script of decimal digits. *)
Variable zeros : list Z.

Fixpoint decimal_in (zs : list Z) (c : Z) : option Z :=
  match zs with
  | [] => None
  | z :: rest =>
      if (z <=? c) && (c <=? z + 9) then Some (c - z) else decimal_in rest c
  end.

(** The value of a decimal digit: what [\d] takes and [int] reads. *)
Definition decimal_value (c : Z) : option Z := decimal_in zeros c.

Definition isdecimal (c : Z) : bool :=
  match decimal_value c with
  | Some _ => true
  | None => false
  end.

Definition one (ok : Z -> bool) (s : text) : list (text * text) :=
  match s with
  | c :: r => if ok c then [([c], r)] else []
  | [] => []
  end.

(** [re.matches] on code points: a literal and a range of the pattern
    take the characters of those codes, [\d] every decimal digit (the
    flag IGNORECASE changes nothing for these characters). *)
Fixpoint matches (p : re.pattern) (s : text) : list (text * text) :=
  match p with
  | re.Lit c => one (Z.eqb (str.code c)) s
  | re.Range lo hi => one (fun c => (str.code lo <=? c) && (c <=? str.code hi)) s
  | re.Digit => one isdecimal s
  | re.Cat p q =>
      flat_map
        (fun m1 => map (fun m2 => (fst m1 ++ fst m2, snd m2)) (matches q (snd m1)))
        (matches p s)
  | re.Or p q => matches p s ++ matches q s
  end.

(** The texts a pattern matches. *)
Inductive lang : re.pattern -> text -> Prop :=
| lang_lit c : lang (re.Lit c) [str.code c]
| lang_range lo hi c :
    str.code lo <= c <= str.code hi -> lang (re.Range lo hi) [c]
| lang_digit c : isdecimal c = true -> lang re.Digit [c]
| lang_cat p q a b : lang p a -> lang q b -> lang (re.Cat p q) (a ++ b)
| lang_or_l p q a : lang p a -> lang (re.Or p q) a
| lang_or_r p q a : lang q a -> lang (re.Or p q) a.

Definition found (data_string : text) : list (text * text * text * text) :=
  flat_map (fun d =>
  flat_map (fun dot1 =>
  flat_map (fun m =>
  flat_map (fun dot2 =>
  map (fun y => (fst d, fst m, fst y, snd y))
      (matches _strptime.re_Y (snd dot2)))
      (matches (re.Lit ".") (snd m)))
      (matches _strptime.re_m (snd dot1)))
      (matches (re.Lit ".") (snd d)))
      (matches _strptime.re_d data_string).

(** [int(text)] on the text of a group: decimal digits, after blanks. *)
Fixpoint int_digits (s : text) (acc : Z) : result Z :=
  match s with
  | [] => Ok acc
  | c :: r =>
      match decimal_value c with
      | Some v => int_digits r (10 * acc + v)
      | None => Raise (ValueError "invalid literal for int() with base 10")
      end
  end.

Fixpoint int (s : text) : result Z :=
  match s with
  | [] => Raise (ValueError "invalid literal for int() with base 10")
  | c :: r => if c =? 32 then int r else int_digits s 0
  end.

Definition strptime (data_string : text) : result datetime.date :=
  match found data_string with
  | [] => Raise (ValueError "time data does not match format")
  | (d, m, y, rest) :: _ =>
      match rest with
      | _ :: _ => Raise (ValueError "unconverted data remains")
      | [] =>
          try! year := int y in
          try! month := int m in
          try! day := int d in
          datetime.date_new year month day
      end
  end.

(** [Birthday.__init__] *)
Definition Birthday_init (value : text) : result birthday :=
  match strptime value with
  | Ok d => Ok (mk value d)
  | Raise (ValueError _) => Raise (ValueError "Invalid date format. Use DD.MM.YYYY")
  | Raise e => Raise e
  end.

End Table.

End wide.

(** The texts that [wide.Birthday_init] takes, in words. *)
Module WideSpec.

Import datetime.

(** [c] is the digit of value [v] among 0-9. *)
Definition ascii_digit (c v : Z) : Prop := c = 48 + v /\ 0 <= v <= 9.

Definition is_ascii_digit (c : Z) : bool := (48 <=? c) && (c <=? 57).

(** The strict form DD.MM.YYYY, in the digits 0-9. *)
Definition dd_mm_yyyy (t : wide.text) : bool :=
  match t with
  | [d1; d2; p1; m1; m2; p2; y1; y2; y3; y4] =>
      forallb is_ascii_digit [d1; d2; m1; m2; y1; y2; y3; y4]
      && (p1 =? 46) && (p2 =? 46)
  | _ => false
  end.

(** The date a text in the strict form names, when it is a real one. *)
Definition strict_date (t : wide.text) : option date :=
  match t with
  | [d1; d2; p1; m1; m2; p2; y1; y2; y3; y4] =>
      if dd_mm_yyyy t then
        let d :=
          mkdate (1000 * (y1 - 48) + 100 * (y2 - 48) + 10 * (y3 - 48) + (y4 - 48))
                 (10 * (m1 - 48) + (m2 - 48))
                 (10 * (d1 - 48) + (d2 - 48)) in
        if valid d then Some d else None
      else None
  | _ => None
  end.

Section Table.

Variable zeros : list Z.

(** [c] is a decimal digit of value [v], of any script. *)
Definition decimal (c v : Z) : Prop := wide.decimal_value zeros c = Some v.

(** The texts taken for a day: 10 to 29 with a second digit of any script;
    otherwise, in the digits 0-9, two digits from 01 to 31, one digit, or a
    blank and one digit. *)
Inductive day_text : wide.text -> Z -> Prop :=
| day_tens a b x y :
    ascii_digit a x -> 1 <= x <= 2 -> decimal b y ->
    day_text [a; b] (10 * x + y)
| day_two a b x y :
    ascii_digit a x -> ascii_digit b y -> 1 <= 10 * x + y <= 31 ->
    day_text [a; b] (10 * x + y)
| day_one b y : ascii_digit b y -> 1 <= y -> day_text [b] y
| day_blank b y : ascii_digit b y -> 1 <= y -> day_text [32; b] y.

(** ... for a month, in the digits 0-9: two digits from 01 to 12, or one. *)
Inductive month_text : wide.text -> Z -> Prop :=
| month_two a b x y :
    ascii_digit a x -> ascii_digit b y -> 1 <= 10 * x + y <= 12 ->
    month_text [a; b] (10 * x + y)
| month_one b y : ascii_digit b y -> 1 <= y -> month_text [b] y.

(** ... for a year: four decimal digits of any scripts. *)
Inductive year_text : wide.text -> Z -> Prop :=
| year_four a b c d w x y z :
    decimal a w -> decimal b x -> decimal c y -> decimal d z ->
    year_text [a; b; c; d] (1000 * w + 100 * x + 10 * y + z).

(** The text is day.month.year in those forms and names a real date. *)
Definition date_text (t : wide.text) (d : date) : Prop :=
  exists dt mt yt,
    t = dt ++ [46] ++ mt ++ [46] ++ yt
    /\ day_text dt (day d) /\ month_text mt (month d) /\ year_text yt (year d)
    /\ valid d = true.

End Table.

End WideSpec.

(* ================================================================== *)
(** * Calendar facts *)

Section CalendarFacts.

Import datetime Cycle.

Lemma month_cases m : 1 <= m <= 12 ->
  m = 1 \/ m = 2 \/ m = 3 \/ m = 4 \/ m = 5 \/ m = 6 \/ m = 7 \/ m = 8 \/ m = 9 \/ m = 10 \/ m = 11 \/ m = 12.
Proof. lia. Qed.

Lemma is_leap_cases y :
  (_is_leap y = true /\ y mod 4 = 0 /\ (y mod 100 <> 0 \/ y mod 400 = 0))
  \/ (_is_leap y = false /\ (y mod 4 <> 0 \/ (y mod 100 = 0 /\ y mod 400 <> 0))).
Proof.
  unfold _is_leap.
  destruct (Z.eqb_spec (y mod 4) 0), (Z.eqb_spec (y mod 100) 0), (Z.eqb_spec (y mod 400) 0); simpl; lia.
Qed.

Lemma days_before_year_succ y :
  _days_before_year (y + 1) = _days_before_year y + 365 + (if _is_leap y then 1 else 0).
Proof.
  unfold _days_before_year. cbv zeta.
  replace (y + 1 - 1) with y by lia.
  destruct (is_leap_cases y) as [(-> & H)|(-> & H)]; Z.div_mod_to_equations; lia.
Qed.

Lemma days_before_year_mono a b : a <= b -> _days_before_year a <= _days_before_year b.
Proof.
  unfold _days_before_year. cbv zeta. intros. Z.div_mod_to_equations. lia.
Qed.

Lemma is_leap_period y q : _is_leap (y + 400 * q) = _is_leap y.
Proof.
  unfold _is_leap.
  replace ((y + 400 * q) mod 4) with (y mod 4) by (Z.div_mod_to_equations; lia).
  replace ((y + 400 * q) mod 100) with (y mod 100) by (Z.div_mod_to_equations; lia).
  replace ((y + 400 * q) mod 400) with (y mod 400) by (Z.div_mod_to_equations; lia).
  reflexivity.
Qed.

Lemma ymd2ord_period y m d q :
  _ymd2ord (y + 400 * q) m d = _ymd2ord y m d + _DI400Y * q.
Proof.
  unfold _ymd2ord, _days_before_month, _days_in_month.
  rewrite is_leap_period.
  unfold _days_before_year, _DI400Y. cbv zeta.
  Z.div_mod_to_equations; lia.
Qed.

Lemma ord2ymd_period n :
  _ord2ymd n
  = shift_year (400 * ((n - 1) / _DI400Y)) (_ord2ymd ((n - 1) mod _DI400Y + 1)).
Proof.
  unfold _ord2ymd. cbv zeta.
  replace ((n - 1) mod _DI400Y + 1 - 1) with ((n - 1) mod _DI400Y) by lia.
  assert (H0 : 0 <= (n - 1) mod _DI400Y < _DI400Y)
    by (apply Z.mod_pos_bound; reflexivity).
  rewrite (Z.div_small _ _ H0), (Z.mod_small _ _ H0).
  set (r := (n - 1) mod _DI400Y). set (q := (n - 1) / _DI400Y).
  destruct ((r mod _DI100Y mod _DI4Y / 365 =? 4) || (r / _DI100Y =? 4)).
  - unfold shift_year. f_equal. f_equal. lia.
  - match goal with |- (if ?c then _ else _) = shift_year _ (if ?c' then _ else _) =>
      change c' with c; destruct c end; unfold shift_year; f_equal; f_equal; lia.
Qed.

Lemma cycle_check_sound fuel : forall r0 r,
  cycle_check fuel r0 = true -> r0 <= r < r0 + Z.of_nat fuel -> cycle_ok r = true.
Proof.
  induction fuel as [|f IH]; intros r0 r H Hr.
  - lia.
  - cbn [cycle_check] in H. apply andb_prop in H as [H1 H2].
    destruct (Z.eq_dec r r0) as [->|Hne]; [exact H1|].
    apply (IH (r0 + 1)); [exact H2|lia].
Qed.

Lemma cycle_checked : cycle_check (Z.to_nat _DI400Y) 0 = true.
Proof. vm_compute. reflexivity. Qed.

Lemma cycle_ok_all r : 0 <= r < _DI400Y -> cycle_ok r = true.
Proof.
  intros H. apply (cycle_check_sound (Z.to_nat _DI400Y) 0 r cycle_checked).
  rewrite Z2Nat.id by (unfold _DI400Y; lia). lia.
Qed.

Lemma valid_iff d :
  valid d = true <->
  1 <= year d <= 9999 /\ 1 <= month d <= 12
  /\ 1 <= day d <= _days_in_month (year d) (month d).
Proof.
  unfold valid, MINYEAR, MAXYEAR.
  rewrite !andb_true_iff, !Z.leb_le. lia.
Qed.

Lemma date_new_ok y m d x :
  date_new y m d = Ok x <-> x = mkdate y m d /\ valid (mkdate y m d) = true.
Proof.
  unfold date_new, valid. cbn [year month day].
  destruct (MINYEAR <=? y), (y <=? MAXYEAR), (1 <=? m), (m <=? 12), (1 <=? d),
    (d <=? _days_in_month y m); cbn; split;
    try discriminate; try (intros [= <-]; auto); try (intros [-> _]; reflexivity);
    try (intros [_ H]; discriminate).
Qed.

Lemma fromordinal_valid n :
  1 <= n <= _MAXORDINAL ->
  valid (fromordinal n) = true /\ toordinal (fromordinal n) = n.
Proof.
  intros Hn. unfold fromordinal, toordinal.
  rewrite ord2ymd_period.
  assert (Hr : 0 <= (n - 1) mod _DI400Y < _DI400Y)
    by (apply Z.mod_pos_bound; reflexivity).
  pose proof (cycle_ok_all _ Hr) as Hc. unfold cycle_ok in Hc.
  assert (Hq : 0 <= (n - 1) / _DI400Y <= 24).
  { unfold _MAXORDINAL, _DI400Y in *. Z.div_mod_to_equations. lia. }
  assert (Hq24 : (n - 1) / _DI400Y = 24 -> (n - 1) mod _DI400Y <= 145730).
  { unfold _MAXORDINAL, _DI400Y in *. Z.div_mod_to_equations. lia. }
  pose proof (Z.div_mod (n - 1) _DI400Y ltac:(discriminate)) as Hdm.
  set (r := (n - 1) mod _DI400Y) in *. set (q := (n - 1) / _DI400Y) in *.
  destruct (_ord2ymd (r + 1)) as [[y m] d]. unfold shift_year.
  rewrite !andb_true_iff, orb_true_iff, !Z.leb_le, Z.eqb_eq, Z.ltb_lt in Hc.
  destruct Hc as [[[[[[[Hy1 Hy2] Hm1] Hm2] Hd1] Hd2] Ho] Hlast].
  cbn [year month day]. split.
  - apply valid_iff. cbn [year month day].
    replace (y + 400 * q) with (y + 400 * q) by reflexivity.
    unfold _days_in_month in *. rewrite is_leap_period.
    repeat split; try lia.
  - rewrite ymd2ord_period, Ho. lia.
Qed.

Lemma days_in_month_bounds y m : 1 <= m <= 12 -> 28 <= _days_in_month y m <= 31.
Proof.
  intros H. unfold _days_in_month.
  destruct (month_cases m H) as [->|[->|[->|[->|[->|[->|[->|[->|[->|[->|[->| ->]]]]]]]]]]];
    cbn; destruct (_is_leap y); cbn; lia.
Qed.

Ltac month_split m H :=
  destruct (month_cases m H)
    as [->|[->|[->|[->|[->|[->|[->|[->|[->|[->|[->| ->]]]]]]]]]]].

Lemma days_before_month_mono y a b :
  1 <= a -> a < b -> b <= 12 ->
  _days_before_month y a + _days_in_month y a <= _days_before_month y b.
Proof.
  intros Ha Hab Hb.
  assert (Ha' : 1 <= a <= 12) by lia. assert (Hb' : 1 <= b <= 12) by lia.
  unfold _days_before_month, _days_in_month.
  month_split a Ha'; month_split b Hb'; try lia; cbn; destruct (_is_leap y); cbn; lia.
Qed.

Lemma days_before_month_bounds y m :
  1 <= m <= 12 ->
  0 <= _days_before_month y m
  /\ _days_before_month y m + _days_in_month y m
     <= 365 + (if _is_leap y then 1 else 0).
Proof.
  intros H. unfold _days_before_month, _days_in_month.
  month_split m H; cbn; destruct (_is_leap y); cbn; lia.
Qed.

Lemma toordinal_in_year d :
  valid d = true ->
  _days_before_year (year d) < toordinal d <= _days_before_year (year d + 1).
Proof.
  intros H. apply valid_iff in H as (Hy & Hm & Hd).
  unfold toordinal, _ymd2ord. rewrite days_before_year_succ.
  pose proof (days_before_month_bounds (year d) (month d) Hm). lia.
Qed.

Lemma toordinal_bounds d :
  valid d = true -> 1 <= toordinal d <= _MAXORDINAL.
Proof.
  intros H. pose proof (toordinal_in_year d H) as Hin.
  apply valid_iff in H as (Hy & _).
  pose proof (days_before_year_mono 1 (year d) ltac:(lia)).
  pose proof (days_before_year_mono (year d + 1) 10000 ltac:(lia)).
  change (_days_before_year 1) with 0 in *.
  change (_days_before_year 10000) with 3652059 in *.
  unfold _MAXORDINAL. lia.
Qed.

Lemma toordinal_lt a b :
  valid a = true -> valid b = true ->
  lt a b = (toordinal a <? toordinal b).
Proof.
  intros Ha Hb.
  pose proof (toordinal_in_year a Ha) as Ia.
  pose proof (toordinal_in_year b Hb) as Ib.
  apply valid_iff in Ha as (Hya & Hma & Hda), Hb as (Hyb & Hmb & Hdb).
  unfold lt.
  destruct (Z.ltb_spec (year a) (year b)) as [Hy|Hy]; cbn [orb].
  { pose proof (days_before_year_mono (year a + 1) (year b) ltac:(lia)).
    symmetry. apply Z.ltb_lt. lia. }
  destruct (Z.eqb_spec (year a) (year b)) as [Hy'|Hy']; cbn [andb].
  2:{ pose proof (days_before_year_mono (year b + 1) (year a) ltac:(lia)).
      symmetry. apply Z.ltb_ge. lia. }
  unfold toordinal, _ymd2ord in *. rewrite Hy' in *.
  destruct (Z.ltb_spec (month a) (month b)) as [Hm|Hm]; cbn [orb].
  { pose proof (days_before_month_mono (year b) (month a) (month b)
                  ltac:(lia) Hm ltac:(lia)).
    symmetry. apply Z.ltb_lt. lia. }
  destruct (Z.eqb_spec (month a) (month b)) as [Hm'|Hm']; cbn [andb].
  2:{ pose proof (days_before_month_mono (year b) (month b) (month a)
                    ltac:(lia) ltac:(lia) ltac:(lia)).
      symmetry. apply Z.ltb_ge. lia. }
  rewrite Hm'.
  destruct (Z.ltb_spec (day a) (day b)); symmetry;
    [apply Z.ltb_lt | apply Z.ltb_ge]; lia.
Qed.

Lemma weekend_before_max d :
  valid d = true ->
  (weekday d = 5 -> toordinal d + 2 <= _MAXORDINAL)
  /\ (weekday d = 6 -> toordinal d + 1 <= _MAXORDINAL).
Proof.
  intros H. pose proof (toordinal_bounds d H) as Hb.
  unfold weekday, _MAXORDINAL in *.
  split; intros Hw; Z.div_mod_to_equations; lia.
Qed.

Lemma add_days_ok d n :
  valid d = true -> 1 <= toordinal d + n <= _MAXORDINAL ->
  exists d', add_days d n = Ok d' /\ valid d' = true
             /\ toordinal d' = toordinal d + n.
Proof.
  intros Hd Hn. unfold add_days. cbv zeta.
  destruct (fromordinal_valid _ Hn) as [Hv Ho].
  replace ((0 <? toordinal d + n) && (toordinal d + n <=? _MAXORDINAL)) with true.
  - eauto.
  - symmetry. apply andb_true_iff. rewrite Z.ltb_lt, Z.leb_le. lia.
Qed.
End CalendarFacts.

Example calendar_examples :
  datetime.weekday (datetime.mkdate 2024 6 15) = 5
  /\ datetime.fromordinal (datetime.toordinal (datetime.mkdate 2024 6 15) + 2)
     = datetime.mkdate 2024 6 17
  /\ datetime.strftime_Ymd (datetime.mkdate 2024 6 17) = "2024.06.17"
  /\ datetime.toordinal (datetime.mkdate 9999 12 31) = datetime._MAXORDINAL
  /\ datetime.weekday (datetime.mkdate 9999 12 31) = 4.
Proof. repeat split; reflexivity. Qed.

(* ================================================================== *)
(** * The upcoming-birthday loop *)

Section UpcomingFacts.

Import datetime AddressBook.

Lemma date_new_cases y m d :
  (Spec.calendar_day y m d && (y <=? MAXYEAR) = true
   /\ date_new y m d = Ok (mkdate y m d) /\ valid (mkdate y m d) = true)
  \/ (Spec.calendar_day y m d && (y <=? MAXYEAR) = false
      /\ exists msg, date_new y m d = Raise (ValueError msg)).
Proof.
  unfold date_new, Spec.calendar_day, valid, MINYEAR. cbn [year month day].
  destruct (1 <=? y), (y <=? MAXYEAR), (1 <=? m), (m <=? 12), (1 <=? d),
    (d <=? _days_in_month y m); cbn; eauto.
Qed.

(** What the loop body does with a record, in the words of [Spec]. *)
Lemma visit_spec today acc r :
  valid today = true ->
  match Record_.birthday r with
  | None => visit today acc r = Ok acc
  | Some b =>
      match Spec.occurrence today (Birthday.date_value b) with
      | Some o =>
          if year o <=? MAXYEAR then
            if Spec.within_week today o then
              exists c,
                valid c = true
                /\ Spec.day_number c = Spec.day_number o + Spec.weekend_shift o
                /\ visit today acc r
                   = Ok (acc ++ [mkentry (Record_.name r) (strftime_Ymd c)])
            else visit today acc r = Ok acc
          else exists msg, visit today acc r = Raise (ValueError msg)
      | None => exists msg, visit today acc r = Raise (ValueError msg)
      end
  end.
Proof.
  intros Ht. unfold visit.
  destruct (Record_.birthday r) as [b|]; [|reflexivity].
  cbv zeta. set (bd := Birthday.date_value b).
  unfold Spec.occurrence, Spec.occurrence_in, replace_year.
  assert (Hy : (year today <=? MAXYEAR) = true).
  { apply valid_iff in Ht. apply Z.leb_le. unfold MAXYEAR. lia. }
  destruct (date_new_cases (year today) (month bd) (day bd))
    as [(Hc & -> & Hv)|(Hc & msg & ->)];
    rewrite Hy, andb_true_r in Hc; rewrite Hc; cbn [bind]; [|eauto].
  change (Spec.day_number ?x) with (toordinal x).
  rewrite (toordinal_lt _ _ Hv Ht).
  assert (Hfin : forall o, valid o = true ->
    if Spec.within_week today o
    then exists c, valid c = true
           /\ toordinal c = toordinal o + Spec.weekend_shift o
           /\ (if (0 <=? sub_days o today) && (sub_days o today <=? 7)
               then try! birthday_this_year :=
                      (if (weekday o =? 5) || (weekday o =? 6)
                       then if weekday o =? 5 then add_days o 2 else add_days o 1
                       else Ok o) in
                    Ok (acc ++ [mkentry (Record_.name r)
                                        (strftime_Ymd birthday_this_year)])
               else Ok acc)
              = Ok (acc ++ [mkentry (Record_.name r) (strftime_Ymd c)])
    else (if (0 <=? sub_days o today) && (sub_days o today <=? 7)
          then try! birthday_this_year :=
                 (if (weekday o =? 5) || (weekday o =? 6)
                  then if weekday o =? 5 then add_days o 2 else add_days o 1
                  else Ok o) in
               Ok (acc ++ [mkentry (Record_.name r)
                                   (strftime_Ymd birthday_this_year)])
          else Ok acc) = Ok acc).
  { intros o Ho. unfold Spec.within_week, Spec.days_until.
    change (Spec.day_number ?x) with (toordinal x).
    change (sub_days o today) with (toordinal o - toordinal today).
    destruct ((0 <=? toordinal o - toordinal today)
              && (toordinal o - toordinal today <=? 7)); [|reflexivity].
    unfold Spec.weekend_shift.
    pose proof (toordinal_bounds o Ho) as Hb.
    destruct (weekend_before_max o Ho) as [H5 H6].
    destruct (Z.eqb_spec (weekday o) 5) as [E5|E5]; cbn [orb].
    - destruct (add_days_ok o 2 Ho ltac:(specialize (H5 E5); lia))
        as (c & -> & Hc1 & Hc2). exists c. cbn [bind]. auto.
    - destruct (Z.eqb_spec (weekday o) 6) as [E6|E6].
      + destruct (add_days_ok o 1 Ho ltac:(specialize (H6 E6); lia))
          as (c & -> & Hc1 & Hc2). exists c. cbn [bind]. auto.
      + exists o. cbn [bind]. repeat split; [assumption|lia]. }
  destruct (toordinal (mkdate (year today) (month bd) (day bd)) <? toordinal today).
  - cbn [year month day].
    destruct (date_new_cases (year today + 1) (month bd) (day bd))
      as [(Hc' & -> & Hv')|(Hc' & msg & ->)]; cbn [bind].
    + apply andb_prop in Hc' as [Hc1 Hc2]. rewrite Hc1. cbn [year].
      rewrite Hc2. apply Hfin, Hv'.
    + destruct (Spec.calendar_day (year today + 1) (month bd) (day bd));
        [|eauto].
      cbn [andb year] in *. rewrite Hc'. eauto.
  - cbn [year]. rewrite Hy. apply Hfin, Hv.
Qed.

Lemma range_check_sound f fuel : forall r0 r,
  Cycle.range_check f fuel r0 = true ->
  r0 <= r < r0 + Z.of_nat fuel -> f r = true.
Proof.
  induction fuel as [|n IH]; intros r0 r H Hr.
  - lia.
  - cbn [Cycle.range_check] in H. apply andb_prop in H as [H1 H2].
    destruct (Z.eq_dec r r0) as [->|Hne]; [exact H1|].
    apply (IH (r0 + 1)); [exact H2|lia].
Qed.

Lemma years_checked :
  Cycle.range_check Cycle.year_text_ok (Z.to_nat 9999) 1 = true.
Proof. vm_compute. reflexivity. Qed.

Lemma two_digits_checked :
  Cycle.range_check Cycle.two_digits_ok (Z.to_nat 31) 1 = true.
Proof. vm_compute. reflexivity. Qed.

Lemma cut_at_dot a r :
  Spec.no_dot a = true -> Spec.cut (a ++ String "." r) = (a, Some r).
Proof.
  induction a as [|c a IH]; cbn [append Spec.cut Spec.no_dot str.all].
  - intros _. reflexivity.
  - intros H. apply andb_prop in H as [Hc Ha].
    destruct (Ascii.eqb c "."); [discriminate|].
    fold (Spec.no_dot a) in Ha. rewrite (IH Ha). reflexivity.
Qed.

Lemma string_length_append (a b : string) :
  String.length (a ++ b) = (String.length a + String.length b)%nat.
Proof. induction a as [|c a IH]; cbn; [reflexivity|]. rewrite IH. reflexivity. Qed.

(** The text that [strftime_Ymd] gives for a date reads as that date. *)
Lemma strftime_reads c :
  valid c = true ->
  Spec.date_of_text (strftime_Ymd c) = Some c
  /\ (1000 <= year c -> String.length (strftime_Ymd c) = 10%nat).
Proof.
  intros Hv. apply valid_iff in Hv as (Hy & Hm & Hd).
  pose proof (days_in_month_bounds (year c) (month c) Hm) as Hb.
  assert (Yk : Cycle.year_text_ok (year c) = true)
    by (apply (range_check_sound _ _ _ _ years_checked); lia).
  assert (Mk : Cycle.two_digits_ok (month c) = true)
    by (apply (range_check_sound _ _ _ _ two_digits_checked); lia).
  assert (Dk : Cycle.two_digits_ok (day c) = true)
    by (apply (range_check_sound _ _ _ _ two_digits_checked); lia).
  unfold Cycle.year_text_ok, Cycle.two_digits_ok in Yk, Mk, Dk.
  apply andb_prop in Yk as [Yk Y4]. apply andb_prop in Yk as [Yn Ydot].
  apply andb_prop in Mk as [Mn Mdot]. apply andb_prop in Dk as [Dn Ddot].
  destruct (Spec.number (decimal (year c))) as [y|] eqn:Ey; [|discriminate].
  destruct (Spec.number (zero_padded 2 (month c))) as [m|] eqn:Em; [|discriminate].
  destruct (Spec.number (zero_padded 2 (day c))) as [d|] eqn:Ed; [|discriminate].
  apply Z.eqb_eq in Yn, Mn, Dn. subst y m d.
  assert (L2 : forall n, String.length (zero_padded 2 n) = 2%nat) by reflexivity.
  unfold strftime_Ymd, Spec.date_of_text.
  change ("." ++ zero_padded 2 (month c) ++ "." ++ zero_padded 2 (day c))%string
    with (String "." (zero_padded 2 (month c) ++ String "." (zero_padded 2 (day c)))).
  rewrite (cut_at_dot _ _ Ydot), (cut_at_dot _ _ Mdot), !L2.
  cbn [Nat.eqb andb]. rewrite Ey, Em, Ed. split; [destruct c; reflexivity|].
  intros H1000. rewrite string_length_append. cbn [String.length].
  rewrite string_length_append. cbn [String.length]. rewrite !L2.
  apply orb_prop in Y4 as [Hlt|H4]; [apply Z.ltb_lt in Hlt; lia|].
  apply Nat.eqb_eq in H4. rewrite H4. reflexivity.
Qed.

Lemma visit_total today acc r :
  valid today = true -> Spec.has_occurrence today r = true ->
  exists l, visit today acc r = Ok l.
Proof.
  intros Ht Hr. pose proof (visit_spec today acc r Ht) as H.
  unfold Spec.has_occurrence in Hr.
  destruct (Record_.birthday r) as [b|]; [|eauto].
  destruct (Spec.occurrence today (Birthday.date_value b)) as [o|];
    [|discriminate].
  rewrite Hr in H.
  destruct (Spec.within_week today o); [destruct H as (c & _ & _ & ->)|]; eauto.
Qed.

Lemma visit_ok today acc r l :
  valid today = true -> visit today acc r = Ok l ->
  Spec.has_occurrence today r = true
  /\ if Spec.upcoming today r
     then exists e, Spec.congratulates today e r /\ l = acc ++ [e]
     else l = acc.
Proof.
  intros Ht Hl. pose proof (visit_spec today acc r Ht) as H.
  unfold Spec.has_occurrence, Spec.upcoming, Spec.congratulates.
  destruct (Record_.birthday r) as [b|]; [|split; congruence].
  destruct (Spec.occurrence today (Birthday.date_value b)) as [o|] eqn:Ho;
    [|destruct H as [e H]; congruence].
  destruct (year o <=? MAXYEAR); [|destruct H as [e H]; congruence].
  split; [reflexivity|].
  destruct (Spec.within_week today o); [|congruence].
  destruct H as (c & Hc1 & Hc2 & Hc3).
  exists (mkentry (Record_.name r) (strftime_Ymd c)).
  split; [|congruence]. exists b, o, c.
  destruct (strftime_reads c Hc1) as [Hread Hlen].
  cbn [entry_name congratulation_date]. repeat split; assumption.
Qed.

Lemma loop_ok today records :
  valid today = true ->
  forall acc l,
    loop today records acc = Ok l ->
    forallb (Spec.has_occurrence today) records = true
    /\ exists l',
         l = acc ++ l'
         /\ Forall2 (Spec.congratulates today) l'
                    (filter (Spec.upcoming today) records).
Proof.
  intros Ht. induction records as [|r rest IH]; intros acc l Hl.
  - cbn in *. injection Hl as <-. split; [reflexivity|].
    exists []. rewrite app_nil_r. auto.
  - cbn [loop] in Hl.
    destruct (visit today acc r) as [acc'|e] eqn:Hv; cbn [bind] in Hl;
      [|discriminate].
    destruct (visit_ok _ _ _ _ Ht Hv) as [Hr Hu].
    destruct (IH _ _ Hl) as (Hrest & l' & -> & HF).
    cbn [forallb filter]. rewrite Hr, Hrest. split; [reflexivity|].
    destruct (Spec.upcoming today r).
    + destruct Hu as (e & He & ->). exists (e :: l').
      rewrite <- app_assoc. split; [reflexivity|]. constructor; assumption.
    + subst acc'. eauto.
Qed.

Lemma loop_total today records :
  valid today = true ->
  forallb (Spec.has_occurrence today) records = true ->
  forall acc, exists l, loop today records acc = Ok l.
Proof.
  intros Ht. induction records as [|r rest IH]; intros Hall acc.
  - cbn. eauto.
  - cbn [forallb] in Hall. apply andb_prop in Hall as [Hr Hrest].
    destruct (visit_total today acc r Ht Hr) as [acc' Hv].
    cbn [loop]. rewrite Hv. cbn [bind]. apply IH, Hrest.
Qed.

Lemma visit_outcome today acc r :
  valid today = true ->
  (exists l, visit today acc r = Ok l)
  \/ (exists msg, visit today acc r = Raise (ValueError msg)).
Proof.
  intros Ht. pose proof (visit_spec today acc r Ht) as H.
  destruct (Record_.birthday r) as [b|]; [|eauto].
  destruct (Spec.occurrence today (Birthday.date_value b)) as [o|]; [|eauto].
  destruct (year o <=? MAXYEAR); [|eauto].
  destruct (Spec.within_week today o); [destruct H as (c & _ & _ & ->)|]; eauto.
Qed.

Lemma loop_raises today records r :
  valid today = true ->
  In r records ->
  (forall acc, exists msg, visit today acc r = Raise (ValueError msg)) ->
  forall acc, exists msg, loop today records acc = Raise (ValueError msg).
Proof.
  intros Ht Hin Hr. induction records as [|x rest IH]; intros acc;
    [contradiction|].
  cbn [loop].
  destruct (visit_outcome today acc x Ht) as [[acc' Hv]|[msg Hv]];
    rewrite Hv; cbn [bind]; [|eauto].
  destruct Hin as [->|Hin]; [|apply IH, Hin].
  destruct (Hr acc) as [msg He]. congruence.
Qed.

Lemma congratulates_name today e r :
  Spec.congratulates today e r -> entry_name e = Record_.name r.
Proof. intros (b & o & c & _ & _ & _ & _ & H & _). exact H. Qed.

Lemma congratulates_names today l rs :
  Forall2 (Spec.congratulates today) l rs ->
  map entry_name l = map Record_.name rs.
Proof.
  induction 1 as [|e r l1 l2 He _ IH]; [reflexivity|].
  cbn [map]. rewrite (congratulates_name _ _ _ He), IH. reflexivity.
Qed.

Lemma leap_day_no_occurrence today bd :
  Spec.leap_day bd = true ->
  _is_leap (year today) = false
  \/ Spec.day_number (mkdate (year today) 2 29) < Spec.day_number today ->
  Spec.occurrence today bd = None.
Proof.
  unfold Spec.leap_day. intros Hb Hcase.
  apply andb_prop in Hb as [Hm Hd]. apply Z.eqb_eq in Hm, Hd.
  unfold Spec.occurrence, Spec.occurrence_in, Spec.calendar_day, _days_in_month.
  rewrite Hm, Hd. cbn [Z.eqb Pos.eqb andb Z.leb Z.compare Pos.compare
                        Pos.compare_cont].
  destruct (is_leap_cases (year today)) as [(Hl & H4 & _)|(Hl & _)];
    rewrite Hl; cbn [_DAYS_IN_MONTH Z.leb Z.compare Pos.compare
                     Pos.compare_cont andb];
    [|rewrite andb_false_r; reflexivity].
  destruct (1 <=? year today); cbn [andb]; [|reflexivity].
  destruct Hcase as [Hc|Hc]; [congruence|].
  apply Z.ltb_lt in Hc. rewrite Hc.
  assert (Hn : _is_leap (year today + 1) = false).
  { destruct (is_leap_cases (year today + 1)) as [(_ & H4' & _)|(Hl' & _)];
      [|assumption].
    exfalso. Z.div_mod_to_equations. lia. }
  rewrite Hn. cbn [_DAYS_IN_MONTH Z.leb Z.compare Pos.compare
                   Pos.compare_cont]. rewrite andb_false_r. reflexivity.
Qed.

End UpcomingFacts.

(* ================================================================== *)
(** * Upcoming birthdays: the claims *)

Section UpcomingClaims.

Import datetime AddressBook.

(** C1.  The computation is not total on birthdays of February 29: when the
    book holds a record whose birthday is a 29th of February, and the year
    of [today] is not a leap year, or it is one and the 29th of February has
    passed (so that the next, common year is looked at),
    [get_upcoming_birthdays] raises [ValueError] instead of returning a
    list. *)
Theorem leap_day_birthday_raises today book r b :
  valid today = true ->
  In r (dict.values book) ->
  Record_.birthday r = Some b ->
  Spec.leap_day (Birthday.date_value b) = true ->
  _is_leap (year today) = false
  \/ Spec.day_number (mkdate (year today) 2 29) < Spec.day_number today ->
  exists msg, get_upcoming_birthdays today book = Raise (ValueError msg).
Proof.
  intros Ht Hin Hb Hleap Hcase. unfold get_upcoming_birthdays.
  apply (loop_raises today _ r Ht Hin). intros acc.
  pose proof (visit_spec today acc r Ht) as H. rewrite Hb in H.
  rewrite (leap_day_no_occurrence _ _ Hleap Hcase) in H. exact H.
Qed.

Lemma leap_day_birthday_raises_witness :
  let b := Birthday.mk "29.02.2024" (mkdate 2024 2 29) in
  Birthday.__init__ "29.02.2024" = Ok b
  /\ exists msg,
       get_upcoming_birthdays (mkdate 2025 1 1)
         [("Ann", Record_.mk "Ann" [] (Some b))]
       = Raise (ValueError msg).
Proof.
  split; [reflexivity|].
  apply (leap_day_birthday_raises (mkdate 2025 1 1)
           [("Ann", Record_.mk "Ann" [] (Some (Birthday.mk "29.02.2024" (mkdate 2024 2 29))))]
           (Record_.mk "Ann" [] (Some (Birthday.mk "29.02.2024" (mkdate 2024 2 29))))
           (Birthday.mk "29.02.2024" (mkdate 2024 2 29)));
    [reflexivity | left; reflexivity | reflexivity | reflexivity
    | left; reflexivity].
Defined.

(** The same on 2024-03-01: the occurrence of 2024 has passed, and 2025 has
    no 29th of February.  One such record makes the call fail for the
    whole book. *)
Example leap_day_rolled_forward :
  let b := Birthday.mk "29.02.2024" (mkdate 2024 2 29) in
  let c := Birthday.mk "02.03.1990" (mkdate 1990 3 2) in
  (exists msg,
     get_upcoming_birthdays (mkdate 2024 3 1)
       [("Ann", Record_.mk "Ann" [] (Some b))]
     = Raise (ValueError msg))
  /\ get_upcoming_birthdays (mkdate 2024 3 1)
       [("Cid", Record_.mk "Cid" [] (Some c))]
     = Ok [mkentry "Cid" "2024.03.04"]
  /\ exists msg,
       get_upcoming_birthdays (mkdate 2024 3 1)
         [("Cid", Record_.mk "Cid" [] (Some c));
          ("Ann", Record_.mk "Ann" [] (Some b))]
       = Raise (ValueError msg).
Proof.
  repeat split; try reflexivity; eexists; reflexivity.
Qed.

(** C2, as stated, fails: on 9999-12-28 a birthday of January 1 has its
    next occurrence four days later, within the week, but the year 10000 is
    not a [date] and the call raises. *)
Lemma upcoming_window_counterexample :
  let today := mkdate 9999 12 28 in
  let b := Birthday.mk "01.01.2000" (mkdate 2000 1 1) in
  let r := Record_.mk "Ann" [] (Some b) in
  Birthday.__init__ "01.01.2000" = Ok b
  /\ valid today = true
  /\ Spec.occurrence today (Birthday.date_value b) = Some (mkdate 10000 1 1)
  /\ Spec.days_until today (mkdate 10000 1 1) = 4
  /\ Spec.upcoming today r = true
  /\ exists msg,
       get_upcoming_birthdays today [("Ann", r)] = Raise (ValueError msg).
Proof. repeat split; try reflexivity. eexists. reflexivity. Qed.

(** C2, amended.  When every birthday of the book has an occurrence for
    [today] that the [date] type can hold, [get_upcoming_birthdays] returns
    a list, and the records it includes are, in the order of the book,
    exactly those with a birthday whose occurrence [o] (this year's same
    month and day, next year's when that has passed) has
    [0 <= o - today <= 7] in whole days. *)
Theorem upcoming_window today book :
  valid today = true ->
  Spec.representable today book = true ->
  exists l,
    get_upcoming_birthdays today book = Ok l
    /\ map entry_name l
       = map Record_.name (filter (Spec.upcoming today) (dict.values book))
    /\ forall r b,
         In r (dict.values book) -> Record_.birthday r = Some b ->
         exists o,
           Spec.occurrence today (Birthday.date_value b) = Some o
           /\ (Spec.upcoming today r = true <-> 0 <= Spec.days_until today o <= 7).
Proof.
  intros Ht Hrep. unfold get_upcoming_birthdays, Spec.representable in *.
  destruct (loop_total today _ Ht Hrep []) as [l Hl].
  exists l. split; [exact Hl|]. split.
  - destruct (loop_ok today _ Ht _ _ Hl) as (_ & l' & -> & HF).
    cbn [app]. apply (congratulates_names _ _ _ HF).
  - intros r b Hin Hb.
    rewrite forallb_forall in Hrep. specialize (Hrep r Hin).
    unfold Spec.has_occurrence, Spec.upcoming in *. rewrite Hb in *.
    destruct (Spec.occurrence today (Birthday.date_value b)) as [o|];
      [|discriminate].
    exists o. split; [reflexivity|].
    unfold Spec.within_week. rewrite andb_true_iff, !Z.leb_le. reflexivity.
Qed.

Lemma upcoming_window_witness :
  let today := mkdate 2024 12 28 in
  let b := Birthday.mk "01.01.1990" (mkdate 1990 1 1) in
  let book := [("Ann", Record_.mk "Ann" [] (Some b))] in
  Spec.occurrence today (Birthday.date_value b) = Some (mkdate 2025 1 1)
  /\ get_upcoming_birthdays today book = Ok [mkentry "Ann" "2025.01.01"]
  /\ exists l,
       get_upcoming_birthdays today book = Ok l
       /\ map entry_name l
          = map Record_.name (filter (Spec.upcoming today) (dict.values book))
       /\ forall r b',
            In r (dict.values book) -> Record_.birthday r = Some b' ->
            exists o,
              Spec.occurrence today (Birthday.date_value b') = Some o
              /\ (Spec.upcoming today r = true
                  <-> 0 <= Spec.days_until today o <= 7).
Proof.
  split; [reflexivity|]. split; [reflexivity|].
  apply (upcoming_window (mkdate 2024 12 28)
           [("Ann", Record_.mk "Ann" []
                      (Some (Birthday.mk "01.01.1990" (mkdate 1990 1 1))))]);
    reflexivity.
Defined.

Example seven_days_out_included :
  get_upcoming_birthdays (mkdate 2024 6 10)
    [("Ann", Record_.mk "Ann" [] (Some (Birthday.mk "17.06.1990" (mkdate 1990 6 17))))]
  = Ok [mkentry "Ann" "2024.06.17"].
Proof. reflexivity. Qed.

Example eight_days_out_excluded :
  get_upcoming_birthdays (mkdate 2024 6 10)
    [("Ann", Record_.mk "Ann" [] (Some (Birthday.mk "18.06.1990" (mkdate 1990 6 18))))]
  = Ok [].
Proof. reflexivity. Qed.

(** C3.  Whenever [get_upcoming_birthdays] returns, its entries are, in
    order, one for each included record: the entry carries the record's name
    and a text that names, as year.month.day, the date that lies
    [Spec.weekend_shift] days after the occurrence of the birthday, that is
    2 days after a Saturday, 1 day after a Sunday and the occurrence itself
    on a weekday.  The text is read by [Spec.date_of_text], which takes the
    year with or without leading zeros; from the year 1000 on it has the ten
    characters of YYYY.MM.DD. *)
Theorem congratulation_date_shift today book l :
  valid today = true ->
  get_upcoming_birthdays today book = Ok l ->
  Forall2 (Spec.congratulates today) l
          (filter (Spec.upcoming today) (dict.values book)).
Proof.
  intros Ht Hl. unfold get_upcoming_birthdays in Hl.
  destruct (loop_ok today _ Ht _ _ Hl) as (_ & l' & -> & HF). exact HF.
Qed.

Lemma congratulation_date_shift_witness :
  let today := mkdate 2024 6 10 in
  let b := Birthday.mk "15.06.1990" (mkdate 1990 6 15) in
  let r := Record_.mk "Ann" [] (Some b) in
  Spec.occurrence today (Birthday.date_value b) = Some (mkdate 2024 6 15)
  /\ weekday (mkdate 2024 6 15) = 5
  /\ Spec.days_until today (mkdate 2024 6 15) = 5
  /\ get_upcoming_birthdays today [("Ann", r)] = Ok [mkentry "Ann" "2024.06.17"]
  /\ Forall2 (Spec.congratulates today) [mkentry "Ann" "2024.06.17"]
             (filter (Spec.upcoming today) (dict.values [("Ann", r)])).
Proof.
  repeat (split; [reflexivity|]).
  apply (congratulation_date_shift (mkdate 2024 6 10)
           [("Ann", Record_.mk "Ann" []
                      (Some (Birthday.mk "15.06.1990" (mkdate 1990 6 15))))]);
    reflexivity.
Defined.

End UpcomingClaims.

(** Before the year 1000 the text of the year has fewer than four digits;
    it names the same date as the text padded with zeros. *)
Example early_year_examples :
  datetime.strftime_Ymd (datetime.mkdate 999 1 7) = "999.01.07"
  /\ Spec.date_of_text "999.01.07" = Some (datetime.mkdate 999 1 7)
  /\ Spec.date_of_text "0999.01.07" = Some (datetime.mkdate 999 1 7)
  /\ Spec.date_of_text "999.1.07" = None
  /\ AddressBook.get_upcoming_birthdays (datetime.mkdate 999 1 5)
       [("Ann", Record_.mk "Ann" []
                  (Some (Birthday.mk "07.01.0990" (datetime.mkdate 990 1 7))))]
     = Ok [AddressBook.mkentry "Ann" "999.01.07"].
Proof. repeat split; reflexivity. Qed.

(* ================================================================== *)
(** * Phone numbers *)

Lemma all_decimal_isdigit s :
  str.all str.char_isdecimal s = true -> str.all str.char_isdigit s = true.
Proof.
  induction s as [|c r IH]; [reflexivity|]. cbn [str.all].
  intros H. apply andb_prop in H as [Hc Hr].
  rewrite (IH Hr), andb_true_r.
  unfold str.char_isdigit. unfold str.char_isdecimal in Hc. cbv zeta in *.
  rewrite Hc. reflexivity.
Qed.

(** C4, as stated, fails: ten superscript twos (U+00B2) are no decimal
    digits, and [Phone] takes them. *)
Lemma phone_validation_counterexample :
  let two := "178"%char in
  let s := String two (String two (String two (String two (String two
           (String two (String two (String two (String two (String two
            EmptyString))))))))) in
  str.len s = 10
  /\ Spec.has_non_decimal s = true
  /\ Phone.__init__ s = Ok (Phone.mk s).
Proof. repeat split; reflexivity. Qed.

(** C4, amended.  [Phone] fails with [ValueError] when the text has a
    length other than 10 or a character that [str.isdigit] does not take,
    and it keeps the text as it is when the text has exactly 10 characters
    that [str.isdigit] takes; the decimal digits 0-9 are among them. *)
Theorem phone_validation s :
  (str.len s <> 10 \/ str.all str.char_isdigit s = false ->
   Phone.__init__ s = Raise (ValueError "Phone number must be a string of 10 digits."))
  /\ (str.len s = 10 /\ str.all str.char_isdigit s = true ->
      Phone.__init__ s = Ok (Phone.mk s))
  /\ (str.len s = 10 /\ Spec.has_non_decimal s = false ->
      Phone.__init__ s = Ok (Phone.mk s)).
Proof.
  assert (Hok : str.len s = 10 /\ str.all str.char_isdigit s = true ->
                Phone.__init__ s = Ok (Phone.mk s)).
  { intros [Hl Hd]. unfold Phone.__init__, str.isdigit.
    destruct s as [|c r]; [discriminate|].
    rewrite Hd, Hl. reflexivity. }
  split; [|split; [exact Hok|]].
  - intros H. unfold Phone.__init__, str.isdigit.
    destruct s as [|c r]; [reflexivity|].
    destruct H as [Hl|Hd].
    + apply Z.eqb_neq in Hl. rewrite Hl, orb_true_r. reflexivity.
    + rewrite Hd. reflexivity.
  - intros [Hl Hd]. apply Hok. split; [exact Hl|].
    apply all_decimal_isdigit. unfold Spec.has_non_decimal in Hd.
    destruct (str.all str.char_isdecimal s); [reflexivity|discriminate].
Qed.

(* ================================================================== *)
(** * Birthdays: the texts [strptime] takes *)

Ltac known_codes :=
  repeat match goal with
    | H : context [str.code (Ascii ?a ?b ?c ?d ?e ?f ?g ?h)] |- _ =>
        let v := eval vm_compute in (str.code (Ascii a b c d e f g h)) in
        change (str.code (Ascii a b c d e f g h)) with v in H
    | |- context [str.code (Ascii ?a ?b ?c ?d ?e ?f ?g ?h)] =>
        let v := eval vm_compute in (str.code (Ascii a b c d e f g h)) in
        change (str.code (Ascii a b c d e f g h)) with v
    end.

Section RegexFacts.

Import re.

Lemma one_in ok s m r :
  In (m, r) (one ok s)
  <-> exists c, ok c = true /\ m = String c EmptyString /\ s = String c r.
Proof.
  unfold one. destruct s as [|c s'].
  - split; [contradiction|]. intros (c & _ & _ & H). discriminate.
  - destruct (ok c) eqn:Hc.
    + split.
      * intros [[= <- <-]|[]]. eauto.
      * intros (c' & Hc' & -> & [= -> ->]). left. reflexivity.
    + split; [contradiction|]. intros (c' & Hc' & _ & [= -> _]). congruence.
Qed.

Lemma append_assoc (a b c : string) :
  ((a ++ b) ++ c = a ++ (b ++ c))%string.
Proof. induction a as [|x a IH]; cbn; [reflexivity|]. rewrite IH. reflexivity. Qed.

Lemma matches_lang p : forall s m r,
  In (m, r) (matches p s) <-> lang p m /\ s = (m ++ r)%string.
Proof.
  induction p as [c|lo hi| |p IHp q IHq|p IHp q IHq]; intros s m r; cbn [matches].
  - rewrite one_in. split.
    + intros (c' & Hc & -> & ->). apply Ascii.eqb_eq in Hc as <-.
      split; [constructor|reflexivity].
    + intros [H ->]. inversion H; subst. exists c.
      rewrite Ascii.eqb_refl. auto.
  - rewrite one_in. split.
    + intros (c' & Hc & -> & ->).
      apply andb_prop in Hc as [H1 H2]. apply Z.leb_le in H1, H2.
      split; [constructor; lia|reflexivity].
    + intros [H ->]. inversion H; subst. exists c. split; [|auto].
      apply andb_true_iff. rewrite !Z.leb_le. lia.
  - rewrite one_in. split.
    + intros (c' & Hc & -> & ->). split; [constructor; assumption|reflexivity].
    + intros [H ->]. inversion H; subst. eauto.
  - rewrite in_flat_map. split.
    + intros ([m1 r1] & H1 & H2). apply in_map_iff in H2 as ([m2 r2] & [= <- <-] & H2).
      cbn [fst snd] in *.
      apply IHp in H1 as [L1 ->]. apply IHq in H2 as [L2 ->].
      split; [constructor; assumption|]. symmetry. apply append_assoc.
    + intros [H ->]. inversion H; subst.
      exists (a, (b ++ r)%string). split.
      * apply IHp. split; [assumption|]. apply append_assoc.
      * apply in_map_iff. exists (b, r). split; [reflexivity|].
        apply IHq. auto.
  - rewrite in_app_iff, IHp, IHq. split.
    + intros [[H ->]|[H ->]]; split; try reflexivity;
        [apply lang_or_l|apply lang_or_r]; assumption.
    + intros [H ->]. inversion H; subst; [left|right]; auto.
Qed.

Lemma code_inj a b : str.code a = str.code b -> a = b.
Proof.
  unfold str.code. intros H. apply N2Z.inj in H.
  rewrite <- (ascii_N_embedding a), <- (ascii_N_embedding b), H. reflexivity.
Qed.

Lemma digit_decimal c v : Spec.digit c v -> str.char_isdecimal c = true.
Proof.
  intros [H1 H2]. unfold str.char_isdecimal. cbv zeta.
  apply andb_true_iff. rewrite !Z.leb_le. lia.
Qed.

Lemma decimal_digit c :
  str.char_isdecimal c = true -> Spec.digit c (str.code c - 48).
Proof.
  unfold str.char_isdecimal, Spec.digit. cbv zeta.
  rewrite andb_true_iff, !Z.leb_le. lia.
Qed.

Lemma digit_not_blank c v : Spec.digit c v -> Ascii.eqb c " " = false.
Proof.
  intros [H1 H2]. apply Ascii.eqb_neq. intros ->.
  change (str.code " ") with 32 in H1. lia.
Qed.

Lemma digit_not_dot c v : Spec.digit c v -> Ascii.eqb c "." = false.
Proof.
  intros [H1 H2]. apply Ascii.eqb_neq. intros ->.
  change (str.code ".") with 46 in H1. lia.
Qed.

Lemma lang_lit_inv c s : lang (Lit c) s -> s = String c EmptyString.
Proof. inversion 1; reflexivity. Qed.

Lemma lang_range_inv lo hi s :
  lang (Range lo hi) s ->
  exists c, s = String c EmptyString /\ str.code lo <= str.code c <= str.code hi.
Proof. inversion 1; subst; eauto. Qed.

Lemma lang_digit_inv s :
  lang Digit s -> exists c, s = String c EmptyString /\ str.char_isdecimal c = true.
Proof. inversion 1; subst; eauto. Qed.

Lemma lang_cat_inv p q s :
  lang (Cat p q) s -> exists a b, s = (a ++ b)%string /\ lang p a /\ lang q b.
Proof. inversion 1; subst; eauto. Qed.

Lemma lang_or_inv p q s : lang (Or p q) s -> lang p s \/ lang q s.
Proof. inversion 1; subst; auto. Qed.

Lemma lang_day dt : lang _strptime.re_d dt -> exists d, Spec.day_text dt d.
Proof.
  unfold _strptime.re_d. intros H.
  apply lang_or_inv in H as [H|H];
    [|apply lang_or_inv in H as [H|H];
      [|apply lang_or_inv in H as [H|H]; [|apply lang_or_inv in H as [H|H]]]].
  - apply lang_cat_inv in H as (a & b & -> & Ha & Hb).
    apply lang_lit_inv in Ha as ->.
    apply lang_range_inv in Hb as (c & -> & Hc). known_codes. cbn [append].
    exists (10 * 3 + (str.code c - 48)).
    apply Spec.day_two; [split; [reflexivity|lia]|unfold Spec.digit; lia|lia].
  - apply lang_cat_inv in H as (a & b & -> & Ha & Hb).
    apply lang_range_inv in Ha as (c & -> & Hc).
    apply lang_digit_inv in Hb as (c' & -> & Hc').
    apply decimal_digit in Hc'. pose proof Hc' as [_ ?].
    known_codes. cbn [append].
    exists (10 * (str.code c - 48) + (str.code c' - 48)).
    apply Spec.day_two; [unfold Spec.digit; lia|assumption|lia].
  - apply lang_cat_inv in H as (a & b & -> & Ha & Hb).
    apply lang_lit_inv in Ha as ->.
    apply lang_range_inv in Hb as (c & -> & Hc). known_codes. cbn [append].
    exists (10 * 0 + (str.code c - 48)).
    apply Spec.day_two; [split; [reflexivity|lia]|unfold Spec.digit; lia|lia].
  - apply lang_range_inv in H as (c & -> & Hc). known_codes.
    exists (str.code c - 48). apply Spec.day_one; [unfold Spec.digit|]; lia.
  - apply lang_cat_inv in H as (a & b & -> & Ha & Hb).
    apply lang_lit_inv in Ha as ->.
    apply lang_range_inv in Hb as (c & -> & Hc). known_codes. cbn [append].
    exists (str.code c - 48). apply Spec.day_blank; [unfold Spec.digit|]; lia.
Qed.

Lemma lang_month mt : lang _strptime.re_m mt -> exists m, Spec.month_text mt m.
Proof.
  unfold _strptime.re_m. intros H.
  apply lang_or_inv in H as [H|H]; [|apply lang_or_inv in H as [H|H]].
  - apply lang_cat_inv in H as (a & b & -> & Ha & Hb).
    apply lang_lit_inv in Ha as ->.
    apply lang_range_inv in Hb as (c & -> & Hc). known_codes. cbn [append].
    exists (10 * 1 + (str.code c - 48)).
    apply Spec.month_two; [split; [reflexivity|lia]|unfold Spec.digit; lia|lia].
  - apply lang_cat_inv in H as (a & b & -> & Ha & Hb).
    apply lang_lit_inv in Ha as ->.
    apply lang_range_inv in Hb as (c & -> & Hc). known_codes. cbn [append].
    exists (10 * 0 + (str.code c - 48)).
    apply Spec.month_two; [split; [reflexivity|lia]|unfold Spec.digit; lia|lia].
  - apply lang_range_inv in H as (c & -> & Hc). known_codes.
    exists (str.code c - 48). apply Spec.month_one; [unfold Spec.digit|]; lia.
Qed.

Lemma lang_year yt : lang _strptime.re_Y yt -> exists y, Spec.year_text yt y.
Proof.
  unfold _strptime.re_Y. intros H.
  apply lang_cat_inv in H as (a1 & r1 & -> & H1 & H).
  apply lang_cat_inv in H as (a2 & r2 & -> & H2 & H).
  apply lang_cat_inv in H as (a3 & a4 & -> & H3 & H4).
  apply lang_digit_inv in H1 as (c1 & -> & D1), H2 as (c2 & -> & D2),
    H3 as (c3 & -> & D3), H4 as (c4 & -> & D4).
  cbn [append]. eexists. apply Spec.year_four; apply decimal_digit; assumption.
Qed.

Lemma digit_range c v lo hi :
  Spec.digit c v -> str.code lo <= 48 + v <= str.code hi ->
  lang (Range lo hi) (String c EmptyString).
Proof. intros [H1 H2] H. constructor. lia. Qed.

Lemma digit_lit c v k :
  Spec.digit c v -> 48 + v = str.code k -> lang (Lit k) (String c EmptyString).
Proof.
  intros [H1 H2] H. assert (c = k) as -> by (apply code_inj; lia). constructor.
Qed.

Lemma day_lang dt d : Spec.day_text dt d -> lang _strptime.re_d dt.
Proof.
  unfold _strptime.re_d.
  intros [a b x y Ha Hb Hr|b y Hb Hy|b y Hb Hy].
  - pose proof Ha as [_ ?]. pose proof Hb as [_ ?].
    change (String a (String b EmptyString))
      with (String a EmptyString ++ String b EmptyString)%string.
    assert (Hx : x = 3 \/ (1 <= x <= 2) \/ x = 0) by lia.
    destruct Hx as [->|[Hx| ->]].
    + apply lang_or_l, lang_cat;
        [eapply digit_lit; [eassumption|reflexivity]
        |eapply digit_range; [eassumption|known_codes; lia]].
    + apply lang_or_r, lang_or_l, lang_cat;
        [eapply digit_range; [eassumption|known_codes; lia]
        |constructor; eapply digit_decimal; eassumption].
    + apply lang_or_r, lang_or_r, lang_or_l, lang_cat;
        [eapply digit_lit; [eassumption|reflexivity]
        |eapply digit_range; [eassumption|known_codes; lia]].
  - apply lang_or_r, lang_or_r, lang_or_r, lang_or_l.
    pose proof Hb as [_ ?].
    eapply digit_range; [eassumption|known_codes; lia].
  - apply lang_or_r, lang_or_r, lang_or_r, lang_or_r.
    pose proof Hb as [_ ?].
    change (String " " (String b EmptyString))
      with (String " " EmptyString ++ String b EmptyString)%string.
    apply lang_cat; [constructor|].
    eapply digit_range; [eassumption|known_codes; lia].
Qed.

Lemma month_lang mt m : Spec.month_text mt m -> lang _strptime.re_m mt.
Proof.
  unfold _strptime.re_m.
  intros [a b x y Ha Hb Hr|b y Hb Hy].
  - pose proof Ha as [_ ?]. pose proof Hb as [_ ?].
    change (String a (String b EmptyString))
      with (String a EmptyString ++ String b EmptyString)%string.
    assert (Hx : x = 1 \/ x = 0) by lia.
    destruct Hx as [->| ->].
    + apply lang_or_l, lang_cat;
        [eapply digit_lit; [eassumption|reflexivity]
        |eapply digit_range; [eassumption|known_codes; lia]].
    + apply lang_or_r, lang_or_l, lang_cat;
        [eapply digit_lit; [eassumption|reflexivity]
        |eapply digit_range; [eassumption|known_codes; lia]].
  - apply lang_or_r, lang_or_r. pose proof Hb as [_ ?].
    eapply digit_range; [eassumption|known_codes; lia].
Qed.

Lemma year_lang yt y : Spec.year_text yt y -> lang _strptime.re_Y yt.
Proof.
  unfold _strptime.re_Y. intros [a b c d w x y' z Ha Hb Hc Hd].
  change (String a (String b (String c (String d EmptyString))))
    with (String a EmptyString
          ++ (String b EmptyString
              ++ (String c EmptyString ++ String d EmptyString)))%string.
  repeat apply lang_cat; constructor; eapply digit_decimal; eassumption.
Qed.

Lemma int_digits_digit c v r acc :
  Spec.digit c v ->
  _strptime.int_digits (String c r) acc = _strptime.int_digits r (10 * acc + v).
Proof.
  intros H. cbn [_strptime.int_digits]. rewrite (digit_decimal _ _ H).
  destruct H as [-> _]. f_equal. lia.
Qed.

Lemma int_digit_first c v r :
  Spec.digit c v ->
  _strptime.int (String c r) = _strptime.int_digits r v.
Proof.
  intros H. cbn [_strptime.int]. rewrite (digit_not_blank _ _ H).
  rewrite (int_digits_digit _ _ _ _ H). reflexivity.
Qed.

Lemma day_int dt d : Spec.day_text dt d -> _strptime.int dt = Ok d.
Proof.
  intros [a b x y Ha Hb Hr|b y Hb Hy|b y Hb Hy].
  - rewrite (int_digit_first _ _ _ Ha), (int_digits_digit _ _ _ _ Hb). reflexivity.
  - rewrite (int_digit_first _ _ _ Hb). reflexivity.
  - change (_strptime.int (String " " (String b EmptyString)))
      with (_strptime.int (String b EmptyString)).
    rewrite (int_digit_first _ _ _ Hb). reflexivity.
Qed.

Lemma month_int mt m : Spec.month_text mt m -> _strptime.int mt = Ok m.
Proof.
  intros [a b x y Ha Hb Hr|b y Hb Hy].
  - rewrite (int_digit_first _ _ _ Ha), (int_digits_digit _ _ _ _ Hb). reflexivity.
  - rewrite (int_digit_first _ _ _ Hb). reflexivity.
Qed.

Lemma year_int yt y : Spec.year_text yt y -> _strptime.int yt = Ok y.
Proof.
  intros [a b c d w x y' z Ha Hb Hc Hd].
  rewrite (int_digit_first _ _ _ Ha), (int_digits_digit _ _ _ _ Hb),
    (int_digits_digit _ _ _ _ Hc), (int_digits_digit _ _ _ _ Hd).
  cbn [_strptime.int_digits]. f_equal. lia.
Qed.

Lemma day_no_dot dt d : Spec.day_text dt d -> Spec.no_dot dt = true.
Proof.
  intros [a b x y Ha Hb Hr|b y Hb Hy|b y Hb Hy]; cbn [Spec.no_dot str.all];
    rewrite ?(digit_not_dot _ _ Ha), ?(digit_not_dot _ _ Hb); reflexivity.
Qed.

Lemma month_no_dot mt m : Spec.month_text mt m -> Spec.no_dot mt = true.
Proof.
  intros [a b x y Ha Hb Hr|b y Hb Hy]; cbn [Spec.no_dot str.all];
    rewrite ?(digit_not_dot _ _ Ha), ?(digit_not_dot _ _ Hb); reflexivity.
Qed.

Lemma split_at_dot a : forall a' x x',
  Spec.no_dot a = true -> Spec.no_dot a' = true ->
  (a ++ String "." x)%string = (a' ++ String "." x')%string ->
  a = a' /\ x = x'.
Proof.
  induction a as [|c a IH]; intros [|c' a'] x x' Ha Ha' H; cbn in H.
  - injection H as ->. auto.
  - injection H as <- _. cbn in Ha'. discriminate.
  - injection H as -> _. cbn in Ha. discriminate.
  - injection H as -> H. cbn [Spec.no_dot str.all] in Ha, Ha'.
    apply andb_prop in Ha as [_ Ha], Ha' as [_ Ha'].
    destruct (IH _ _ _ Ha Ha' H) as [-> ->]. auto.
Qed.

Lemma year_split yt y yt' y' r r' :
  Spec.year_text yt y -> Spec.year_text yt' y' ->
  (yt ++ r)%string = (yt' ++ r')%string -> yt = yt' /\ r = r'.
Proof.
  intros [a b c d w x y0 z _ _ _ _] [a' b' c' d' w' x' y0' z' _ _ _ _] H.
  cbn in H. injection H as -> -> -> -> ->. auto.
Qed.

Lemma append_nil_r (s : string) : (s ++ "")%string = s.
Proof. induction s as [|c s IH]; cbn; [reflexivity|]. rewrite IH. reflexivity. Qed.

Lemma found_iff t dt mt yt rest :
  In (dt, mt, yt, rest) (_strptime.found t)
  <-> lang _strptime.re_d dt /\ lang _strptime.re_m mt /\ lang _strptime.re_Y yt
      /\ t = (dt ++ "." ++ mt ++ "." ++ yt ++ rest)%string.
Proof.
  unfold _strptime.found. rewrite in_flat_map. split.
  - intros ([d r1] & Hd & H). apply matches_lang in Hd as [Ld ->].
    apply in_flat_map in H as ([p1 r2] & Hp1 & H).
    apply matches_lang in Hp1 as [Lp1 Hr1]. apply lang_lit_inv in Lp1 as ->.
    apply in_flat_map in H as ([m r3] & Hm & H).
    apply matches_lang in Hm as [Lm Hr2].
    apply in_flat_map in H as ([p2 r4] & Hp2 & H).
    apply matches_lang in Hp2 as [Lp2 Hr3]. apply lang_lit_inv in Lp2 as ->.
    apply in_map_iff in H as ([y r5] & [= <- <- <- <-] & Hy).
    apply matches_lang in Hy as [Ly Hr4].
    cbn [fst snd] in *. subst. auto.
  - intros (Ld & Lm & Ly & ->).
    exists (dt, ("." ++ mt ++ "." ++ yt ++ rest)%string). split.
    { apply matches_lang. auto. }
    apply in_flat_map. exists (".", (mt ++ "." ++ yt ++ rest)%string). split.
    { apply matches_lang. split; [constructor|reflexivity]. }
    apply in_flat_map. exists (mt, ("." ++ yt ++ rest)%string). split.
    { apply matches_lang. auto. }
    apply in_flat_map. exists (".", (yt ++ rest)%string). split.
    { apply matches_lang. split; [constructor|reflexivity]. }
    apply in_map_iff. exists (yt, rest). split; [reflexivity|].
    apply matches_lang. auto.
Qed.

Lemma texts_unique dt mt yt rest dt' mt' yt' rest' d m y d' m' y' :
  Spec.day_text dt d -> Spec.month_text mt m -> Spec.year_text yt y ->
  Spec.day_text dt' d' -> Spec.month_text mt' m' -> Spec.year_text yt' y' ->
  (dt ++ "." ++ mt ++ "." ++ yt ++ rest)%string
  = (dt' ++ "." ++ mt' ++ "." ++ yt' ++ rest')%string ->
  dt = dt' /\ mt = mt' /\ yt = yt' /\ rest = rest'.
Proof.
  intros Hd Hm Hy Hd' Hm' Hy' H. cbn [append] in H.
  apply split_at_dot in H as [-> H];
    [|eapply day_no_dot; eassumption|eapply day_no_dot; eassumption].
  apply split_at_dot in H as [-> H];
    [|eapply month_no_dot; eassumption|eapply month_no_dot; eassumption].
  destruct (year_split _ _ _ _ _ _ Hy Hy' H) as [-> ->]. auto.
Qed.

Lemma strptime_ok t d : _strptime.strptime t = Ok d <-> Spec.date_text t d.
Proof.
  unfold _strptime.strptime, Spec.date_text. split.
  - destruct (_strptime.found t) as [|[[[dt mt] yt] rest] l] eqn:Hf;
      [discriminate|].
    assert (Hin : In (dt, mt, yt, rest) (_strptime.found t))
      by (rewrite Hf; left; reflexivity).
    apply found_iff in Hin as (Ld & Lm & Ly & Ht).
    destruct rest; cbn [str.truthy]; [|discriminate].
    apply lang_day in Ld as [d0 Hd]. apply lang_month in Lm as [m0 Hm].
    apply lang_year in Ly as [y0 Hy].
    rewrite (year_int _ _ Hy), (month_int _ _ Hm), (day_int _ _ Hd).
    cbn [bind]. intros H. apply date_new_ok in H as [-> Hv].
    exists dt, mt, yt. rewrite append_nil_r in Ht. cbn [datetime.year
      datetime.month datetime.day]. auto.
  - intros (dt & mt & yt & Ht & Hd & Hm & Hy & Hv).
    assert (Hin : In (dt, mt, yt, EmptyString) (_strptime.found t)).
    { apply found_iff. rewrite append_nil_r.
      repeat split;
        [eapply day_lang|eapply month_lang|eapply year_lang|]; eassumption. }
    destruct (_strptime.found t) as [|[[[dt' mt'] yt'] rest'] l] eqn:Hf;
      [contradiction|].
    assert (Hin' : In (dt', mt', yt', rest') (_strptime.found t))
      by (rewrite Hf; left; reflexivity).
    apply found_iff in Hin' as (Ld & Lm & Ly & Ht').
    apply lang_day in Ld as [d1 Hd']. apply lang_month in Lm as [m1 Hm'].
    apply lang_year in Ly as [y1 Hy'].
    assert (Heq : (dt ++ "." ++ mt ++ "." ++ yt ++ "")%string
                  = (dt' ++ "." ++ mt' ++ "." ++ yt' ++ rest')%string)
      by (rewrite append_nil_r; congruence).
    destruct (texts_unique _ _ _ _ _ _ _ _ _ _ _ _ _ _ Hd Hm Hy Hd' Hm' Hy' Heq)
      as (<- & <- & <- & <-).
    cbn [str.truthy].
    rewrite (year_int _ _ Hy), (month_int _ _ Hm), (day_int _ _ Hd).
    cbn [bind]. apply date_new_ok. destruct d. auto.
Qed.

Lemma int_digits_raises s : forall acc e,
  _strptime.int_digits s acc = Raise e -> exists msg, e = ValueError msg.
Proof.
  induction s as [|c r IH]; intros acc e; cbn [_strptime.int_digits];
    [discriminate|].
  destruct (str.char_isdecimal c); [apply IH|intros [= <-]; eauto].
Qed.

Lemma int_raises s e :
  _strptime.int s = Raise e -> exists msg, e = ValueError msg.
Proof.
  induction s as [|c r IH]; [intros [= <-]; eauto|].
  cbn [_strptime.int]. destruct (Ascii.eqb c " "); [exact IH|].
  apply int_digits_raises.
Qed.

Lemma date_new_raises y m d e :
  datetime.date_new y m d = Raise e -> exists msg, e = ValueError msg.
Proof.
  destruct (date_new_cases y m d) as [(_ & -> & _)|(_ & msg & ->)];
    [discriminate|intros [= <-]; eauto].
Qed.

Lemma strptime_raises t e :
  _strptime.strptime t = Raise e -> exists msg, e = ValueError msg.
Proof.
  unfold _strptime.strptime.
  destruct (_strptime.found t) as [|[[[dt mt] yt] rest] l];
    [intros [= <-]; eauto|].
  destruct (str.truthy rest); [intros [= <-]; eauto|].
  destruct (_strptime.int yt) as [y|e1] eqn:Hy; cbn [bind];
    [|intros [= <-]; eapply int_raises; eassumption].
  destruct (_strptime.int mt) as [m|e2] eqn:Hm; cbn [bind];
    [|intros [= <-]; eapply int_raises; eassumption].
  destruct (_strptime.int dt) as [d|e3] eqn:Hd; cbn [bind];
    [|intros [= <-]; eapply int_raises; eassumption].
  apply date_new_raises.
Qed.

Lemma strict_date_text t d : Spec.strict_date t = Some d -> Spec.date_text t d.
Proof.
  unfold Spec.strict_date, Spec.dd_mm_yyyy.
  pose proof (string_of_list_ascii_of_string t) as Ht.
  destruct (list_ascii_of_string t)
    as [|d1 [|d2 [|p1 [|m1 [|m2 [|p2 [|y1 [|y2 [|y3 [|y4 [|z l]]]]]]]]]]];
    try discriminate.
  destruct (forallb str.char_isdecimal [d1; d2; m1; m2; y1; y2; y3; y4]) eqn:Hall;
    [|discriminate].
  destruct (Ascii.eqb_spec p1 "."); [|discriminate].
  destruct (Ascii.eqb_spec p2 "."); [|discriminate]. subst p1 p2.
  cbn [andb]. cbv zeta.
  match goal with |- (if datetime.valid ?x then _ else _) = _ -> _ =>
    destruct (datetime.valid x) eqn:Hv end; [|discriminate].
  intros [= <-].
  cbn [forallb] in Hall. rewrite !andb_true_iff in Hall.
  destruct Hall as (D1 & D2 & M1 & M2 & Y1 & Y2 & Y3 & Y4 & _).
  apply decimal_digit in D1, D2, M1, M2, Y1, Y2, Y3, Y4.
  pose proof Hv as Hv'. apply valid_iff in Hv' as (_ & Hm & Hd).
  cbn [datetime.year datetime.month datetime.day] in *.
  match type of Hd with
  | _ <= _ <= datetime._days_in_month ?y ?m =>
      pose proof (days_in_month_bounds y m Hm) as Hb
  end.
  exists (String d1 (String d2 EmptyString)), (String m1 (String m2 EmptyString)),
    (String y1 (String y2 (String y3 (String y4 EmptyString)))).
  cbn [datetime.year datetime.month datetime.day].
  split; [symmetry; exact Ht|]. unfold Spec.digit_value in *.
  split; [apply Spec.day_two; [assumption|assumption|lia]|].
  split; [apply Spec.month_two; [assumption|assumption|lia]|].
  split; [apply Spec.year_four; assumption|exact Hv].
Qed.

(** On the texts of code points below 256, [Birthday] succeeds exactly on
    the texts day.month.year that [strptime] takes for '%d.%m.%Y' (the day
    as two digits, one digit, or a blank and one digit; the month as two
    digits or one; the year as four digits) and that name a real date; it
    then keeps the parsed date and the text.  On every other text it raises
    [ValueError]. *)
Lemma birthday_validation_latin1 t :
  (forall b,
     Birthday.__init__ t = Ok b
     <-> exists d, Spec.date_text t d /\ b = Birthday.mk t d)
  /\ (Birthday.__init__ t = Raise (ValueError "Invalid date format. Use DD.MM.YYYY")
      <-> ~ exists d, Spec.date_text t d)
  /\ (forall d,
        Spec.strict_date t = Some d ->
        Birthday.__init__ t = Ok (Birthday.mk t d)).
Proof.
  assert (Hok : forall b,
    Birthday.__init__ t = Ok b
    <-> exists d, Spec.date_text t d /\ b = Birthday.mk t d).
  { intros b. unfold Birthday.__init__. split.
    - destruct (_strptime.strptime t) as [d|e] eqn:Hs.
      + intros [= <-]. exists d. split; [apply strptime_ok, Hs|reflexivity].
      + destruct e; discriminate.
    - intros (d & Hd & ->). apply strptime_ok in Hd. rewrite Hd. reflexivity. }
  split; [exact Hok|]. split.
  - split.
    + intros Hr (d & Hd). specialize (proj2 (Hok (Birthday.mk t d))).
      intros H. rewrite H in Hr by eauto. discriminate.
    + intros Hn. unfold Birthday.__init__.
      destruct (_strptime.strptime t) as [d|e] eqn:Hs.
      * exfalso. apply Hn. exists d. apply strptime_ok, Hs.
      * destruct (strptime_raises _ _ Hs) as [msg ->]. reflexivity.
  - intros d Hd. apply Hok. exists d. split; [|reflexivity].
    apply strict_date_text, Hd.
Qed.

Example birthday_examples :
  Birthday.__init__ "31.02.2024"
  = Raise (ValueError "Invalid date format. Use DD.MM.YYYY")
  /\ Birthday.__init__ "29.02.2024"
     = Ok (Birthday.mk "29.02.2024" (datetime.mkdate 2024 2 29))
  /\ Birthday.__init__ "15.06.1990"
     = Ok (Birthday.mk "15.06.1990" (datetime.mkdate 1990 6 15))
  /\ Spec.strict_date "15.06.1990" = Some (datetime.mkdate 1990 6 15)
  /\ Spec.strict_date "31.02.2024" = None.
Proof. repeat split; reflexivity. Qed.

End RegexFacts.

(* ================================================================== *)
(** * Birthdays on texts of all code points *)

Section WideFacts.

Import re.

Variable zeros : list Z.
Hypothesis Htable : wide.table_ok zeros = true.

Lemma table_shape :
  exists rest, zeros = 48 :: rest /\ forallb (fun z => 255 <? z) rest = true.
Proof.
  generalize Htable. generalize zeros. intros [|z rest]; cbn [wide.table_ok];
    [discriminate|].
  intros H. apply andb_prop in H as [Hz Hr]. apply Z.eqb_eq in Hz. subst z.
  eauto.
Qed.

Lemma decimal_in_range zs c v : wide.decimal_in zs c = Some v -> 0 <= v <= 9.
Proof.
  induction zs as [|z rest IH]; cbn [wide.decimal_in]; [discriminate|].
  destruct ((z <=? c) && (c <=? z + 9)) eqn:E; [|exact IH].
  apply andb_prop in E as [E1 E2]. apply Z.leb_le in E1, E2.
  intros [= <-]. lia.
Qed.

Lemma decimal_in_high zs c :
  forallb (fun z => 255 <? z) zs = true -> c < 256 -> wide.decimal_in zs c = None.
Proof.
  induction zs as [|z rest IH]; cbn [wide.decimal_in forallb]; [reflexivity|].
  intros H Hc. apply andb_prop in H as [Hz Hr]. apply Z.ltb_lt in Hz.
  replace ((z <=? c) && (c <=? z + 9)) with false; [apply IH; assumption|].
  symmetry. apply andb_false_iff. left. apply Z.leb_gt. lia.
Qed.

Lemma decimal_ascii c v :
  WideSpec.ascii_digit c v -> wide.decimal_value zeros c = Some v.
Proof.
  intros [-> Hv]. destruct table_shape as (rest & -> & _).
  unfold wide.decimal_value. cbn [wide.decimal_in].
  replace ((48 <=? 48 + v) && (48 + v <=? 48 + 9)) with true.
  - f_equal. lia.
  - symmetry. apply andb_true_iff. rewrite !Z.leb_le. lia.
Qed.

Lemma decimal_low c v :
  c < 256 -> wide.decimal_value zeros c = Some v -> WideSpec.ascii_digit c v.
Proof.
  intros Hc. destruct table_shape as (rest & -> & Hrest).
  unfold wide.decimal_value. cbn [wide.decimal_in].
  destruct ((48 <=? c) && (c <=? 48 + 9)) eqn:E.
  - apply andb_prop in E as [E1 E2]. apply Z.leb_le in E1, E2.
    intros [= <-]. unfold WideSpec.ascii_digit. lia.
  - rewrite (decimal_in_high _ _ Hrest Hc). discriminate.
Qed.

Lemma decimal_value_range c v :
  wide.decimal_value zeros c = Some v -> 0 <= v <= 9.
Proof. apply decimal_in_range. Qed.

Lemma decimal_not_low c v k :
  wide.decimal_value zeros c = Some v -> k < 48 -> c <> k.
Proof.
  intros H Hk ->. apply decimal_low in H; [|lia]. destruct H. lia.
Qed.

Lemma one_in_wide ok s m r :
  In (m, r) (wide.one ok s)
  <-> exists c, ok c = true /\ m = [c] /\ s = c :: r.
Proof.
  unfold wide.one. destruct s as [|c s'].
  - split; [contradiction|]. intros (c & _ & _ & H). discriminate.
  - destruct (ok c) eqn:Hc.
    + split.
      * intros [[= <- <-]|[]]. eauto.
      * intros (c' & Hc' & -> & [= -> ->]). left. reflexivity.
    + split; [contradiction|]. intros (c' & Hc' & _ & [= -> _]). congruence.
Qed.

Lemma matches_lang_wide p : forall s m r,
  In (m, r) (wide.matches zeros p s) <-> wide.lang zeros p m /\ s = m ++ r.
Proof.
  induction p as [c|lo hi| |p IHp q IHq|p IHp q IHq]; intros s m r;
    cbn [wide.matches].
  - rewrite one_in_wide. split.
    + intros (c' & Hc & -> & ->). apply Z.eqb_eq in Hc as <-.
      split; [constructor|reflexivity].
    + intros [H ->]. inversion H; subst. exists (str.code c).
      rewrite Z.eqb_refl. auto.
  - rewrite one_in_wide. split.
    + intros (c' & Hc & -> & ->).
      apply andb_prop in Hc as [H1 H2]. apply Z.leb_le in H1, H2.
      split; [constructor; lia|reflexivity].
    + intros [H ->]. inversion H; subst. exists c. split; [|auto].
      apply andb_true_iff. rewrite !Z.leb_le. lia.
  - rewrite one_in_wide. split.
    + intros (c' & Hc & -> & ->). split; [constructor; assumption|reflexivity].
    + intros [H ->]. inversion H; subst. eauto.
  - rewrite in_flat_map. split.
    + intros ([m1 r1] & H1 & H2).
      apply in_map_iff in H2 as ([m2 r2] & [= <- <-] & H2).
      cbn [fst snd] in *.
      apply IHp in H1 as [L1 ->]. apply IHq in H2 as [L2 ->].
      split; [constructor; assumption|]. apply app_assoc.
    + intros [H ->]. inversion H; subst.
      exists (a, b ++ r). split.
      * apply IHp. split; [assumption|]. symmetry. apply app_assoc.
      * apply in_map_iff. exists (b, r). split; [reflexivity|].
        apply IHq. auto.
  - rewrite in_app_iff, IHp, IHq. split.
    + intros [[H ->]|[H ->]]; split; try reflexivity;
        [apply wide.lang_or_l|apply wide.lang_or_r]; assumption.
    + intros [H ->]. inversion H; subst; [left|right]; auto.
Qed.

Lemma wlang_lit_inv c s : wide.lang zeros (Lit c) s -> s = [str.code c].
Proof. inversion 1; reflexivity. Qed.

Lemma wlang_range_inv lo hi s :
  wide.lang zeros (Range lo hi) s ->
  exists c, s = [c] /\ str.code lo <= c <= str.code hi.
Proof. inversion 1; subst; eauto. Qed.

Lemma wlang_digit_inv s :
  wide.lang zeros Digit s -> exists c v, s = [c] /\ wide.decimal_value zeros c = Some v.
Proof.
  inversion 1 as [| |c Hc| | |]; subst. unfold wide.isdecimal in Hc.
  destruct (wide.decimal_value zeros c) as [v|] eqn:E; [eauto|discriminate].
Qed.

Lemma wlang_cat_inv p q s :
  wide.lang zeros (Cat p q) s ->
  exists a b, s = a ++ b /\ wide.lang zeros p a /\ wide.lang zeros q b.
Proof. inversion 1; subst; eauto. Qed.

Lemma wlang_or_inv p q s :
  wide.lang zeros (Or p q) s -> wide.lang zeros p s \/ wide.lang zeros q s.
Proof. inversion 1; subst; auto. Qed.

Lemma wlang_day dt :
  wide.lang zeros _strptime.re_d dt -> exists d, WideSpec.day_text zeros dt d.
Proof.
  unfold _strptime.re_d. intros H.
  apply wlang_or_inv in H as [H|H];
    [|apply wlang_or_inv in H as [H|H];
      [|apply wlang_or_inv in H as [H|H]; [|apply wlang_or_inv in H as [H|H]]]].
  - apply wlang_cat_inv in H as (a & b & -> & Ha & Hb).
    apply wlang_lit_inv in Ha as ->.
    apply wlang_range_inv in Hb as (c & -> & Hc). known_codes. cbn [app].
    exists (10 * 3 + (c - 48)).
    apply WideSpec.day_two; unfold WideSpec.ascii_digit; lia.
  - apply wlang_cat_inv in H as (a & b & -> & Ha & Hb).
    apply wlang_range_inv in Ha as (c & -> & Hc).
    apply wlang_digit_inv in Hb as (c' & v & -> & Hc').
    known_codes. cbn [app].
    exists (10 * (c - 48) + v).
    apply WideSpec.day_tens; [unfold WideSpec.ascii_digit; lia|lia|exact Hc'].
  - apply wlang_cat_inv in H as (a & b & -> & Ha & Hb).
    apply wlang_lit_inv in Ha as ->.
    apply wlang_range_inv in Hb as (c & -> & Hc). known_codes. cbn [app].
    exists (10 * 0 + (c - 48)).
    apply WideSpec.day_two; unfold WideSpec.ascii_digit; lia.
  - apply wlang_range_inv in H as (c & -> & Hc). known_codes.
    exists (c - 48). apply WideSpec.day_one; [unfold WideSpec.ascii_digit|]; lia.
  - apply wlang_cat_inv in H as (a & b & -> & Ha & Hb).
    apply wlang_lit_inv in Ha as ->.
    apply wlang_range_inv in Hb as (c & -> & Hc). known_codes. cbn [app].
    exists (c - 48). apply WideSpec.day_blank; [unfold WideSpec.ascii_digit|]; lia.
Qed.

Lemma wlang_month mt :
  wide.lang zeros _strptime.re_m mt -> exists m, WideSpec.month_text mt m.
Proof.
  unfold _strptime.re_m. intros H.
  apply wlang_or_inv in H as [H|H]; [|apply wlang_or_inv in H as [H|H]].
  - apply wlang_cat_inv in H as (a & b & -> & Ha & Hb).
    apply wlang_lit_inv in Ha as ->.
    apply wlang_range_inv in Hb as (c & -> & Hc). known_codes. cbn [app].
    exists (10 * 1 + (c - 48)).
    apply WideSpec.month_two; unfold WideSpec.ascii_digit; lia.
  - apply wlang_cat_inv in H as (a & b & -> & Ha & Hb).
    apply wlang_lit_inv in Ha as ->.
    apply wlang_range_inv in Hb as (c & -> & Hc). known_codes. cbn [app].
    exists (10 * 0 + (c - 48)).
    apply WideSpec.month_two; unfold WideSpec.ascii_digit; lia.
  - apply wlang_range_inv in H as (c & -> & Hc). known_codes.
    exists (c - 48). apply WideSpec.month_one; [unfold WideSpec.ascii_digit|]; lia.
Qed.

Lemma wlang_year yt :
  wide.lang zeros _strptime.re_Y yt -> exists y, WideSpec.year_text zeros yt y.
Proof.
  unfold _strptime.re_Y. intros H.
  apply wlang_cat_inv in H as (a1 & r1 & -> & H1 & H).
  apply wlang_cat_inv in H as (a2 & r2 & -> & H2 & H).
  apply wlang_cat_inv in H as (a3 & a4 & -> & H3 & H4).
  apply wlang_digit_inv in H1 as (c1 & v1 & -> & D1), H2 as (c2 & v2 & -> & D2),
    H3 as (c3 & v3 & -> & D3), H4 as (c4 & v4 & -> & D4).
  cbn [app]. eexists. apply WideSpec.year_four; eassumption.
Qed.

Lemma ascii_range c v lo hi :
  WideSpec.ascii_digit c v -> str.code lo <= 48 + v <= str.code hi ->
  wide.lang zeros (Range lo hi) [c].
Proof. intros [-> _] H. constructor. exact H. Qed.

Lemma ascii_lit c v k :
  WideSpec.ascii_digit c v -> 48 + v = str.code k -> wide.lang zeros (Lit k) [c].
Proof. intros [-> _] ->. constructor. Qed.

Lemma decimal_lang c v :
  wide.decimal_value zeros c = Some v -> wide.lang zeros Digit [c].
Proof. intros H. constructor. unfold wide.isdecimal. rewrite H. reflexivity. Qed.

Lemma wday_lang dt d :
  WideSpec.day_text zeros dt d -> wide.lang zeros _strptime.re_d dt.
Proof.
  unfold _strptime.re_d.
  intros [a b x y Ha Hx Hb|a b x y Ha Hb Hr|b y Hb Hy|b y Hb Hy].
  - change [a; b] with ([a] ++ [b]).
    apply wide.lang_or_r, wide.lang_or_l, wide.lang_cat;
      [eapply ascii_range; [eassumption|known_codes; lia]
      |eapply decimal_lang; eassumption].
  - pose proof Ha as [_ ?]. pose proof Hb as [_ ?].
    change [a; b] with ([a] ++ [b]).
    assert (Hx : x = 3 \/ (1 <= x <= 2) \/ x = 0) by lia.
    destruct Hx as [->|[Hx| ->]].
    + apply wide.lang_or_l, wide.lang_cat;
        [eapply ascii_lit; [eassumption|reflexivity]
        |eapply ascii_range; [eassumption|known_codes; lia]].
    + apply wide.lang_or_r, wide.lang_or_l, wide.lang_cat;
        [eapply ascii_range; [eassumption|known_codes; lia]
        |eapply decimal_lang, decimal_ascii; eassumption].
    + apply wide.lang_or_r, wide.lang_or_r, wide.lang_or_l, wide.lang_cat;
        [eapply ascii_lit; [eassumption|reflexivity]
        |eapply ascii_range; [eassumption|known_codes; lia]].
  - apply wide.lang_or_r, wide.lang_or_r, wide.lang_or_r, wide.lang_or_l.
    pose proof Hb as [_ ?].
    eapply ascii_range; [eassumption|known_codes; lia].
  - apply wide.lang_or_r, wide.lang_or_r, wide.lang_or_r, wide.lang_or_r.
    pose proof Hb as [_ ?].
    change [32; b] with ([str.code " "] ++ [b]).
    apply wide.lang_cat; [constructor|].
    eapply ascii_range; [eassumption|known_codes; lia].
Qed.

Lemma wmonth_lang mt m :
  WideSpec.month_text mt m -> wide.lang zeros _strptime.re_m mt.
Proof.
  unfold _strptime.re_m.
  intros [a b x y Ha Hb Hr|b y Hb Hy].
  - pose proof Ha as [_ ?]. pose proof Hb as [_ ?].
    change [a; b] with ([a] ++ [b]).
    assert (Hx : x = 1 \/ x = 0) by lia.
    destruct Hx as [->| ->].
    + apply wide.lang_or_l, wide.lang_cat;
        [eapply ascii_lit; [eassumption|reflexivity]
        |eapply ascii_range; [eassumption|known_codes; lia]].
    + apply wide.lang_or_r, wide.lang_or_l, wide.lang_cat;
        [eapply ascii_lit; [eassumption|reflexivity]
        |eapply ascii_range; [eassumption|known_codes; lia]].
  - apply wide.lang_or_r, wide.lang_or_r. pose proof Hb as [_ ?].
    eapply ascii_range; [eassumption|known_codes; lia].
Qed.

Lemma wyear_lang yt y :
  WideSpec.year_text zeros yt y -> wide.lang zeros _strptime.re_Y yt.
Proof.
  unfold _strptime.re_Y. intros [a b c d w x y' z Ha Hb Hc Hd].
  change [a; b; c; d] with ([a] ++ ([b] ++ ([c] ++ [d]))).
  repeat apply wide.lang_cat; eapply decimal_lang; eassumption.
Qed.

Lemma wint_digits_decimal c v r acc :
  wide.decimal_value zeros c = Some v ->
  wide.int_digits zeros (c :: r) acc = wide.int_digits zeros r (10 * acc + v).
Proof. intros H. cbn [wide.int_digits]. rewrite H. reflexivity. Qed.

Lemma wint_decimal_first c v r :
  wide.decimal_value zeros c = Some v ->
  wide.int zeros (c :: r) = wide.int_digits zeros r v.
Proof.
  intros H. cbn [wide.int].
  destruct (Z.eqb_spec c 32) as [E|_].
  - exfalso. eapply decimal_not_low; [exact H| |exact E]. lia.
  - rewrite (wint_digits_decimal _ _ _ _ H). reflexivity.
Qed.

Lemma wday_int dt d : WideSpec.day_text zeros dt d -> wide.int zeros dt = Ok d.
Proof.
  intros [a b x y Ha Hx Hb|a b x y Ha Hb Hr|b y Hb Hy|b y Hb Hy].
  - rewrite (wint_decimal_first _ _ _ (decimal_ascii _ _ Ha)),
      (wint_digits_decimal _ _ _ _ Hb). reflexivity.
  - rewrite (wint_decimal_first _ _ _ (decimal_ascii _ _ Ha)),
      (wint_digits_decimal _ _ _ _ (decimal_ascii _ _ Hb)). reflexivity.
  - rewrite (wint_decimal_first _ _ _ (decimal_ascii _ _ Hb)). reflexivity.
  - change (wide.int zeros [32; b]) with (wide.int zeros [b]).
    rewrite (wint_decimal_first _ _ _ (decimal_ascii _ _ Hb)). reflexivity.
Qed.

Lemma wmonth_int mt m : WideSpec.month_text mt m -> wide.int zeros mt = Ok m.
Proof.
  intros [a b x y Ha Hb Hr|b y Hb Hy].
  - rewrite (wint_decimal_first _ _ _ (decimal_ascii _ _ Ha)),
      (wint_digits_decimal _ _ _ _ (decimal_ascii _ _ Hb)). reflexivity.
  - rewrite (wint_decimal_first _ _ _ (decimal_ascii _ _ Hb)). reflexivity.
Qed.

Lemma wyear_int yt y : WideSpec.year_text zeros yt y -> wide.int zeros yt = Ok y.
Proof.
  intros [a b c d w x y' z Ha Hb Hc Hd].
  rewrite (wint_decimal_first _ _ _ Ha), (wint_digits_decimal _ _ _ _ Hb),
    (wint_digits_decimal _ _ _ _ Hc), (wint_digits_decimal _ _ _ _ Hd).
  cbn [wide.int_digits]. f_equal. lia.
Qed.

Lemma ascii_not_dot c v : WideSpec.ascii_digit c v -> c <> 46.
Proof. intros [-> ?]. lia. Qed.

Lemma decimal_not_dot c v : wide.decimal_value zeros c = Some v -> c <> 46.
Proof. intros H. eapply decimal_not_low; [exact H|lia]. Qed.

Lemma wday_no_dot dt d : WideSpec.day_text zeros dt d -> ~ In 46 dt.
Proof.
  intros [a b x y Ha Hx Hb|a b x y Ha Hb Hr|b y Hb Hy|b y Hb Hy] Hin;
    cbn [In] in Hin;
    repeat match goal with
      | H : _ \/ _ |- _ => destruct H as [H|H]
      | H : False |- _ => destruct H
      | H : WideSpec.ascii_digit ?c _, E : ?c = 46 |- _ =>
          exact (ascii_not_dot _ _ H E)
      | H : WideSpec.decimal _ ?c _, E : ?c = 46 |- _ =>
          exact (decimal_not_dot _ _ H E)
      | E : 32 = 46 |- _ => discriminate E
      end.
Qed.

Lemma wmonth_no_dot mt m : WideSpec.month_text mt m -> ~ In 46 mt.
Proof.
  intros [a b x y Ha Hb Hr|b y Hb Hy] Hin; cbn [In] in Hin;
    repeat match goal with
      | H : _ \/ _ |- _ => destruct H as [H|H]
      | H : False |- _ => destruct H
      | H : WideSpec.ascii_digit ?c _, E : ?c = 46 |- _ =>
          exact (ascii_not_dot _ _ H E)
      end.
Qed.

Lemma wsplit_at_dot (a : wide.text) : forall a' x x',
  ~ In 46 a -> ~ In 46 a' -> a ++ 46 :: x = a' ++ 46 :: x' -> a = a' /\ x = x'.
Proof.
  induction a as [|c a IH]; intros [|c' a'] x x' Ha Ha' H; cbn [app] in H.
  - injection H as ->. auto.
  - injection H as <- _. exfalso. apply Ha'. left. reflexivity.
  - injection H as -> _. exfalso. apply Ha. left. reflexivity.
  - injection H as -> H.
    destruct (IH a' x x') as [-> ->]; [| |exact H|auto].
    + intros Hin. apply Ha. right. exact Hin.
    + intros Hin. apply Ha'. right. exact Hin.
Qed.

Lemma wyear_split yt y yt' y' r r' :
  WideSpec.year_text zeros yt y -> WideSpec.year_text zeros yt' y' ->
  yt ++ r = yt' ++ r' -> yt = yt' /\ r = r'.
Proof.
  intros [a b c d w x y0 z _ _ _ _] [a' b' c' d' w' x' y0' z' _ _ _ _] H.
  cbn [app] in H. injection H as -> -> -> -> ->. auto.
Qed.

Lemma wfound_iff t dt mt yt rest :
  In (dt, mt, yt, rest) (wide.found zeros t)
  <-> wide.lang zeros _strptime.re_d dt /\ wide.lang zeros _strptime.re_m mt
      /\ wide.lang zeros _strptime.re_Y yt
      /\ t = dt ++ [46] ++ mt ++ [46] ++ yt ++ rest.
Proof.
  unfold wide.found. rewrite in_flat_map. split.
  - intros ([d r1] & Hd & H). apply matches_lang_wide in Hd as [Ld ->].
    apply in_flat_map in H as ([p1 r2] & Hp1 & H).
    apply matches_lang_wide in Hp1 as [Lp1 Hr1]. apply wlang_lit_inv in Lp1 as ->.
    apply in_flat_map in H as ([m r3] & Hm & H).
    apply matches_lang_wide in Hm as [Lm Hr2].
    apply in_flat_map in H as ([p2 r4] & Hp2 & H).
    apply matches_lang_wide in Hp2 as [Lp2 Hr3]. apply wlang_lit_inv in Lp2 as ->.
    apply in_map_iff in H as ([y r5] & [= <- <- <- <-] & Hy).
    apply matches_lang_wide in Hy as [Ly Hr4].
    cbn [fst snd] in *. change (str.code ".") with 46 in *. subst. auto.
  - intros (Ld & Lm & Ly & ->).
    exists (dt, [46] ++ mt ++ [46] ++ yt ++ rest). split.
    { apply matches_lang_wide. auto. }
    apply in_flat_map. exists ([46], mt ++ [46] ++ yt ++ rest). split.
    { apply matches_lang_wide. split; [exact (wide.lang_lit zeros ".")|reflexivity]. }
    apply in_flat_map. exists (mt, [46] ++ yt ++ rest). split.
    { apply matches_lang_wide. auto. }
    apply in_flat_map. exists ([46], yt ++ rest). split.
    { apply matches_lang_wide. split; [exact (wide.lang_lit zeros ".")|reflexivity]. }
    apply in_map_iff. exists (yt, rest). split; [reflexivity|].
    apply matches_lang_wide. auto.
Qed.

Lemma wtexts_unique dt mt yt rest dt' mt' yt' rest' d m y d' m' y' :
  WideSpec.day_text zeros dt d -> WideSpec.month_text mt m ->
  WideSpec.year_text zeros yt y ->
  WideSpec.day_text zeros dt' d' -> WideSpec.month_text mt' m' ->
  WideSpec.year_text zeros yt' y' ->
  dt ++ [46] ++ mt ++ [46] ++ yt ++ rest
  = dt' ++ [46] ++ mt' ++ [46] ++ yt' ++ rest' ->
  dt = dt' /\ mt = mt' /\ yt = yt' /\ rest = rest'.
Proof.
  intros Hd Hm Hy Hd' Hm' Hy' H. cbn [app] in H.
  apply wsplit_at_dot in H as [-> H];
    [|eapply wday_no_dot; eassumption|eapply wday_no_dot; eassumption].
  apply wsplit_at_dot in H as [-> H];
    [|eapply wmonth_no_dot; eassumption|eapply wmonth_no_dot; eassumption].
  destruct (wyear_split _ _ _ _ _ _ Hy Hy' H) as [-> ->]. auto.
Qed.

Lemma wstrptime_ok t d :
  wide.strptime zeros t = Ok d <-> WideSpec.date_text zeros t d.
Proof.
  unfold wide.strptime, WideSpec.date_text. split.
  - destruct (wide.found zeros t) as [|[[[dt mt] yt] rest] l] eqn:Hf;
      [discriminate|].
    assert (Hin : In (dt, mt, yt, rest) (wide.found zeros t))
      by (rewrite Hf; left; reflexivity).
    apply wfound_iff in Hin as (Ld & Lm & Ly & Ht).
    destruct rest; [|discriminate].
    apply wlang_day in Ld as [d0 Hd]. apply wlang_month in Lm as [m0 Hm].
    apply wlang_year in Ly as [y0 Hy].
    rewrite (wyear_int _ _ Hy), (wmonth_int _ _ Hm), (wday_int _ _ Hd).
    cbn [bind]. intros H. apply date_new_ok in H as [-> Hv].
    exists dt, mt, yt. rewrite app_nil_r in Ht. cbn [datetime.year
      datetime.month datetime.day]. auto.
  - intros (dt & mt & yt & Ht & Hd & Hm & Hy & Hv).
    assert (Hin : In (dt, mt, yt, []) (wide.found zeros t)).
    { apply wfound_iff. rewrite app_nil_r.
      repeat split;
        [eapply wday_lang|eapply wmonth_lang|eapply wyear_lang|]; eassumption. }
    destruct (wide.found zeros t) as [|[[[dt' mt'] yt'] rest'] l] eqn:Hf;
      [contradiction|].
    assert (Hin' : In (dt', mt', yt', rest') (wide.found zeros t))
      by (rewrite Hf; left; reflexivity).
    apply wfound_iff in Hin' as (Ld & Lm & Ly & Ht').
    apply wlang_day in Ld as [d1 Hd']. apply wlang_month in Lm as [m1 Hm'].
    apply wlang_year in Ly as [y1 Hy'].
    assert (Heq : dt ++ [46] ++ mt ++ [46] ++ yt ++ []
                  = dt' ++ [46] ++ mt' ++ [46] ++ yt' ++ rest')
      by (rewrite app_nil_r; congruence).
    destruct (wtexts_unique _ _ _ _ _ _ _ _ _ _ _ _ _ _ Hd Hm Hy Hd' Hm' Hy' Heq)
      as (<- & <- & <- & <-).
    rewrite (wyear_int _ _ Hy), (wmonth_int _ _ Hm), (wday_int _ _ Hd).
    cbn [bind]. apply date_new_ok. destruct d. auto.
Qed.

Lemma wint_digits_raises s : forall acc e,
  wide.int_digits zeros s acc = Raise e -> exists msg, e = ValueError msg.
Proof.
  induction s as [|c r IH]; intros acc e; cbn [wide.int_digits];
    [discriminate|].
  destruct (wide.decimal_value zeros c); [apply IH|intros [= <-]; eauto].
Qed.

Lemma wint_raises s e :
  wide.int zeros s = Raise e -> exists msg, e = ValueError msg.
Proof.
  induction s as [|c r IH]; [intros [= <-]; eauto|].
  cbn [wide.int]. destruct (c =? 32); [exact IH|].
  apply wint_digits_raises.
Qed.

Lemma wstrptime_raises t e :
  wide.strptime zeros t = Raise e -> exists msg, e = ValueError msg.
Proof.
  unfold wide.strptime.
  destruct (wide.found zeros t) as [|[[[dt mt] yt] rest] l];
    [intros [= <-]; eauto|].
  destruct rest; [|intros [= <-]; eauto].
  destruct (wide.int zeros yt) as [y|e1] eqn:Hy; cbn [bind];
    [|intros [= <-]; eapply wint_raises; eassumption].
  destruct (wide.int zeros mt) as [m|e2] eqn:Hm; cbn [bind];
    [|intros [= <-]; eapply wint_raises; eassumption].
  destruct (wide.int zeros dt) as [d|e3] eqn:Hd; cbn [bind];
    [|intros [= <-]; eapply wint_raises; eassumption].
  apply date_new_raises.
Qed.

Lemma is_ascii_digit_value c :
  WideSpec.is_ascii_digit c = true -> WideSpec.ascii_digit c (c - 48).
Proof.
  unfold WideSpec.is_ascii_digit, WideSpec.ascii_digit.
  rewrite andb_true_iff, !Z.leb_le. lia.
Qed.

Lemma wstrict_date_text t d :
  WideSpec.strict_date t = Some d -> WideSpec.date_text zeros t d.
Proof.
  unfold WideSpec.strict_date.
  destruct t as [|d1 [|d2 [|p1 [|m1 [|m2 [|p2 [|y1 [|y2 [|y3 [|y4 [|z l]]]]]]]]]]];
    try discriminate.
  unfold WideSpec.dd_mm_yyyy.
  destruct (forallb WideSpec.is_ascii_digit [d1; d2; m1; m2; y1; y2; y3; y4])
    eqn:Hall; [|discriminate].
  destruct (Z.eqb_spec p1 46); [|discriminate].
  destruct (Z.eqb_spec p2 46); [|discriminate]. subst p1 p2.
  cbn [andb]. cbv zeta.
  match goal with |- (if datetime.valid ?x then _ else _) = _ -> _ =>
    destruct (datetime.valid x) eqn:Hv end; [|discriminate].
  intros [= <-].
  cbn [forallb] in Hall. rewrite !andb_true_iff in Hall.
  destruct Hall as (D1 & D2 & M1 & M2 & Y1 & Y2 & Y3 & Y4 & _).
  apply is_ascii_digit_value in D1, D2, M1, M2, Y1, Y2, Y3, Y4.
  pose proof Hv as Hv'. apply valid_iff in Hv' as (_ & Hm & Hd).
  cbn [datetime.year datetime.month datetime.day] in *.
  match type of Hd with
  | _ <= _ <= datetime._days_in_month ?y ?m =>
      pose proof (days_in_month_bounds y m Hm) as Hb
  end.
  exists [d1; d2], [m1; m2], [y1; y2; y3; y4].
  cbn [datetime.year datetime.month datetime.day].
  split; [reflexivity|].
  split; [apply WideSpec.day_two; [assumption|assumption|lia]|].
  split; [apply WideSpec.month_two; [assumption|assumption|lia]|].
  split; [apply WideSpec.year_four; apply decimal_ascii; assumption|exact Hv].
Qed.

Lemma birthday_init_wide t b :
  wide.Birthday_init zeros t = Ok b
  <-> exists d, WideSpec.date_text zeros t d /\ b = wide.mk t d.
Proof.
  unfold wide.Birthday_init. split.
  - destruct (wide.strptime zeros t) as [d|e] eqn:Hs.
    + intros [= <-]. exists d. split; [apply wstrptime_ok, Hs|reflexivity].
    + destruct e; discriminate.
  - intros (d & Hd & ->). apply wstrptime_ok in Hd. rewrite Hd. reflexivity.
Qed.

Lemma birthday_init_wide_raises t :
  wide.Birthday_init zeros t = Raise (ValueError "Invalid date format. Use DD.MM.YYYY")
  <-> ~ exists d, WideSpec.date_text zeros t d.
Proof.
  split.
  - intros Hr (d & Hd).
    assert (H : wide.Birthday_init zeros t = Ok (wide.mk t d))
      by (apply birthday_init_wide; eauto).
    rewrite H in Hr. discriminate.
  - intros Hn. unfold wide.Birthday_init.
    destruct (wide.strptime zeros t) as [d|e] eqn:Hs.
    + exfalso. apply Hn. exists d. apply wstrptime_ok, Hs.
    + destruct (wstrptime_raises _ _ Hs) as [msg ->]. reflexivity.
Qed.

(** ** The texts of code points below 256 *)

Lemma codes_cons c s : wide.codes (String c s) = str.code c :: wide.codes s.
Proof. reflexivity. Qed.

Lemma codes_append a b :
  wide.codes (a ++ b)%string = wide.codes a ++ wide.codes b.
Proof.
  induction a as [|c a IH]; [reflexivity|].
  cbn [append]. rewrite !codes_cons, IH. reflexivity.
Qed.

Lemma code_below c : 0 <= str.code c < 256.
Proof.
  unfold str.code. pose proof (N_ascii_bounded c) as H. lia.
Qed.

Lemma isdecimal_code c : wide.isdecimal zeros (str.code c) = str.char_isdecimal c.
Proof.
  unfold wide.isdecimal, str.char_isdecimal. cbv zeta.
  destruct (wide.decimal_value zeros (str.code c)) as [v|] eqn:E.
  - apply decimal_low in E; [|apply code_below]. destruct E as [E Hv].
    symmetry. apply andb_true_iff. rewrite !Z.leb_le. lia.
  - destruct ((48 <=? str.code c) && (str.code c <=? 57)) eqn:E'; [|reflexivity].
    apply andb_prop in E' as [E1 E2]. apply Z.leb_le in E1, E2.
    rewrite (decimal_ascii (str.code c) (str.code c - 48)) in E;
      [discriminate|unfold WideSpec.ascii_digit; lia].
Qed.

Lemma decimal_value_code c :
  wide.decimal_value zeros (str.code c)
  = if str.char_isdecimal c then Some (str.code c - 48) else None.
Proof.
  pose proof (isdecimal_code c) as H. unfold wide.isdecimal in H.
  destruct (wide.decimal_value zeros (str.code c)) as [v|] eqn:E;
    rewrite <- H; [|reflexivity].
  apply decimal_low in E; [|apply code_below]. destruct E as [E _].
  f_equal. lia.
Qed.

Lemma one_codes ok ok' s :
  (forall c, ok' (str.code c) = ok c) ->
  wide.one ok' (wide.codes s)
  = map (fun mr => (wide.codes (fst mr), wide.codes (snd mr))) (re.one ok s).
Proof.
  intros H. destruct s as [|c r]; [reflexivity|].
  rewrite codes_cons. cbn [wide.one re.one]. rewrite H.
  destruct (ok c); reflexivity.
Qed.

Lemma flat_map_sim {A A' B B' : Type} (G : A -> A') (H : B -> B')
    (F : A' -> list B') (F' : A -> list B) (l : list A) :
  (forall x, F (G x) = map H (F' x)) ->
  flat_map F (map G l) = map H (flat_map F' l).
Proof.
  intros E. induction l as [|x l IH]; [reflexivity|].
  cbn [map flat_map]. rewrite map_app, E, IH. reflexivity.
Qed.

Lemma matches_codes p : forall s,
  wide.matches zeros p (wide.codes s)
  = map (fun mr => (wide.codes (fst mr), wide.codes (snd mr))) (re.matches p s).
Proof.
  induction p as [c|lo hi| |p IHp q IHq|p IHp q IHq]; intros s;
    cbn [wide.matches re.matches].
  - apply one_codes. intros c'.
    destruct (Ascii.eqb_spec c c') as [->|Hne]; [apply Z.eqb_refl|].
    apply Z.eqb_neq. intros E. apply Hne, code_inj, E.
  - apply one_codes. reflexivity.
  - apply one_codes, isdecimal_code.
  - rewrite IHp. apply flat_map_sim. intros [m1 r1]. cbn [fst snd].
    rewrite IHq, !map_map. apply map_ext. intros [m2 r2]. cbn [fst snd].
    rewrite codes_append. reflexivity.
  - rewrite IHp, IHq, map_app. reflexivity.
Qed.

Lemma found_codes t :
  wide.found zeros (wide.codes t)
  = map (fun g => (wide.codes (fst (fst (fst g))), wide.codes (snd (fst (fst g))),
                   wide.codes (snd (fst g)), wide.codes (snd g)))
        (_strptime.found t).
Proof.
  unfold wide.found, _strptime.found.
  rewrite matches_codes. apply flat_map_sim. intros [d r1]. cbn [fst snd].
  rewrite matches_codes. apply flat_map_sim. intros [p1 r2]. cbn [fst snd].
  rewrite matches_codes. apply flat_map_sim. intros [m r3]. cbn [fst snd].
  rewrite matches_codes. apply flat_map_sim. intros [p2 r4]. cbn [fst snd].
  rewrite matches_codes, !map_map. apply map_ext. intros [y r5]. reflexivity.
Qed.

Lemma int_digits_codes s : forall acc,
  wide.int_digits zeros (wide.codes s) acc = _strptime.int_digits s acc.
Proof.
  induction s as [|c r IH]; intros acc; [reflexivity|].
  rewrite codes_cons. cbn [wide.int_digits _strptime.int_digits].
  rewrite decimal_value_code. destruct (str.char_isdecimal c); [apply IH|reflexivity].
Qed.

Lemma int_codes s : wide.int zeros (wide.codes s) = _strptime.int s.
Proof.
  induction s as [|c r IH]; [reflexivity|].
  rewrite codes_cons. cbn [wide.int _strptime.int].
  destruct (Ascii.eqb_spec c " ") as [->|Hne].
  - exact IH.
  - destruct (Z.eqb_spec (str.code c) 32) as [E|_].
    + exfalso. apply Hne, code_inj, E.
    + rewrite <- codes_cons. apply int_digits_codes.
Qed.

(** On a text of code points below 256 the two models of [strptime] give
    the same result. *)
Lemma strptime_codes t :
  wide.strptime zeros (wide.codes t) = _strptime.strptime t.
Proof.
  unfold wide.strptime, _strptime.strptime. rewrite found_codes.
  destruct (_strptime.found t) as [|[[[d m] y] rest] l]; [reflexivity|].
  cbn [map fst snd]. destruct rest as [|c rest]; [|reflexivity].
  cbn [wide.codes list_ascii_of_string map str.truthy].
  rewrite !int_codes. reflexivity.
Qed.

(** [Birthday.__init__] on a text of code points below 256, in both
    models: the same date, or the same error. *)
Lemma birthday_init_codes t :
  wide.Birthday_init zeros (wide.codes t)
  = match Birthday.__init__ t with
    | Ok b => Ok (wide.mk (wide.codes (Birthday.value b)) (Birthday.date_value b))
    | Raise e => Raise e
    end.
Proof.
  unfold wide.Birthday_init, Birthday.__init__. rewrite strptime_codes.
  destruct (_strptime.strptime t) as [d|[]]; reflexivity.
Qed.

End WideFacts.

(** C5, as stated, fails: "1.2.2024" is not of the form DD.MM.YYYY, and
    [Birthday] takes it. *)
Lemma birthday_validation_counterexample :
  Spec.dd_mm_yyyy "1.2.2024" = false
  /\ Birthday.__init__ "1.2.2024"
     = Ok (Birthday.mk "1.2.2024" (datetime.mkdate 2024 2 1))
  /\ WideSpec.dd_mm_yyyy (wide.codes "1.2.2024") = false
  /\ wide.Birthday_init wide.unicode_14_zeros (wide.codes "1.2.2024")
     = Ok (wide.mk (wide.codes "1.2.2024") (datetime.mkdate 2024 2 1)).
Proof. repeat split; reflexivity. Qed.

(** C5, amended.  A text is a list of code points; [zeros] lists the digit
    zero of every script of decimal digits, 0-9 first and the others above
    code point 255.  [Birthday] succeeds exactly on the texts
    day.month.year that [strptime] takes for '%d.%m.%Y' and that name a
    real date of the years 1 to 9999: the day is 10 to 29 written as 1 or
    2 and a decimal digit of any script, or, in the digits 0-9, two digits
    from 01 to 31, one digit from 1 to 9, or a blank and one such digit;
    the month, in the digits 0-9, is two digits from 01 to 12 or one digit
    from 1 to 9; the year is four decimal digits of any scripts.  It then
    keeps the parsed date and the text.  On every other text it raises
    [ValueError] with the message of the class.  A text in the strict form
    DD.MM.YYYY, in the digits 0-9, that names a real date is among those
    taken. *)
Theorem birthday_validation zeros t :
  wide.table_ok zeros = true ->
  (forall b,
     wide.Birthday_init zeros t = Ok b
     <-> exists d, WideSpec.date_text zeros t d /\ b = wide.mk t d)
  /\ (wide.Birthday_init zeros t
      = Raise (ValueError "Invalid date format. Use DD.MM.YYYY")
      <-> ~ exists d, WideSpec.date_text zeros t d)
  /\ (forall d,
        WideSpec.strict_date t = Some d ->
        wide.Birthday_init zeros t = Ok (wide.mk t d)).
Proof.
  intros Htable. split; [|split].
  - intros b. apply birthday_init_wide, Htable.
  - apply birthday_init_wide_raises, Htable.
  - intros d Hd. apply (birthday_init_wide zeros Htable). exists d.
    split; [|reflexivity]. apply wstrict_date_text; assumption.
Qed.

Lemma birthday_validation_witness :
  wide.table_ok wide.unicode_14_zeros = true
  /\ exists d,
       WideSpec.date_text wide.unicode_14_zeros
         [49; 65301; 46; 48; 54; 46; 1633; 1641; 1641; 1632] d
       /\ wide.mk [49; 65301; 46; 48; 54; 46; 1633; 1641; 1641; 1632]
            (datetime.mkdate 1990 6 15)
          = wide.mk [49; 65301; 46; 48; 54; 46; 1633; 1641; 1641; 1632] d.
Proof.
  split; [reflexivity|].
  apply (proj1 (birthday_validation wide.unicode_14_zeros
                  [49; 65301; 46; 48; 54; 46; 1633; 1641; 1641; 1632] eq_refl)
           (wide.mk [49; 65301; 46; 48; 54; 46; 1633; 1641; 1641; 1632]
              (datetime.mkdate 1990 6 15))).
  reflexivity.
Defined.

(** With the digits of Unicode 14.0: the day 15 with a fullwidth five and
    the year 1990 in Arabic-Indic digits are taken; a day in two fullwidth
    digits, a month with a fullwidth digit and a year of three digits are
    not. *)
Example birthday_examples_wide :
  wide.Birthday_init wide.unicode_14_zeros
    [49; 65301; 46; 48; 54; 46; 1633; 1641; 1641; 1632]
  = Ok (wide.mk [49; 65301; 46; 48; 54; 46; 1633; 1641; 1641; 1632]
          (datetime.mkdate 1990 6 15))
  /\ wide.Birthday_init wide.unicode_14_zeros
       [65297; 65301; 46; 48; 54; 46; 49; 57; 57; 48]
     = Raise (ValueError "Invalid date format. Use DD.MM.YYYY")
  /\ wide.Birthday_init wide.unicode_14_zeros
       [49; 53; 46; 48; 65302; 46; 49; 57; 57; 48]
     = Raise (ValueError "Invalid date format. Use DD.MM.YYYY")
  /\ wide.Birthday_init wide.unicode_14_zeros
       [49; 53; 46; 48; 54; 46; 57; 57; 57]
     = Raise (ValueError "Invalid date format. Use DD.MM.YYYY").
Proof. repeat split; reflexivity. Qed.

(* ================================================================== *)
(** * Records *)

Section RecordFacts.

Import Record_.

Lemma phone_eta p : Phone.mk (Phone.value p) = p.
Proof. destruct p. reflexivity. Qed.

Lemma find_in_some ps number p :
  find_in ps number = Some p -> p = Phone.mk number /\ In p ps.
Proof.
  induction ps as [|x rest IH]; cbn [find_in]; [discriminate|].
  destruct (String.eqb_spec (Phone.value x) number) as [E|E].
  - intros [= <-]. rewrite <- E, phone_eta. split; [reflexivity|left; reflexivity].
  - intros H. destruct (IH H) as [-> Hin]. split; [reflexivity|right; exact Hin].
Qed.

Lemma find_in_none ps number :
  find_in ps number = None <-> ~ In (Phone.mk number) ps.
Proof.
  induction ps as [|x rest IH]; cbn [find_in In]; [tauto|].
  destruct (String.eqb_spec (Phone.value x) number) as [E|E].
  - split; [discriminate|]. intros H. exfalso. apply H. left.
    rewrite <- E. symmetry. apply phone_eta.
  - rewrite IH. split.
    + intros H [Hx|Hr]; [|tauto]. apply E. rewrite Hx. reflexivity.
    + tauto.
Qed.

Lemma find_in_present ps number :
  In (Phone.mk number) ps -> find_in ps number = Some (Phone.mk number).
Proof.
  intros Hin. destruct (find_in ps number) as [p|] eqn:Hf.
  - apply find_in_some in Hf as [-> _]. reflexivity.
  - apply find_in_none in Hf. contradiction.
Qed.

Lemma edit_loop_absent ps old_phone new_phone :
  ~ In (Phone.mk old_phone) ps ->
  edit_loop ps old_phone new_phone = (ps, Ok tt).
Proof.
  induction ps as [|p rest IH]; cbn [edit_loop In]; [reflexivity|].
  intros Hn. destruct (String.eqb_spec (Phone.value p) old_phone) as [E|E].
  - exfalso. apply Hn. left. rewrite <- E. symmetry. apply phone_eta.
  - rewrite IH by tauto. reflexivity.
Qed.

Lemma edit_loop_present ps old_phone new_phone :
  Phone.__init__ new_phone = Ok (Phone.mk new_phone) ->
  In (Phone.mk old_phone) ps ->
  exists i,
    nth_error ps i = Some (Phone.mk old_phone)
    /\ ~ In (Phone.mk old_phone) (firstn i ps)
    /\ edit_loop ps old_phone new_phone
       = (firstn i ps ++ Phone.mk new_phone :: skipn (S i) ps, Ok tt).
Proof.
  intros Hnew. induction ps as [|p rest IH]; cbn [In]; [contradiction|].
  intros Hin. cbn [edit_loop].
  destruct (String.eqb_spec (Phone.value p) old_phone) as [E|E].
  - exists O. rewrite Hnew. cbn. rewrite <- E, phone_eta. auto.
  - destruct Hin as [Hp|Hin]; [exfalso; apply E; rewrite Hp; reflexivity|].
    destruct (IH Hin) as (i & Hi & Hfirst & ->).
    exists (S i). cbn. split; [exact Hi|]. split; [|reflexivity].
    intros [Hp|Hr]; [apply E; rewrite Hp; reflexivity|contradiction].
Qed.

Lemma nth_error_replaced {A} (l : list A) i x j :
  (i < List.length l)%nat -> j <> i ->
  nth_error (firstn i l ++ x :: skipn (S i) l) j = nth_error l j.
Proof.
  revert i j. induction l as [|a l IH]; intros i j Hi Hj; cbn in Hi; [lia|].
  destruct i as [|i]; destruct j as [|j]; cbn; try reflexivity;
    try contradiction.
  apply IH; lia.
Qed.

Lemma length_replaced {A} (l : list A) i x :
  (i < List.length l)%nat ->
  List.length (firstn i l ++ x :: skipn (S i) l) = List.length l.
Proof.
  revert i. induction l as [|a l IH]; intros i Hi; cbn in Hi; [lia|].
  destruct i as [|i]; cbn; [reflexivity|]. rewrite IH by lia. reflexivity.
Qed.

Lemma nth_error_replaced_at {A} (l : list A) i x :
  (i < List.length l)%nat ->
  nth_error (firstn i l ++ x :: skipn (S i) l) i = Some x.
Proof.
  revert i. induction l as [|a l IH]; intros i Hi; cbn in Hi; [lia|].
  destruct i as [|i]; cbn; [reflexivity|]. apply IH. lia.
Qed.

(** C6, as stated, fails: a record may hold a number twice; [edit_phone]
    changes the first entry only, and [find_phone] still finds the old
    number. *)
Lemma edit_phone_counterexample :
  let r := mk "Ann" [Phone.mk "1111111111"; Phone.mk "1111111111"] None in
  let r' := mk "Ann" [Phone.mk "2222222222"; Phone.mk "1111111111"] None in
  Phone.__init__ "2222222222" = Ok (Phone.mk "2222222222")
  /\ edit_phone r "1111111111" "2222222222" = (r', Ok tt)
  /\ find_phone r' "1111111111" = Some (Phone.mk "1111111111").
Proof. repeat split; reflexivity. Qed.

(** C6, amended.  For a record that holds a phone equal to [old_phone] and a
    valid [new_phone], [edit_phone] raises nothing and replaces the first
    such entry, at index [i], in place: name, birthday and the length of
    the phone list stay, every other position keeps its entry, and
    [find_phone new_phone] returns the new number.  [find_phone old_phone]
    returns nothing afterwards exactly when [new_phone] differs from
    [old_phone] and no later entry equals [old_phone]. *)
Theorem edit_phone_replaces_first r old_phone new_phone :
  In (Phone.mk old_phone) (phones r) ->
  Phone.__init__ new_phone = Ok (Phone.mk new_phone) ->
  exists i,
    nth_error (phones r) i = Some (Phone.mk old_phone)
    /\ ~ In (Phone.mk old_phone) (firstn i (phones r))
    /\ snd (edit_phone r old_phone new_phone) = Ok tt
    /\ let r' := fst (edit_phone r old_phone new_phone) in
       name r' = name r
       /\ birthday r' = birthday r
       /\ List.length (phones r') = List.length (phones r)
       /\ nth_error (phones r') i = Some (Phone.mk new_phone)
       /\ (forall j, j <> i -> nth_error (phones r') j = nth_error (phones r) j)
       /\ find_phone r' new_phone = Some (Phone.mk new_phone)
       /\ (find_phone r' old_phone = None
           <-> new_phone <> old_phone
               /\ ~ In (Phone.mk old_phone) (skipn (S i) (phones r))).
Proof.
  intros Hin Hnew.
  destruct (edit_loop_present _ _ _ Hnew Hin) as (i & Hi & Hfirst & Hloop).
  assert (Hlt : (i < List.length (phones r))%nat)
    by (apply nth_error_Some; congruence).
  exists i. unfold edit_phone, find_phone. rewrite Hloop. cbn [fst snd].
  cbv zeta. cbn [set_phones name phones birthday].
  repeat split; try assumption.
  - apply length_replaced, Hlt.
  - apply nth_error_replaced_at, Hlt.
  - intros j Hj. apply nth_error_replaced; assumption.
  - apply find_in_present, in_or_app. right. left. reflexivity.
  - intros ->. rewrite find_in_none in H. apply H, in_or_app.
    right. left. reflexivity.
  - rewrite find_in_none in H. intros Hs. apply H, in_or_app.
    right. right. exact Hs.
  - intros [Hne Hlater]. apply find_in_none. intros Hx.
    apply in_app_or in Hx as [Hx|[Hx|Hx]]; [contradiction| |contradiction].
    injection Hx as Hx. contradiction.
Qed.

Lemma edit_phone_replaces_first_witness :
  let r := mk "Ann" [Phone.mk "0000000000"; Phone.mk "1111111111"] None in
  exists i,
    nth_error (phones r) i = Some (Phone.mk "1111111111")
    /\ ~ In (Phone.mk "1111111111") (firstn i (phones r))
    /\ snd (edit_phone r "1111111111" "2222222222") = Ok tt
    /\ let r' := fst (edit_phone r "1111111111" "2222222222") in
       name r' = name r
       /\ birthday r' = birthday r
       /\ List.length (phones r') = List.length (phones r)
       /\ nth_error (phones r') i = Some (Phone.mk "2222222222")
       /\ (forall j, j <> i -> nth_error (phones r') j = nth_error (phones r) j)
       /\ find_phone r' "2222222222" = Some (Phone.mk "2222222222")
       /\ (find_phone r' "1111111111" = None
           <-> "2222222222" <> "1111111111"
               /\ ~ In (Phone.mk "1111111111") (skipn (S i) (phones r))).
Proof.
  apply (edit_phone_replaces_first
           (mk "Ann" [Phone.mk "0000000000"; Phone.mk "1111111111"] None)
           "1111111111" "2222222222");
    [right; left; reflexivity | reflexivity].
Defined.

(** C7.  When no phone of the record equals [old_phone], [edit_phone]
    raises nothing and leaves the record as it is, whatever [new_phone]
    is. *)
Theorem edit_phone_absent r old_phone new_phone :
  ~ In (Phone.mk old_phone) (phones r) ->
  edit_phone r old_phone new_phone = (r, Ok tt).
Proof.
  intros Hn. unfold edit_phone. rewrite (edit_loop_absent _ _ _ Hn).
  destruct r. reflexivity.
Qed.

Lemma edit_phone_absent_witness :
  let r := mk "Ann" [Phone.mk "0000000000"] None in
  Phone.__init__ "not a number"
  = Raise (ValueError "Phone number must be a string of 10 digits.")
  /\ edit_phone r "1111111111" "not a number" = (r, Ok tt).
Proof.
  split; [reflexivity|].
  apply (edit_phone_absent (mk "Ann" [Phone.mk "0000000000"] None)
           "1111111111" "not a number").
  intros [H|[]]. discriminate H.
Defined.

(** C8.  On a record that has a birthday, [add_birthday] raises
    [ValueError] for every new value and leaves the record as it is; the
    other methods leave the birthday in place as well. *)
Theorem add_birthday_once r b0 b :
  birthday r = Some b0 ->
  add_birthday r b = (r, Raise (ValueError "Only one birthday allowed per record."))
  /\ (forall phone, birthday (fst (add_phone r phone)) = Some b0)
  /\ (forall phone, birthday (fst (remove_phone r phone)) = Some b0)
  /\ (forall old_phone new_phone,
        birthday (fst (edit_phone r old_phone new_phone)) = Some b0).
Proof.
  intros Hb. repeat split.
  - unfold add_birthday. rewrite Hb. reflexivity.
  - intros phone. unfold add_phone.
    destruct (Phone.__init__ phone); exact Hb.
  - intros phone. unfold remove_phone.
    destruct (remove_first (phones r) phone); exact Hb.
  - intros old_phone new_phone. unfold edit_phone.
    destruct (edit_loop (phones r) old_phone new_phone). exact Hb.
Qed.

Lemma add_birthday_once_witness :
  let b0 := Birthday.mk "15.06.1990" (datetime.mkdate 1990 6 15) in
  let b := Birthday.mk "01.01.2000" (datetime.mkdate 2000 1 1) in
  let r := mk "Ann" [] (Some b0) in
  add_birthday r b = (r, Raise (ValueError "Only one birthday allowed per record."))
  /\ (forall phone, birthday (fst (add_phone r phone)) = Some b0)
  /\ (forall phone, birthday (fst (remove_phone r phone)) = Some b0)
  /\ (forall old_phone new_phone,
        birthday (fst (edit_phone r old_phone new_phone)) = Some b0).
Proof.
  apply (add_birthday_once
           (mk "Ann" [] (Some (Birthday.mk "15.06.1990" (datetime.mkdate 1990 6 15))))
           (Birthday.mk "15.06.1990" (datetime.mkdate 1990 6 15))
           (Birthday.mk "01.01.2000" (datetime.mkdate 2000 1 1))).
  reflexivity.
Defined.

End RecordFacts.

(* ================================================================== *)
(** * The address book *)

Section BookFacts.

Import AddressBook.

Lemma dict_get_set_same {V} (d : dict.t V) k v : dict.get (dict.set d k v) k = Some v.
Proof.
  induction d as [|[k' v'] rest IH]; cbn [dict.set dict.get].
  - rewrite String.eqb_refl. reflexivity.
  - destruct (String.eqb_spec k' k) as [E|E]; cbn [dict.get].
    + rewrite String.eqb_refl. reflexivity.
    + destruct (String.eqb_spec k' k); [contradiction|exact IH].
Qed.

Lemma dict_get_set_other {V} (d : dict.t V) k v k0 :
  k0 <> k -> dict.get (dict.set d k v) k0 = dict.get d k0.
Proof.
  intros Hne. induction d as [|[k' v'] rest IH]; cbn [dict.set dict.get].
  - destruct (String.eqb_spec k k0); [congruence|reflexivity].
  - destruct (String.eqb_spec k' k) as [E|E]; cbn [dict.get].
    + subst k'. destruct (String.eqb_spec k k0); [congruence|reflexivity].
    + rewrite IH. reflexivity.
Qed.

Lemma dict_keys_set_present {V} (d : dict.t V) k v :
  In k (dict.keys d) -> dict.keys (dict.set d k v) = dict.keys d.
Proof.
  unfold dict.keys. induction d as [|[k' v'] rest IH]; cbn [dict.set map fst In];
    [contradiction|].
  intros Hin. destruct (String.eqb_spec k' k) as [E|E]; cbn [map fst].
  - congruence.
  - rewrite IH; [reflexivity|]. destruct Hin; [contradiction|assumption].
Qed.

Lemma dict_set_set {V} (d : dict.t V) k v v' :
  dict.set (dict.set d k v) k v' = dict.set d k v'.
Proof.
  induction d as [|[k0 v0] rest IH]; cbn [dict.set].
  - rewrite String.eqb_refl. reflexivity.
  - destruct (String.eqb_spec k0 k) as [E|E]; cbn [dict.set].
    + rewrite String.eqb_refl. reflexivity.
    + destruct (String.eqb_spec k0 k); [contradiction|]. rewrite IH. reflexivity.
Qed.

Lemma dict_get_in {V} (d : dict.t V) k v :
  NoDup (dict.keys d) -> In (k, v) d -> dict.get d k = Some v.
Proof.
  unfold dict.keys. induction d as [|[k' v'] rest IH]; cbn [map fst In dict.get];
    [contradiction|].
  intros Hnd Hin. inversion Hnd as [|? ? Hk Hrest]; subst.
  destruct Hin as [[= -> ->]|Hin].
  - rewrite String.eqb_refl. reflexivity.
  - destruct (String.eqb_spec k' k) as [E|E]; [|apply IH; assumption].
    subst k'. exfalso. apply Hk. apply in_map_iff. exists (k, v). auto.
Qed.

Lemma dict_in_set {V} (d : dict.t V) k v k0 v0 :
  NoDup (dict.keys d) ->
  In (k0, v0) (dict.set d k v) ->
  (k0 = k /\ v0 = v) \/ (k0 <> k /\ In (k0, v0) d).
Proof.
  unfold dict.keys. induction d as [|[k' v'] rest IH]; cbn [dict.set In map fst].
  - intros _ [[= <- <-]|[]]. auto.
  - intros Hnd. inversion Hnd as [|? ? Hk Hrest]; subst.
    destruct (String.eqb_spec k' k) as [E|E]; cbn [In].
    + subst k'. intros [[= <- <-]|Hin]; [auto|]. right. split; [|auto].
      intros ->. apply Hk, in_map_iff. exists (k, v0). auto.
    + intros [[= <- <-]|Hin]; [right; split; [exact E|auto]|].
      destruct (IH Hrest Hin) as [?|[? ?]]; auto.
Qed.

Lemma Forall_dict_set {V} (P : string * V -> Prop) (d : dict.t V) k v :
  Forall P d -> P (k, v) -> Forall P (dict.set d k v).
Proof.
  intros Hd Hkv. induction Hd as [|[k' v'] rest Hx Hrest IH]; cbn [dict.set].
  - auto.
  - destruct (String.eqb k' k); constructor; assumption.
Qed.

Lemma Forall_dict_del {V} (P : string * V -> Prop) (d : dict.t V) k :
  Forall P d -> Forall P (dict.del d k).
Proof.
  intros Hd. induction Hd as [|[k' v'] rest Hx Hrest IH]; cbn [dict.del].
  - constructor.
  - destruct (String.eqb k' k); [assumption|constructor; assumption].
Qed.

(** C9.  When the name of [r] is already a key of the book (a dict holds a
    key once), [add_record] puts [r] in the place of the record held under
    that name: [find] returns [r], the keys and every other entry stay, and
    every record the new book holds is [r] or was held under another name
    before.  Keys are the names of the records they hold: this is true of
    the empty book and stays true under [add_record] and [delete]. *)
Theorem add_record_overwrites book r :
  In (Record_.name r) (dict.keys book) ->
  NoDup (dict.keys book) ->
  let book' := add_record book r in
  find book' (Record_.name r) = Some r
  /\ dict.keys book' = dict.keys book
  /\ (forall k, k <> Record_.name r -> find book' k = find book k)
  /\ (forall r', In r' (dict.values book') ->
        r' = r \/ exists k, k <> Record_.name r /\ find book k = Some r')
  /\ Spec.keys_match empty
  /\ (Spec.keys_match book -> Spec.keys_match book')
  /\ (forall k, Spec.keys_match book -> Spec.keys_match (delete book k)).
Proof.
  intros Hin Hnd. cbv zeta. unfold add_record, find, delete, empty, Spec.keys_match.
  split; [apply dict_get_set_same|].
  split; [apply dict_keys_set_present, Hin|].
  split; [intros k Hk; apply dict_get_set_other, Hk|].
  split; [|split; [constructor|split]].
  - intros r' Hr'. unfold dict.values in Hr'.
    apply in_map_iff in Hr' as ([k0 v0] & <- & Hkv). cbn [snd].
    destruct (dict_in_set _ _ _ _ _ Hnd Hkv) as [[_ ->]|[Hne Hold]]; [auto|].
    right. exists k0. split; [exact Hne|]. apply dict_get_in; assumption.
  - intros Hm. apply Forall_dict_set; [exact Hm|reflexivity].
  - intros k Hm. apply Forall_dict_del, Hm.
Qed.

Lemma add_record_overwrites_witness :
  let old := Record_.mk "Ann" [Phone.mk "0000000000"]
               (Some (Birthday.mk "15.06.1990" (datetime.mkdate 1990 6 15))) in
  let bob := Record_.mk "Bob" [Phone.mk "1111111111"] None in
  let r := Record_.mk "Ann" [Phone.mk "2222222222"] None in
  let book := [("Ann", old); ("Bob", bob)] in
  add_record book r = [("Ann", r); ("Bob", bob)]
  /\ find (add_record book r) (Record_.name r) = Some r
  /\ dict.keys (add_record book r) = dict.keys book
  /\ (forall k, k <> Record_.name r -> find (add_record book r) k = find book k)
  /\ (forall r', In r' (dict.values (add_record book r)) ->
        r' = r \/ exists k, k <> Record_.name r /\ find book k = Some r')
  /\ Spec.keys_match empty
  /\ (Spec.keys_match book -> Spec.keys_match (add_record book r))
  /\ (forall k, Spec.keys_match book -> Spec.keys_match (delete book k)).
Proof.
  split; [reflexivity|].
  apply (add_record_overwrites
           [("Ann", Record_.mk "Ann" [Phone.mk "0000000000"]
                      (Some (Birthday.mk "15.06.1990" (datetime.mkdate 1990 6 15))));
            ("Bob", Record_.mk "Bob" [Phone.mk "1111111111"] None)]
           (Record_.mk "Ann" [Phone.mk "2222222222"] None)).
  - left. reflexivity.
  - constructor.
    + intros [H|[]]. discriminate H.
    + constructor; [intros []|constructor].
Defined.

(** C10, as stated, fails: the empty text is no valid phone number, and
    [add_contact] does not try it: it reports that the contact was added. *)
Lemma add_contact_counterexample :
  find empty "Bob" = None
  /\ Phone.__init__ ""
     = Raise (ValueError "Phone number must be a string of 10 digits.")
  /\ add_contact ["Bob"; ""] empty
     = ([("Bob", Record_.__init__ "Bob")], Ok "Contact added.").
Proof. repeat split; reflexivity. Qed.

(** C10, amended.  When [add_contact] gets a name that the book does not
    hold and a phone text that is not empty and that [Phone] refuses, it
    returns the message of the [ValueError], and the record it made, with no
    phone and no birthday, stays in the book under that name.  For the empty
    phone text, which [Phone] refuses too, nothing is validated: the record
    is put in the book without a phone and "Contact added." is returned. *)
Theorem add_contact_not_atomic name rest book :
  find book name = None ->
  (forall phone e,
     str.truthy phone = true ->
     Phone.__init__ phone = Raise e ->
     add_contact (name :: phone :: rest) book
     = (add_record book (Record_.__init__ name),
        Ok "Phone number must be a string of 10 digits."))
  /\ find (add_record book (Record_.__init__ name)) name
     = Some (Record_.mk name [] None)
  /\ Phone.__init__ ""
     = Raise (ValueError "Phone number must be a string of 10 digits.")
  /\ add_contact (name :: "" :: rest) book
     = (add_record book (Record_.__init__ name), Ok "Contact added.").
Proof.
  intros Hfind.
  split; [|split; [apply (dict_get_set_same book name (Record_.__init__ name))|
           split; [reflexivity|]]].
  - intros phone e Hphone Hraise.
    unfold add_contact, input_error, add_contact_func.
    rewrite Hfind, Hphone. unfold Record_.add_phone. rewrite Hraise.
    unfold add_record. cbn [Record_.name Record_.__init__].
    rewrite dict_set_set. cbn [bind].
    unfold Phone.__init__ in Hraise.
    destruct (negb (str.isdigit phone) || negb (str.len phone =? 10));
      [|discriminate].
    injection Hraise as <-. reflexivity.
  - unfold add_contact, input_error, add_contact_func.
    rewrite Hfind. reflexivity.
Qed.

Lemma add_contact_not_atomic_witness :
  add_contact ["Bob"; "12345"] empty
  = (add_record empty (Record_.__init__ "Bob"),
     Ok "Phone number must be a string of 10 digits.")
  /\ (forall phone e,
        str.truthy phone = true ->
        Phone.__init__ phone = Raise e ->
        add_contact ("Bob" :: phone :: []) empty
        = (add_record empty (Record_.__init__ "Bob"),
           Ok "Phone number must be a string of 10 digits."))
  /\ find (add_record empty (Record_.__init__ "Bob")) "Bob"
     = Some (Record_.mk "Bob" [] None)
  /\ Phone.__init__ ""
     = Raise (ValueError "Phone number must be a string of 10 digits.")
  /\ add_contact ("Bob" :: "" :: []) empty
     = (add_record empty (Record_.__init__ "Bob"), Ok "Contact added.").
Proof.
  split; [reflexivity|].
  apply (add_contact_not_atomic "Bob" [] empty). reflexivity.
Defined.

End BookFacts.

(* ================================================================== *)
(** * Reading a command line *)

Section InputFacts.

Import pystr.

Lemma truthy_append w c : str.truthy (w ++ String c EmptyString) = true.
Proof. destruct w; reflexivity. Qed.

Lemma append_empty_inv (a b : string) :
  (a ++ b)%string = EmptyString -> a = EmptyString /\ b = EmptyString.
Proof. destruct a; cbn; [auto|discriminate]. Qed.

Lemma all_append f a b :
  str.all f (a ++ b) = str.all f a && str.all f b.
Proof.
  induction a as [|c a IH]; cbn [append str.all]; [reflexivity|].
  rewrite IH, andb_assoc. reflexivity.
Qed.

Lemma truthy_word w : Inv.word w -> str.truthy w = true.
Proof. intros [Hne _]. destruct w; [contradiction|reflexivity]. Qed.

(** The words of [split_from] are words when the one being read has no
    blank. *)
Lemma split_from_words s : forall w,
  str.all (fun c => negb (isspace c)) w = true ->
  Forall Inv.word (split_from s w).
Proof.
  induction s as [|c r IH]; intros w Hw; cbn [split_from].
  - destruct w as [|x w']; cbn [str.truthy]; constructor; [|constructor].
    split; [discriminate|exact Hw].
  - destruct (isspace c) eqn:Hc.
    + destruct w as [|x w']; cbn [str.truthy]; [apply IH; reflexivity|].
      constructor; [split; [discriminate|exact Hw]|apply IH; reflexivity].
    + apply IH. rewrite all_append, Hw. cbn. rewrite Hc. reflexivity.
Qed.

Lemma split_from_nil s : forall w,
  split_from s w = [] <-> w = EmptyString /\ str.all isspace s = true.
Proof.
  induction s as [|c r IH]; intros w; cbn [split_from str.all].
  - destruct w; cbn [str.truthy]; split; try discriminate; auto.
    intros [H _]. discriminate.
  - destruct (isspace c); cbn [andb].
    + destruct w; cbn [str.truthy].
      * rewrite IH. tauto.
      * split; [discriminate|intros [H _]; discriminate].
    + rewrite IH. split; [|intros [_ H]; discriminate].
      intros [H _]. apply append_empty_inv in H as [_ H]. discriminate.
Qed.

Lemma split_from_lstrip s : split_from (lstrip s) EmptyString = split_from s EmptyString.
Proof.
  induction s as [|c r IH]; [reflexivity|]. cbn [lstrip].
  destruct (isspace c) eqn:Hc; [|reflexivity].
  cbn [split_from]. rewrite Hc. cbn [str.truthy]. exact IH.
Qed.

Lemma split_from_cons c r w :
  split_from (String c r) w
  = if isspace c then
      if str.truthy w then w :: split_from r EmptyString
      else split_from r EmptyString
    else split_from r (w ++ String c EmptyString).
Proof. reflexivity. Qed.

Lemma split_from_rstrip s : forall w,
  split_from (rstrip s) w = split_from s w.
Proof.
  induction s as [|c r IH]; intros w; [reflexivity|].
  rewrite (split_from_cons c r w). cbn [rstrip].
  destruct (rstrip r) as [|x r'] eqn:Hr.
  - destruct (isspace c) eqn:Hc.
    + rewrite <- (IH EmptyString). cbn [split_from str.truthy].
      destruct (str.truthy w); reflexivity.
    + rewrite split_from_cons, Hc, <- IH. reflexivity.
  - rewrite split_from_cons, !IH. reflexivity.
Qed.

Lemma split_strip s : split (strip s) = split s.
Proof. unfold split, strip. rewrite split_from_rstrip. apply split_from_lstrip. Qed.

Lemma split_from_word t : forall rest w,
  str.all (fun c => negb (isspace c)) t = true ->
  split_from (t ++ rest) w = split_from rest (w ++ t).
Proof.
  induction t as [|c t IH]; intros rest w Ht; cbn [append].
  - rewrite append_nil_r. reflexivity.
  - cbn [str.all] in Ht. apply andb_prop in Ht as [Hc Ht].
    cbn [split_from]. destruct (isspace c); [discriminate|].
    rewrite (IH _ _ Ht), append_assoc. reflexivity.
Qed.

Lemma split_join words :
  Forall Inv.word words -> split (join " " words) = words.
Proof.
  unfold split. induction 1 as [|w ws Hw Hws IH]; [reflexivity|].
  cbn [join]. destruct ws as [|w' ws'].
  - rewrite <- (append_nil_r w) at 1.
    rewrite split_from_word by apply Hw. cbn [split_from append].
    rewrite (truthy_word _ Hw). reflexivity.
  - rewrite split_from_word by apply Hw. cbn [append split_from].
    change (isspace " ") with true. cbn iota.
    rewrite (truthy_word _ Hw). f_equal. exact IH.
Qed.

(** X17.  The command and the arguments that [parse_input] returns are
    words: none is empty and none has a blank. *)
Theorem parse_input_words user_input command args :
  parse_input user_input = Ok (command, args) ->
  Inv.word command /\ Forall Inv.word args.
Proof.
  unfold parse_input. rewrite split_strip.
  pose proof (split_from_words user_input EmptyString eq_refl) as H.
  fold (split user_input) in H.
  destruct (split user_input) as [|c a]; [discriminate|].
  intros [= <- <-]. inversion H; subst. auto.
Qed.

Lemma parse_input_words_witness :
  parse_input "  add  Bob 0123456789 " = Ok ("add", ["Bob"; "0123456789"])
  /\ Inv.word "add" /\ Forall Inv.word ["Bob"; "0123456789"].
Proof.
  split; [reflexivity|].
  apply (parse_input_words "  add  Bob 0123456789 " "add" ["Bob"; "0123456789"]).
  reflexivity.
Defined.

(** X18.  Words joined by single blanks are read back as they are. *)
Theorem parse_input_join command args :
  Inv.word command -> Forall Inv.word args ->
  parse_input (join " " (command :: args)) = Ok (command, args).
Proof.
  intros Hc Ha. unfold parse_input.
  rewrite split_strip, split_join by (constructor; assumption). reflexivity.
Qed.

Lemma parse_input_join_witness :
  join " " ["change"; "Bob"; "0123456789"; "1111111111"]
  = "change Bob 0123456789 1111111111"
  /\ parse_input (join " " ["change"; "Bob"; "0123456789"; "1111111111"])
     = Ok ("change", ["Bob"; "0123456789"; "1111111111"]).
Proof.
  split; [reflexivity|].
  apply (parse_input_join "change" ["Bob"; "0123456789"; "1111111111"]).
  - split; [discriminate|reflexivity].
  - repeat constructor; discriminate.
Defined.

Lemma parse_input_raises_iff user_input :
  parse_input user_input = Raise (IndexError "list index out of range")
  <-> str.all isspace user_input = true.
Proof.
  unfold parse_input. rewrite split_strip.
  pose proof (split_from_nil user_input EmptyString) as H.
  fold (split user_input) in H.
  destruct (split user_input) as [|c a].
  - split; [intros _; apply H; reflexivity|reflexivity].
  - split; [discriminate|]. intros Hs.
    assert (c :: a = []) by (apply H; auto). discriminate.
Qed.

(** X19.  [parse_input] raises exactly on a line that is empty or has blanks
    only, and what it raises is an [IndexError]. *)
Theorem parse_input_blank user_input e :
  parse_input user_input = Raise e
  <-> str.all isspace user_input = true
      /\ e = IndexError "list index out of range".
Proof.
  pose proof (parse_input_raises_iff user_input) as H. split.
  - intros Hr. assert (He : e = IndexError "list index out of range").
    { unfold parse_input in Hr.
      destruct (split (strip user_input)); [|discriminate].
      injection Hr as <-. reflexivity. }
    subst e. split; [apply H, Hr|reflexivity].
  - intros [Hs ->]. apply H, Hs.
Qed.

End InputFacts.

(* ================================================================== *)
(** * More on records *)

Section RecordExtras.

Import Record_.

Lemma phone_init_ok p q : Phone.__init__ p = Ok q -> q = Phone.mk p.
Proof.
  unfold Phone.__init__.
  destruct (negb (str.isdigit p) || negb (str.len p =? 10)); [discriminate|].
  intros [= <-]. reflexivity.
Qed.

Lemma find_in_app ps qs number :
  find_in (ps ++ qs) number
  = match find_in ps number with
    | Some p => Some p
    | None => find_in qs number
    end.
Proof.
  induction ps as [|p rest IH]; cbn [app find_in]; [reflexivity|].
  destruct (String.eqb (Phone.value p) number); [reflexivity|exact IH].
Qed.

(** X1.  After [add_phone] with a text that [Phone] accepts, [find_phone]
    finds the new number, every number found before is still found, and the
    list is one longer, also when the number was there already. *)
Theorem add_phone_then_find r phone :
  Phone.__init__ phone = Ok (Phone.mk phone) ->
  let r' := fst (add_phone r phone) in
  snd (add_phone r phone) = Ok tt
  /\ find_phone r' phone = Some (Phone.mk phone)
  /\ (forall n p, find_phone r n = Some p -> find_phone r' n = Some p)
  /\ List.length (phones r') = S (List.length (phones r)).
Proof.
  intros Hok. unfold add_phone, find_phone. rewrite Hok. cbn.
  split; [reflexivity|]. split; [|split].
  - apply find_in_present, in_or_app. right. left. reflexivity.
  - intros n p Hf. rewrite find_in_app, Hf. reflexivity.
  - rewrite length_app. cbn. lia.
Qed.

Lemma add_phone_then_find_witness :
  let r := mk "Ann" [Phone.mk "0000000000"] None in
  let r' := fst (add_phone r "0000000000") in
  r' = mk "Ann" [Phone.mk "0000000000"; Phone.mk "0000000000"] None
  /\ snd (add_phone r "0000000000") = Ok tt
  /\ find_phone r' "0000000000" = Some (Phone.mk "0000000000")
  /\ (forall n p, find_phone r n = Some p -> find_phone r' n = Some p)
  /\ List.length (phones r') = S (List.length (phones r)).
Proof.
  split; [reflexivity|].
  apply (add_phone_then_find (mk "Ann" [Phone.mk "0000000000"] None) "0000000000").
  reflexivity.
Defined.

Lemma remove_first_last ps phone :
  ~ In (Phone.mk phone) ps ->
  remove_first (ps ++ [Phone.mk phone]) phone = Some ps.
Proof.
  induction ps as [|p rest IH]; cbn [app remove_first In]; intros Hn.
  - cbn [Phone.value]. rewrite String.eqb_refl. reflexivity.
  - destruct (String.eqb_spec (Phone.value p) phone) as [E|E].
    + exfalso. apply Hn. left. rewrite <- E. symmetry. apply phone_eta.
    + rewrite IH by tauto. reflexivity.
Qed.

(** X2.  Removing a number that was just added, and that the record did
    not hold before, gives the record back and prints nothing. *)
Theorem remove_phone_after_add r phone :
  ~ In (Phone.mk phone) (phones r) ->
  Phone.__init__ phone = Ok (Phone.mk phone) ->
  remove_phone (fst (add_phone r phone)) phone = (r, None).
Proof.
  intros Hn Hok. unfold add_phone, remove_phone. rewrite Hok.
  cbn [fst set_phones phones name birthday].
  rewrite (remove_first_last _ _ Hn). destruct r. reflexivity.
Qed.

Lemma remove_phone_after_add_witness :
  let r := mk "Ann" [Phone.mk "0000000000"] None in
  add_phone r "1111111111"
  = (mk "Ann" [Phone.mk "0000000000"; Phone.mk "1111111111"] None, Ok tt)
  /\ remove_phone (fst (add_phone r "1111111111")) "1111111111" = (r, None).
Proof.
  split; [reflexivity|].
  apply (remove_phone_after_add (mk "Ann" [Phone.mk "0000000000"] None) "1111111111");
    [|reflexivity].
  intros [H|[]]. discriminate H.
Defined.

Lemma remove_first_present ps phone :
  In (Phone.mk phone) ps ->
  exists i,
    nth_error ps i = Some (Phone.mk phone)
    /\ ~ In (Phone.mk phone) (firstn i ps)
    /\ remove_first ps phone = Some (firstn i ps ++ skipn (S i) ps).
Proof.
  induction ps as [|p rest IH]; cbn [In]; [contradiction|].
  intros Hin. cbn [remove_first].
  destruct (String.eqb_spec (Phone.value p) phone) as [E|E].
  - exists O. cbn. rewrite <- E, phone_eta. auto.
  - destruct Hin as [Hp|Hin]; [exfalso; apply E; rewrite Hp; reflexivity|].
    destruct (IH Hin) as (i & Hi & Hfirst & ->).
    exists (S i). cbn. split; [exact Hi|]. split; [|reflexivity].
    intros [Hp|Hr]; [apply E; rewrite Hp; reflexivity|contradiction].
Qed.

(** X3.  [remove_phone] of a number the record holds takes out its first
    entry only, at index [i]: the entries before and after it stay in their
    order, a later duplicate stays, and nothing is printed. *)
Theorem remove_phone_first_only r phone :
  In (Phone.mk phone) (phones r) ->
  exists i,
    nth_error (phones r) i = Some (Phone.mk phone)
    /\ ~ In (Phone.mk phone) (firstn i (phones r))
    /\ remove_phone r phone
       = (mk (name r) (firstn i (phones r) ++ skipn (S i) (phones r)) (birthday r),
          None)
    /\ S (List.length (phones (fst (remove_phone r phone))))
       = List.length (phones r).
Proof.
  intros Hin. destruct (remove_first_present _ _ Hin) as (i & Hi & Hfirst & Hrm).
  exists i. unfold remove_phone. rewrite Hrm. cbn [fst set_phones phones].
  repeat split; try assumption.
  assert (Hlt : (i < List.length (phones r))%nat)
    by (apply nth_error_Some; congruence).
  rewrite length_app, length_firstn, length_skipn. lia.
Qed.

Lemma remove_phone_first_only_witness :
  let a := Phone.mk "0000000000" in
  let b := Phone.mk "1111111111" in
  let r := mk "Ann" [a; b; a; b] None in
  remove_phone r "1111111111" = (mk "Ann" [a; a; b] None, None)
  /\ exists i,
       nth_error (phones r) i = Some b
       /\ ~ In b (firstn i (phones r))
       /\ remove_phone r "1111111111"
          = (mk (name r) (firstn i (phones r) ++ skipn (S i) (phones r)) (birthday r),
             None)
       /\ S (List.length (phones (fst (remove_phone r "1111111111"))))
          = List.length (phones r).
Proof.
  split; [reflexivity|].
  apply (remove_phone_first_only
           (mk "Ann" [Phone.mk "0000000000"; Phone.mk "1111111111";
                      Phone.mk "0000000000"; Phone.mk "1111111111"] None)
           "1111111111").
  right. left. reflexivity.
Defined.

Lemma edit_loop_refused ps old_phone new_phone e :
  In (Phone.mk old_phone) ps ->
  Phone.__init__ new_phone = Raise e ->
  edit_loop ps old_phone new_phone = (ps, Raise e).
Proof.
  intros Hin He. induction ps as [|p rest IH]; [contradiction|].
  cbn [edit_loop].
  destruct (String.eqb_spec (Phone.value p) old_phone) as [E|E].
  - rewrite He. reflexivity.
  - destruct Hin as [Hp|Hin]; [exfalso; apply E; rewrite Hp; reflexivity|].
    rewrite (IH Hin). reflexivity.
Qed.

(** X4.  [edit_phone] of a number the record holds, with a new text that
    [Phone] refuses, raises that [ValueError] and leaves the record as it
    is. *)
Theorem edit_phone_refused r old_phone new_phone e :
  In (Phone.mk old_phone) (phones r) ->
  Phone.__init__ new_phone = Raise e ->
  edit_phone r old_phone new_phone = (r, Raise e).
Proof.
  intros Hin He. unfold edit_phone.
  rewrite (edit_loop_refused _ _ _ _ Hin He). destruct r. reflexivity.
Qed.

Lemma edit_phone_refused_witness :
  let r := mk "Ann" [Phone.mk "0000000000"] None in
  edit_phone r "0000000000" "12345"
  = (r, Raise (ValueError "Phone number must be a string of 10 digits.")).
Proof.
  apply (edit_phone_refused (mk "Ann" [Phone.mk "0000000000"] None)
           "0000000000" "12345");
    [left; reflexivity|reflexivity].
Defined.

Lemma phone_init_value p q :
  Phone.__init__ p = Ok q -> Phone.__init__ (Phone.value q) = Ok q.
Proof. intros H. pose proof (phone_init_ok _ _ H) as E. subst q. exact H. Qed.

Lemma add_phone_valid r phone :
  Inv.phones_valid r -> Inv.phones_valid (fst (add_phone r phone)).
Proof.
  unfold Inv.phones_valid, add_phone. intros Hr.
  destruct (Phone.__init__ phone) as [q|e] eqn:Hq; cbn; [|exact Hr].
  apply Forall_app. split; [exact Hr|].
  constructor; [apply (phone_init_value _ _ Hq)|constructor].
Qed.

Lemma remove_first_valid (P : Phone.t -> Prop) ps phone qs :
  Forall P ps -> remove_first ps phone = Some qs -> Forall P qs.
Proof.
  intros Hps. revert qs. induction Hps as [|p rest Hp Hrest IH]; intros qs;
    cbn [remove_first]; [discriminate|].
  destruct (String.eqb (Phone.value p) phone); [intros [= <-]; exact Hrest|].
  destruct (remove_first rest phone) as [qs'|]; [|discriminate].
  intros [= <-]. constructor; [exact Hp|]. apply IH. reflexivity.
Qed.

Lemma remove_phone_valid r phone :
  Inv.phones_valid r -> Inv.phones_valid (fst (remove_phone r phone)).
Proof.
  unfold Inv.phones_valid, remove_phone. intros Hr.
  destruct (remove_first (phones r) phone) as [qs|] eqn:Hq; cbn; [|exact Hr].
  apply (remove_first_valid _ _ _ _ Hr Hq).
Qed.

Lemma edit_loop_valid ps old_phone new_phone :
  Forall (fun p => Phone.__init__ (Phone.value p) = Ok p) ps ->
  Forall (fun p => Phone.__init__ (Phone.value p) = Ok p)
         (fst (edit_loop ps old_phone new_phone)).
Proof.
  induction 1 as [|p rest Hp Hrest IH]; cbn [edit_loop]; [constructor|].
  destruct (String.eqb (Phone.value p) old_phone).
  - destruct (Phone.__init__ new_phone) as [q|e] eqn:Hq; cbn [fst].
    + constructor; [|exact Hrest]. rewrite phone_eta.
      apply (phone_init_value _ _ Hq).
    + constructor; assumption.
  - destruct (edit_loop rest old_phone new_phone) as [rest' res]. cbn [fst] in *.
    constructor; assumption.
Qed.

Lemma edit_phone_valid r old_phone new_phone :
  Inv.phones_valid r -> Inv.phones_valid (fst (edit_phone r old_phone new_phone)).
Proof.
  unfold Inv.phones_valid, edit_phone. intros Hr.
  pose proof (edit_loop_valid _ old_phone new_phone Hr) as H.
  destruct (edit_loop (phones r) old_phone new_phone) as [ps res]. exact H.
Qed.

Lemma add_birthday_valid r b :
  Inv.phones_valid r -> Inv.phones_valid (fst (add_birthday r b)).
Proof.
  unfold Inv.phones_valid, add_birthday. intros Hr.
  destruct (birthday r); exact Hr.
Qed.

(** X5.  A record never holds a phone that [Phone] would refuse: a new
    record holds none, and [add_phone], [remove_phone], [edit_phone] and
    [add_birthday] keep the phones valid, whether they raise or not. *)
Theorem phones_stay_valid r :
  Inv.phones_valid r ->
  (forall name, Inv.phones_valid (__init__ name))
  /\ (forall phone, Inv.phones_valid (fst (add_phone r phone)))
  /\ (forall phone, Inv.phones_valid (fst (remove_phone r phone)))
  /\ (forall old_phone new_phone,
        Inv.phones_valid (fst (edit_phone r old_phone new_phone)))
  /\ (forall b, Inv.phones_valid (fst (add_birthday r b))).
Proof.
  intros Hr. split; [intros name; constructor|].
  split; [intros phone; apply add_phone_valid, Hr|].
  split; [intros phone; apply remove_phone_valid, Hr|].
  split; [intros o n; apply edit_phone_valid, Hr|].
  intros b; apply add_birthday_valid, Hr.
Qed.

Lemma phones_stay_valid_witness :
  let r := mk "Ann" [Phone.mk "0000000000"] None in
  (forall name, Inv.phones_valid (__init__ name))
  /\ (forall phone, Inv.phones_valid (fst (add_phone r phone)))
  /\ (forall phone, Inv.phones_valid (fst (remove_phone r phone)))
  /\ (forall old_phone new_phone,
        Inv.phones_valid (fst (edit_phone r old_phone new_phone)))
  /\ (forall b, Inv.phones_valid (fst (add_birthday r b))).
Proof.
  apply (phones_stay_valid (mk "Ann" [Phone.mk "0000000000"] None)).
  constructor; [reflexivity|constructor].
Defined.

End RecordExtras.

(* ================================================================== *)
(** * More on the address book *)

Section BookExtras.

Import AddressBook.

Lemma dict_get_none {V} (d : dict.t V) k :
  dict.get d k = None <-> ~ In k (dict.keys d).
Proof.
  unfold dict.keys. induction d as [|[k' v'] rest IH]; cbn [dict.get map fst In];
    [tauto|].
  destruct (String.eqb_spec k' k) as [E|E].
  - split; [discriminate|]. intros H. exfalso. apply H. auto.
  - rewrite IH. tauto.
Qed.

Lemma dict_set_absent {V} (d : dict.t V) k v :
  ~ In k (dict.keys d) -> dict.set d k v = d ++ [(k, v)].
Proof.
  unfold dict.keys. induction d as [|[k' v'] rest IH]; cbn [dict.set map fst In app];
    [reflexivity|].
  intros Hn. destruct (String.eqb_spec k' k) as [E|E]; [tauto|].
  rewrite IH by tauto. reflexivity.
Qed.

Lemma dict_del_absent {V} (d : dict.t V) k :
  ~ In k (dict.keys d) -> dict.del d k = d.
Proof.
  unfold dict.keys. induction d as [|[k' v'] rest IH]; cbn [dict.del map fst In];
    [reflexivity|].
  intros Hn. destruct (String.eqb_spec k' k) as [E|E]; [tauto|].
  rewrite IH by tauto. reflexivity.
Qed.

Lemma dict_del_last {V} (d : dict.t V) k v :
  ~ In k (dict.keys d) -> dict.del (d ++ [(k, v)]) k = d.
Proof.
  unfold dict.keys. induction d as [|[k' v'] rest IH]; cbn [dict.del map fst In app].
  - rewrite String.eqb_refl. reflexivity.
  - intros Hn. destruct (String.eqb_spec k' k) as [E|E]; [tauto|].
    rewrite IH by tauto. reflexivity.
Qed.

Lemma dict_keys_del {V} (d : dict.t V) k x :
  In x (dict.keys (dict.del d k)) -> In x (dict.keys d).
Proof.
  unfold dict.keys. induction d as [|[k' v'] rest IH]; cbn [dict.del map fst In];
    [auto|].
  destruct (String.eqb k' k); cbn [map fst In]; [auto|].
  intros [H|H]; auto.
Qed.

Lemma dict_del_nodup {V} (d : dict.t V) k :
  NoDup (dict.keys d) ->
  NoDup (dict.keys (dict.del d k)) /\ ~ In k (dict.keys (dict.del d k)).
Proof.
  unfold dict.keys. induction d as [|[k' v'] rest IH]; cbn [dict.del map fst].
  - intros _. split; [constructor|intros []].
  - intros Hnd. inversion Hnd as [|? ? Hk Hrest]; subst.
    destruct (String.eqb_spec k' k) as [E|E].
    + subst k'. auto.
    + destruct (IH Hrest) as [H1 H2]. cbn [map fst In]. split.
      * constructor; [|exact H1]. intros Hin. apply Hk.
        apply (dict_keys_del rest k). exact Hin.
      * intros [H|H]; [contradiction|]. apply H2, H.
Qed.

Lemma dict_get_del_other {V} (d : dict.t V) k k0 :
  k0 <> k -> dict.get (dict.del d k) k0 = dict.get d k0.
Proof.
  intros Hne. induction d as [|[k' v'] rest IH]; cbn [dict.del dict.get];
    [reflexivity|].
  destruct (String.eqb_spec k' k) as [E|E]; cbn [dict.get].
  - subst k'. destruct (String.eqb_spec k k0); [congruence|reflexivity].
  - rewrite IH. reflexivity.
Qed.

(** X6.  In a book, where a name occurs once, [delete] takes the record of
    that name out: [find] no longer returns it, every other name is found
    as before, and a name occurs once afterwards too.  For a name the book
    does not hold, [delete] changes nothing. *)
Theorem delete_then_find book name :
  NoDup (dict.keys book) ->
  find (delete book name) name = None
  /\ (forall k, k <> name -> find (delete book name) k = find book k)
  /\ NoDup (dict.keys (delete book name))
  /\ (find book name = None -> delete book name = book).
Proof.
  intros Hnd. unfold find, delete.
  destruct (dict_del_nodup book name Hnd) as [H1 H2].
  split; [apply dict_get_none, H2|].
  split; [intros k Hk; apply dict_get_del_other, Hk|].
  split; [exact H1|].
  intros Hf. apply dict_del_absent, dict_get_none, Hf.
Qed.

Lemma delete_then_find_witness :
  let ann := Record_.mk "Ann" [Phone.mk "0000000000"] None in
  let bob := Record_.mk "Bob" [] None in
  let book := [("Ann", ann); ("Bob", bob)] in
  delete book "Ann" = [("Bob", bob)]
  /\ find (delete book "Ann") "Ann" = None
  /\ (forall k, k <> "Ann" -> find (delete book "Ann") k = find book k)
  /\ NoDup (dict.keys (delete book "Ann"))
  /\ (find book "Ann" = None -> delete book "Ann" = book).
Proof.
  split; [reflexivity|].
  apply (delete_then_find
           [("Ann", Record_.mk "Ann" [Phone.mk "0000000000"] None);
            ("Bob", Record_.mk "Bob" [] None)] "Ann").
  constructor.
  - intros [H|[]]. discriminate H.
  - constructor; [intros []|constructor].
Defined.

(** X7.  [add_record] of a record whose name the book does not hold puts
    it at the end, after the records that are there; [find] returns it, and
    [delete] of that name gives the book back. *)
Theorem add_record_new_name book r :
  find book (Record_.name r) = None ->
  add_record book r = book ++ [(Record_.name r, r)]
  /\ find (add_record book r) (Record_.name r) = Some r
  /\ delete (add_record book r) (Record_.name r) = book.
Proof.
  intros Hf. unfold find, add_record, delete in *.
  apply dict_get_none in Hf.
  rewrite (dict_set_absent _ _ _ Hf). split; [reflexivity|].
  split; [|apply dict_del_last, Hf].
  rewrite <- (dict_set_absent _ _ _ Hf). apply dict_get_set_same.
Qed.

Lemma add_record_new_name_witness :
  let ann := Record_.mk "Ann" [] None in
  let bob := Record_.mk "Bob" [Phone.mk "1111111111"] None in
  add_record [("Ann", ann)] bob = [("Ann", ann)] ++ [(Record_.name bob, bob)]
  /\ find (add_record [("Ann", ann)] bob) (Record_.name bob) = Some bob
  /\ delete (add_record [("Ann", ann)] bob) (Record_.name bob) = [("Ann", ann)].
Proof.
  apply (add_record_new_name [("Ann", Record_.mk "Ann" [] None)]
           (Record_.mk "Bob" [Phone.mk "1111111111"] None)).
  reflexivity.
Defined.

End BookExtras.

(* ================================================================== *)
(** * More on the upcoming birthdays *)

Section UpcomingExtras.

Import datetime AddressBook.

Lemma Forall2_Forall_l {A B} (P : A -> B -> Prop) (Q : B -> Prop) l rs :
  Forall2 P l rs -> Forall Q rs -> Forall (fun a => exists b, Q b /\ P a b) l.
Proof.
  induction 1 as [|a b l rs Hab _ IH]; intros HQ; constructor;
    inversion HQ; subst; eauto.
Qed.

Lemma filter_Forall {A} (f : A -> bool) l : Forall (fun a => f a = true) (filter f l).
Proof. apply Forall_forall. intros a Ha. apply filter_In in Ha. tauto. Qed.

(** X8.  No congratulation date is a Saturday or a Sunday, and none is
    before [today] or more than 9 days after it: the text of every entry
    returned names, as year.month.day, a date [c] with a weekday from Monday
    to Friday. *)
Theorem congratulation_on_weekday today book l :
  valid today = true ->
  get_upcoming_birthdays today book = Ok l ->
  Forall (fun e =>
            exists c,
              valid c = true
              /\ Spec.date_of_text (congratulation_date e) = Some c
              /\ 0 <= weekday c <= 4
              /\ 0 <= toordinal c - toordinal today <= 9) l.
Proof.
  intros Ht Hl. unfold get_upcoming_birthdays in Hl.
  destruct (loop_ok today _ Ht _ _ Hl) as (_ & l' & -> & HF). cbn [app].
  pose proof (Forall2_Forall_l _ _ _ _ HF (filter_Forall (Spec.upcoming today) _)) as H.
  eapply Forall_impl; [|exact H]. clear. cbv beta.
  intros e (r & Hup & (b & o & c & Hb & Ho & Hc & Hn & _ & Hread & _)).
  unfold Spec.upcoming in Hup. rewrite Hb, Ho in Hup.
  unfold Spec.within_week, Spec.days_until in Hup.
  apply andb_prop in Hup as [H0 H7]. apply Z.leb_le in H0, H7.
  exists c. split; [exact Hc|]. split; [exact Hread|].
  unfold Spec.day_number, Spec.weekend_shift in *.
  fold (toordinal c) in Hn. fold (toordinal o) in Hn, H0, H7.
  fold (toordinal today) in H0, H7.
  unfold weekday in *.
  destruct (Z.eqb_spec ((toordinal o + 6) mod 7) 5) as [E5|E5];
    [|destruct (Z.eqb_spec ((toordinal o + 6) mod 7) 6) as [E6|E6]];
    rewrite Hn; split; try lia; Z.div_mod_to_equations; lia.
Qed.

Lemma congratulation_on_weekday_witness :
  let today := mkdate 2024 6 10 in
  let book :=
    [("Ann", Record_.mk "Ann" [] (Some (Birthday.mk "15.06.1990" (mkdate 1990 6 15))));
     ("Bob", Record_.mk "Bob" [] (Some (Birthday.mk "16.06.1991" (mkdate 1991 6 16))))] in
  get_upcoming_birthdays today book
  = Ok [mkentry "Ann" "2024.06.17"; mkentry "Bob" "2024.06.17"]
  /\ Forall (fun e =>
               exists c,
                 valid c = true
                 /\ Spec.date_of_text (congratulation_date e) = Some c
                 /\ 0 <= weekday c <= 4
                 /\ 0 <= toordinal c - toordinal today <= 9)
            [mkentry "Ann" "2024.06.17"; mkentry "Bob" "2024.06.17"].
Proof.
  split; [reflexivity|].
  apply (congratulation_on_weekday (mkdate 2024 6 10)
    [("Ann", Record_.mk "Ann" [] (Some (Birthday.mk "15.06.1990" (mkdate 1990 6 15))));
     ("Bob", Record_.mk "Bob" [] (Some (Birthday.mk "16.06.1991" (mkdate 1991 6 16))))]);
    reflexivity.
Defined.

Lemma occurrence_not_past today bd o :
  valid today = true ->
  Spec.occurrence today bd = Some o ->
  0 <= Spec.days_until today o.
Proof.
  intros Ht. unfold Spec.occurrence, Spec.occurrence_in, Spec.days_until.
  destruct (Spec.calendar_day (year today) (month bd) (day bd)); [|discriminate].
  destruct (Z.ltb_spec (Spec.day_number (mkdate (year today) (month bd) (day bd)))
                       (Spec.day_number today)) as [Hlt|Hge];
    [|intros [= <-]; lia].
  destruct (Spec.calendar_day (year today + 1) (month bd) (day bd)) eqn:Hc;
    [|discriminate].
  intros [= <-]. unfold Spec.calendar_day in Hc.
  rewrite !andb_true_iff, !Z.leb_le in Hc.
  destruct Hc as ((((_ & Hm1) & Hm2) & Hd1) & _).
  pose proof (toordinal_in_year today Ht) as Hin.
  pose proof (days_before_month_bounds (year today + 1) (month bd) (conj Hm1 Hm2))
    as [Hb _].
  unfold Spec.day_number, toordinal, _ymd2ord in *. cbn [year month day]. lia.
Qed.

(** X9.  The occurrence that is looked at is never before [today], so the
    lower bound of the test [0 <= days_until_birthday <= 7] takes nothing
    away: the records included are those whose occurrence is at most 7 days
    ahead. *)
Theorem included_when_at_most_week_ahead today book l :
  valid today = true ->
  get_upcoming_birthdays today book = Ok l ->
  map entry_name l
  = map Record_.name (filter (Inv.at_most_week_ahead today) (dict.values book)).
Proof.
  intros Ht Hl. unfold get_upcoming_birthdays in Hl.
  destruct (loop_ok today _ Ht _ _ Hl) as (_ & l' & -> & HF). cbn [app].
  rewrite (congratulates_names _ _ _ HF). f_equal.
  apply filter_ext. intros r.
  unfold Spec.upcoming, Inv.at_most_week_ahead.
  destruct (Record_.birthday r) as [b|]; [|reflexivity].
  destruct (Spec.occurrence today (Birthday.date_value b)) as [o|] eqn:Ho;
    [|reflexivity].
  unfold Spec.within_week.
  pose proof (occurrence_not_past _ _ _ Ht Ho) as H0.
  apply Z.leb_le in H0. rewrite H0. reflexivity.
Qed.

Lemma included_when_at_most_week_ahead_witness :
  let today := mkdate 2024 12 28 in
  let book :=
    [("Ann", Record_.mk "Ann" [] (Some (Birthday.mk "01.01.1990" (mkdate 1990 1 1))));
     ("Bob", Record_.mk "Bob" [] (Some (Birthday.mk "27.12.1991" (mkdate 1991 12 27))))] in
  get_upcoming_birthdays today book = Ok [mkentry "Ann" "2025.01.01"]
  /\ map entry_name [mkentry "Ann" "2025.01.01"]
     = map Record_.name (filter (Inv.at_most_week_ahead today) (dict.values book)).
Proof.
  split; [reflexivity|].
  apply (included_when_at_most_week_ahead (mkdate 2024 12 28)
    [("Ann", Record_.mk "Ann" [] (Some (Birthday.mk "01.01.1990" (mkdate 1990 1 1))));
     ("Bob", Record_.mk "Bob" [] (Some (Birthday.mk "27.12.1991" (mkdate 1991 12 27))))]);
    reflexivity.
Defined.

Lemma loop_outcome today records :
  valid today = true ->
  forall acc,
    (exists l, loop today records acc = Ok l)
    \/ (exists msg, loop today records acc = Raise (ValueError msg)).
Proof.
  intros Ht. induction records as [|r rest IH]; intros acc; cbn [loop];
    [eauto|].
  destruct (visit_outcome today acc r Ht) as [[acc' Hv]|[msg Hv]];
    rewrite Hv; cbn [bind]; [apply IH|eauto].
Qed.

End UpcomingExtras.

(* ================================================================== *)
(** * The command handlers and the loop *)

Section HandlerFacts.

Import AddressBook.

Lemma input_error_total (func : handler) :
  (forall args book e, snd (func args book) = Raise e -> Inv.caught e) ->
  forall args book,
    fst (input_error func args book) = fst (func args book)
    /\ exists text, snd (input_error func args book) = Ok text.
Proof.
  intros Hc args book. specialize (Hc args book). unfold input_error.
  destruct (func args book) as [book' [text|e]]; cbn [fst snd] in *; [eauto|].
  destruct e; cbn [fst snd]; eauto.
  exfalso. apply (Hc _ eq_refl).
Qed.

Lemma phone_init_raises p e :
  Phone.__init__ p = Raise e ->
  e = ValueError "Phone number must be a string of 10 digits.".
Proof.
  unfold Phone.__init__.
  destruct (negb (str.isdigit p) || negb (str.len p =? 10)); [|discriminate].
  intros [= <-]. reflexivity.
Qed.

Lemma birthday_init_raises t e :
  Birthday.__init__ t = Raise e ->
  e = ValueError "Invalid date format. Use DD.MM.YYYY".
Proof.
  unfold Birthday.__init__.
  destruct (_strptime.strptime t) as [d|e'] eqn:Hs; [discriminate|].
  destruct (strptime_raises _ _ Hs) as [msg ->]. intros [= <-]. reflexivity.
Qed.

Lemma edit_loop_raises ps old_phone new_phone e :
  snd (Record_.edit_loop ps old_phone new_phone) = Raise e ->
  Phone.__init__ new_phone = Raise e.
Proof.
  induction ps as [|p rest IH]; cbn [Record_.edit_loop snd]; [discriminate|].
  destruct (String.eqb (Phone.value p) old_phone).
  - destruct (Phone.__init__ new_phone); cbn [snd]; [discriminate|].
    intros [= <-]. reflexivity.
  - destruct (Record_.edit_loop rest old_phone new_phone) as [rest' r].
    cbn [snd] in *. exact IH.
Qed.

Lemma add_contact_func_caught args book e :
  snd (add_contact_func args book) = Raise e -> Inv.caught e.
Proof.
  unfold add_contact_func.
  destruct args as [|name [|phone rest]]; cbn [snd];
    try (intros [= <-]; exact I).
  destruct (find book name) as [record|];
    (destruct (str.truthy phone); cbn [snd]; [|discriminate]);
    unfold Record_.add_phone;
    (destruct (Phone.__init__ phone) as [q|e'] eqn:Hq; cbn [snd bind];
     [discriminate|]);
    intros [= <-]; rewrite (phone_init_raises _ _ Hq); exact I.
Qed.

Lemma change_phone_func_caught args book e :
  snd (change_phone_func args book) = Raise e -> Inv.caught e.
Proof.
  unfold change_phone_func.
  destruct args as [|name [|old_phone [|new_phone rest]]]; cbn [snd];
    try (intros [= <-]; exact I).
  destruct (find book name) as [record|]; cbn [snd]; [|discriminate].
  unfold Record_.edit_phone.
  destruct (Record_.edit_loop (Record_.phones record) old_phone new_phone)
    as [ps r] eqn:Hl.
  cbn [snd]. destruct r as [u|e']; cbn [bind]; [discriminate|].
  intros [= <-].
  assert (Hr : snd (Record_.edit_loop (Record_.phones record) old_phone new_phone)
               = Raise e') by (rewrite Hl; reflexivity).
  apply edit_loop_raises in Hr. rewrite (phone_init_raises _ _ Hr). exact I.
Qed.

Lemma show_phone_func_caught args book e :
  snd (show_phone_func args book) = Raise e -> Inv.caught e.
Proof.
  unfold show_phone_func. destruct args as [|name rest]; cbn [snd];
    [intros [= <-]; exact I|].
  destruct (find book name); cbn [snd]; discriminate.
Qed.

Lemma show_all_contacts_func_caught args book e :
  snd (show_all_contacts_func args book) = Raise e -> Inv.caught e.
Proof. unfold show_all_contacts_func. destruct book; cbn [snd]; discriminate. Qed.

Lemma add_birthday_func_caught args book e :
  snd (add_birthday_func args book) = Raise e -> Inv.caught e.
Proof.
  unfold add_birthday_func.
  destruct args as [|name [|birthday_str [|x rest]]]; cbn [snd];
    try (intros [= <-]; exact I).
  destruct (find book name) as [record|]; cbn [snd]; [|discriminate].
  destruct (Birthday.__init__ birthday_str) as [b|e'] eqn:Hb.
  - unfold Record_.add_birthday. destruct (Record_.birthday record); cbn [snd];
      discriminate.
  - rewrite (birthday_init_raises _ _ Hb). cbn [snd]. discriminate.
Qed.

Lemma show_birthday_func_caught args book e :
  snd (show_birthday_func args book) = Raise e -> Inv.caught e.
Proof.
  unfold show_birthday_func. destruct args as [|name rest]; cbn [snd];
    [intros [= <-]; exact I|].
  destruct (find book name) as [record|]; cbn [snd]; [|discriminate].
  destruct (Record_.birthday record); cbn [snd]; discriminate.
Qed.

Lemma birthdays_func_caught today args book e :
  datetime.valid today = true ->
  snd (birthdays_func today args book) = Raise e -> Inv.caught e.
Proof.
  intros Ht. unfold birthdays_func, get_upcoming_birthdays.
  destruct (loop_outcome today (dict.values book) Ht []) as [[l Hl]|[msg Hl]];
    rewrite Hl.
  - destruct l; cbn [snd]; discriminate.
  - cbn [snd]. intros [= <-]. exact I.
Qed.

Lemma print_total (h : handler) args book :
  (exists text, snd (h args book) = Ok text) ->
  exists out,
    (let '(book', r) := h args book in
     try! text := r in Ok (book', [text], false)) = Ok out.
Proof.
  intros [text H]. destruct (h args book) as [book' r]. cbn [snd] in H.
  rewrite H. cbn [bind]. eauto.
Qed.

(** X10.  One turn of the loop of [main] raises exactly when the line read
    is empty or has blanks only, and then it is the [IndexError] of
    [parse_input], which nothing catches; on every other line the turn
    ends, whatever the command and its arguments are. *)
Theorem main_step_raises_on_blank today book user_input e :
  datetime.valid today = true ->
  main_step today book user_input = Raise e
  <-> str.all pystr.isspace user_input = true
      /\ e = IndexError "list index out of range".
Proof.
  intros Ht. unfold main_step.
  pose proof (parse_input_raises_iff user_input) as Hblank.
  destruct (parse_input user_input) as [[command args]|e'] eqn:Hp; cbn [bind].
  - split.
    + cbn [fst snd]. intros Hr. exfalso.
      assert (Hno : forall (h : handler),
                (exists text, snd (h args book) = Ok text) ->
                (let '(book', r) := h args book in
                 try! text := r in Ok (book', [text], false)) <> Raise e).
      { intros h Hh. destruct (print_total h args book Hh) as [out ->].
        discriminate. }
      repeat match type of Hr with
             | (if ?c then _ else _) = _ => destruct c
             end;
        try discriminate;
        revert Hr; apply Hno; apply input_error_total.
      * apply add_contact_func_caught.
      * apply change_phone_func_caught.
      * apply show_phone_func_caught.
      * apply show_all_contacts_func_caught.
      * apply add_birthday_func_caught.
      * apply show_birthday_func_caught.
      * intros a b e0. apply birthdays_func_caught, Ht.
    + intros [Hs _]. apply Hblank in Hs. discriminate.
  - assert (He : e' = IndexError "list index out of range").
    { unfold parse_input in Hp.
      destruct (pystr.split (pystr.strip user_input)); [|discriminate].
      injection Hp as <-. reflexivity. }
    subst e'. split.
    + intros [= <-]. split; [apply Hblank; reflexivity|reflexivity].
    + intros [_ ->]. reflexivity.
Qed.

Lemma main_step_raises_on_blank_witness :
  main_step (datetime.mkdate 2024 6 10) empty "   "
  = Raise (IndexError "list index out of range")
  /\ (main_step (datetime.mkdate 2024 6 10) empty "   "
      = Raise (IndexError "list index out of range")
      <-> str.all pystr.isspace "   " = true
          /\ IndexError "list index out of range"
             = IndexError "list index out of range").
Proof.
  split; [reflexivity|].
  apply (main_step_raises_on_blank (datetime.mkdate 2024 6 10) empty "   "
           (IndexError "list index out of range")).
  reflexivity.
Defined.

Lemma dict_set_get_same {V} (d : dict.t V) k v :
  dict.get d k = Some v -> dict.set d k v = d.
Proof.
  induction d as [|[k' v'] rest IH]; cbn [dict.get dict.set]; [discriminate|].
  destruct (String.eqb_spec k' k) as [E|E].
  - intros [= ->]. subst k'. reflexivity.
  - intros H. rewrite (IH H). reflexivity.
Qed.

Lemma record_eta r :
  Record_.mk (Record_.name r) (Record_.phones r) (Record_.birthday r) = r.
Proof. destruct r. reflexivity. Qed.

Lemma phone_ok_truthy phone q :
  Phone.__init__ phone = Ok q -> str.truthy phone = true.
Proof.
  unfold Phone.__init__, str.isdigit. destruct phone; [discriminate|reflexivity].
Qed.

(** X11.  [add_contact] with a phone text that [Phone] accepts: for a name
    the book does not hold it puts a record with that one phone at the end
    of the book and answers "Contact added."; for a name it holds it puts
    the phone after the phones of that record and answers "Contact
    updated.".  The records of other names stay as they are. *)
Theorem add_contact_adds_phone name phone rest book :
  Phone.__init__ phone = Ok (Phone.mk phone) ->
  let book' := fst (add_contact (name :: phone :: rest) book) in
  match find book name with
  | None =>
      book' = book ++ [(name, Record_.mk name [Phone.mk phone] None)]
      /\ snd (add_contact (name :: phone :: rest) book) = Ok "Contact added."
  | Some record =>
      find book' name
      = Some (Record_.mk (Record_.name record)
                         (Record_.phones record ++ [Phone.mk phone])
                         (Record_.birthday record))
      /\ dict.keys book' = dict.keys book
      /\ snd (add_contact (name :: phone :: rest) book) = Ok "Contact updated."
  end
  /\ forall k, k <> name -> find book' k = find book k.
Proof.
  intros Hok. cbv zeta. unfold add_contact, input_error, add_contact_func.
  rewrite (phone_ok_truthy _ _ Hok). unfold Record_.add_phone. rewrite Hok.
  unfold find, add_record.
  destruct (dict.get book name) as [record|] eqn:Hf; cbn [bind fst snd].
  - split; [|intros k Hk; apply dict_get_set_other, Hk].
    split; [apply dict_get_set_same|]. split; [|reflexivity].
    apply dict_keys_set_present. destruct (in_dec string_dec name (dict.keys book))
      as [Hin|Hn]; [exact Hin|].
    apply dict_get_none in Hn. congruence.
  - cbn [Record_.__init__ Record_.name Record_.phones Record_.birthday
         Record_.set_phones app].
    rewrite dict_set_set.
    split; [|intros k Hk; apply dict_get_set_other, Hk].
    split; [|reflexivity]. apply dict_set_absent, dict_get_none, Hf.
Qed.

Lemma add_contact_adds_phone_witness :
  let ann := Record_.mk "Ann" [Phone.mk "0000000000"] None in
  add_contact ["Ann"; "1111111111"] [("Ann", ann)]
  = ([("Ann", Record_.mk "Ann" [Phone.mk "0000000000"; Phone.mk "1111111111"] None)],
     Ok "Contact updated.")
  /\ add_contact ["Bob"; "1111111111"] [("Ann", ann)]
     = ([("Ann", ann); ("Bob", Record_.mk "Bob" [Phone.mk "1111111111"] None)],
        Ok "Contact added.")
  /\ (let book' := fst (add_contact ["Bob"; "1111111111"] [("Ann", ann)]) in
      match find [("Ann", ann)] "Bob" with
      | None =>
          book' = [("Ann", ann)] ++ [("Bob", Record_.mk "Bob" [Phone.mk "1111111111"] None)]
          /\ snd (add_contact ["Bob"; "1111111111"] [("Ann", ann)]) = Ok "Contact added."
      | Some record =>
          find book' "Bob"
          = Some (Record_.mk (Record_.name record)
                             (Record_.phones record ++ [Phone.mk "1111111111"])
                             (Record_.birthday record))
          /\ dict.keys book' = dict.keys [("Ann", ann)]
          /\ snd (add_contact ["Bob"; "1111111111"] [("Ann", ann)]) = Ok "Contact updated."
      end
      /\ forall k, k <> "Bob" -> find book' k = find [("Ann", ann)] k).
Proof.
  split; [reflexivity|]. split; [reflexivity|].
  apply (add_contact_adds_phone "Bob" "1111111111" []
           [("Ann", Record_.mk "Ann" [Phone.mk "0000000000"] None)]).
  reflexivity.
Defined.

Lemma dict_get_in_values {V} (d : dict.t V) k v :
  dict.get d k = Some v -> In v (dict.values d) /\ In (k, v) d.
Proof.
  unfold dict.values.
  induction d as [|[k' v'] rest IH]; cbn [dict.get map snd In]; [discriminate|].
  destruct (String.eqb_spec k' k) as [E|E].
  - intros [= ->]. subst k'. auto.
  - intros H. destruct (IH H). auto.
Qed.

Lemma dict_keys_set {V} (d : dict.t V) k v :
  dict.keys (dict.set d k v) = dict.keys d
  \/ (~ In k (dict.keys d) /\ dict.keys (dict.set d k v) = dict.keys d ++ [k]).
Proof.
  destruct (in_dec string_dec k (dict.keys d)) as [Hin|Hn].
  - left. apply dict_keys_set_present, Hin.
  - right. split; [exact Hn|]. rewrite (dict_set_absent _ _ _ Hn).
    unfold dict.keys. rewrite map_app. reflexivity.
Qed.

Lemma dict_values_set {V} (P : V -> Prop) (d : dict.t V) k v :
  Forall P (dict.values d) -> P v -> Forall P (dict.values (dict.set d k v)).
Proof.
  unfold dict.values. intros Hd Hv.
  induction d as [|[k' v'] rest IH]; cbn [dict.set map snd] in *.
  - constructor; [exact Hv|constructor].
  - inversion Hd; subst. destruct (String.eqb k' k); cbn [map snd];
      constructor; auto.
Qed.

Lemma book_ok_set book k r :
  Inv.book_ok book -> Record_.name r = k -> Inv.phones_valid r ->
  Inv.book_ok (dict.set book k r).
Proof.
  intros (Hnd & Hkm & Hpv) Hname Hr. split; [|split].
  - destruct (dict_keys_set book k r) as [->|[Hn ->]]; [exact Hnd|].
    apply NoDup_app; [exact Hnd|repeat constructor; intros []|].
    intros x Hx [<-|[]]. contradiction.
  - apply Forall_dict_set; [exact Hkm|]. cbn [fst snd]. congruence.
  - apply dict_values_set; assumption.
Qed.

Lemma book_ok_find book name r :
  Inv.book_ok book -> find book name = Some r ->
  Record_.name r = name /\ Inv.phones_valid r.
Proof.
  intros (Hnd & Hkm & Hpv) Hf. destruct (dict_get_in_values _ _ _ Hf) as [Hv Hkv].
  rewrite Forall_forall in Hkm, Hpv. split; [|apply Hpv, Hv].
  symmetry. apply (Hkm _ Hkv).
Qed.

Lemma edit_phone_name r old_phone new_phone :
  Record_.name (fst (Record_.edit_phone r old_phone new_phone)) = Record_.name r.
Proof.
  unfold Record_.edit_phone.
  destruct (Record_.edit_loop (Record_.phones r) old_phone new_phone).
  reflexivity.
Qed.

(** X12.  The handlers that change the book keep it in order: when every
    name occurs once, every key is the name of its record and every phone
    is valid, the same holds of the book that [add_contact],
    [change_phone] and [add_birthday] leave, for every list of arguments. *)
Theorem handlers_keep_book_ok args book :
  Inv.book_ok book ->
  Inv.book_ok (fst (add_contact args book))
  /\ Inv.book_ok (fst (change_phone args book))
  /\ Inv.book_ok (fst (add_birthday args book)).
Proof.
  intros Hok. unfold add_contact, change_phone, add_birthday. split; [|split].
  - destruct (input_error_total _ add_contact_func_caught args book) as [-> _].
    unfold add_contact_func.
    destruct args as [|name [|phone rest]]; cbn [fst]; try exact Hok.
    destruct (find book name) as [record|] eqn:Hf.
    + destruct (book_ok_find _ _ _ Hok Hf) as [Hn Hv].
      destruct (str.truthy phone); cbn [fst]; [|exact Hok].
      pose proof (add_phone_valid record phone Hv) as Hv'.
      assert (Hn' : Record_.name (fst (Record_.add_phone record phone)) = name).
      { unfold Record_.add_phone. destruct (Phone.__init__ phone); exact Hn. }
      destruct (Record_.add_phone record phone) as [record' r]. cbn [fst] in *.
      apply book_ok_set; assumption.
    + assert (Hnew : Inv.book_ok (add_record book (Record_.__init__ name))).
      { apply book_ok_set; [exact Hok|reflexivity|constructor]. }
      destruct (str.truthy phone); cbn [fst]; [|exact Hnew].
      pose proof (add_phone_valid (Record_.__init__ name) phone
                    ltac:(constructor)) as Hv'.
      assert (Hn' : Record_.name (fst (Record_.add_phone (Record_.__init__ name) phone))
                    = name).
      { unfold Record_.add_phone. destruct (Phone.__init__ phone); reflexivity. }
      destruct (Record_.add_phone (Record_.__init__ name) phone) as [record' r].
      cbn [fst] in *. apply book_ok_set; assumption.
  - destruct (input_error_total _ change_phone_func_caught args book) as [-> _].
    unfold change_phone_func.
    destruct args as [|name [|old_phone [|new_phone rest]]]; cbn [fst];
      try exact Hok.
    destruct (find book name) as [record|] eqn:Hf; cbn [fst]; [|exact Hok].
    destruct (book_ok_find _ _ _ Hok Hf) as [Hn Hv].
    pose proof (edit_phone_valid record old_phone new_phone Hv) as Hv'.
    pose proof (edit_phone_name record old_phone new_phone) as Hn'.
    destruct (Record_.edit_phone record old_phone new_phone) as [record' r].
    cbn [fst] in *. apply book_ok_set; [exact Hok|congruence|exact Hv'].
  - destruct (input_error_total _ add_birthday_func_caught args book) as [-> _].
    unfold add_birthday_func.
    destruct args as [|name [|birthday_str [|x rest]]]; cbn [fst];
      try exact Hok.
    destruct (find book name) as [record|] eqn:Hf; cbn [fst]; [|exact Hok].
    destruct (book_ok_find _ _ _ Hok Hf) as [Hn Hv].
    destruct (Birthday.__init__ birthday_str) as [b|e] eqn:Hb.
    + unfold Record_.add_birthday.
      destruct (Record_.birthday record); cbn [fst]; apply book_ok_set;
        assumption.
    + rewrite (birthday_init_raises _ _ Hb). exact Hok.
Qed.

Lemma handlers_keep_book_ok_witness :
  let book := [("Ann", Record_.mk "Ann" [Phone.mk "0000000000"] None)] in
  let args := ["Bob"; "1111111111"] in
  Inv.book_ok (fst (add_contact args book))
  /\ Inv.book_ok (fst (change_phone args book))
  /\ Inv.book_ok (fst (add_birthday args book)).
Proof.
  apply (handlers_keep_book_ok ["Bob"; "1111111111"]
           [("Ann", Record_.mk "Ann" [Phone.mk "0000000000"] None)]).
  split; [|split].
  - constructor; [intros []|constructor].
  - constructor; [reflexivity|constructor].
  - constructor; [|constructor]. constructor; [reflexivity|constructor].
Defined.

(** X13.  [change_phone] for a contact that does not hold [old_phone]
    changes nothing and raises nothing, and still answers that the number
    was changed, also when [new_phone] is no valid number. *)
Theorem change_phone_reports_change_without_match name old_phone new_phone rest book r :
  find book name = Some r ->
  ~ In (Phone.mk old_phone) (Record_.phones r) ->
  change_phone (name :: old_phone :: new_phone :: rest) book
  = (book,
     Ok ("Phone number for " ++ name ++ " changed from " ++ old_phone ++ " to "
         ++ new_phone ++ ".")%string).
Proof.
  intros Hf Hn. unfold change_phone, input_error, change_phone_func.
  rewrite Hf. unfold Record_.edit_phone.
  rewrite (edit_loop_absent _ _ _ Hn). cbn [bind].
  unfold Record_.set_phones. rewrite record_eta.
  rewrite (dict_set_get_same _ _ _ Hf). reflexivity.
Qed.

Lemma change_phone_reports_change_without_match_witness :
  let book := [("Ann", Record_.mk "Ann" [Phone.mk "0000000000"] None)] in
  change_phone ["Ann"; "1111111111"; "oops"] book
  = (book, Ok "Phone number for Ann changed from 1111111111 to oops.").
Proof.
  apply (change_phone_reports_change_without_match "Ann" "1111111111" "oops" []
           [("Ann", Record_.mk "Ann" [Phone.mk "0000000000"] None)]
           (Record_.mk "Ann" [Phone.mk "0000000000"] None)).
  - reflexivity.
  - intros [H|[]]. discriminate H.
Defined.

(** X14.  [change_phone] for a contact that holds [old_phone], with a new
    text that [Phone] refuses, answers with the message of the
    [ValueError] and leaves the book as it is. *)
Theorem change_phone_refused name old_phone new_phone rest book r e :
  find book name = Some r ->
  In (Phone.mk old_phone) (Record_.phones r) ->
  Phone.__init__ new_phone = Raise e ->
  change_phone (name :: old_phone :: new_phone :: rest) book
  = (book, Ok "Phone number must be a string of 10 digits.").
Proof.
  intros Hf Hin He. unfold change_phone, input_error, change_phone_func.
  rewrite Hf. unfold Record_.edit_phone.
  rewrite (edit_loop_refused _ _ _ _ Hin He). cbn [bind].
  unfold Record_.set_phones. rewrite record_eta.
  rewrite (dict_set_get_same _ _ _ Hf).
  rewrite (phone_init_raises _ _ He). reflexivity.
Qed.

Lemma change_phone_refused_witness :
  let book := [("Ann", Record_.mk "Ann" [Phone.mk "0000000000"] None)] in
  change_phone ["Ann"; "0000000000"; "12345"] book
  = (book, Ok "Phone number must be a string of 10 digits.").
Proof.
  apply (change_phone_refused "Ann" "0000000000" "12345" []
           [("Ann", Record_.mk "Ann" [Phone.mk "0000000000"] None)]
           (Record_.mk "Ann" [Phone.mk "0000000000"] None)
           (ValueError "Phone number must be a string of 10 digits."));
    [reflexivity|left; reflexivity|reflexivity].
Defined.

Lemma birthday_init_value t b : Birthday.__init__ t = Ok b -> Birthday.value b = t.
Proof.
  unfold Birthday.__init__. destruct (_strptime.strptime t) as [d|e].
  - intros [= <-]. reflexivity.
  - destruct e; discriminate.
Qed.

(** X15.  When the handler [add_birthday] sets a birthday (the contact
    exists, has none, and [Birthday] accepts the text), [show_birthday]
    answers with that text as it was given. *)
Theorem show_birthday_after_add name text book r b :
  find book name = Some r ->
  Record_.birthday r = None ->
  Birthday.__init__ text = Ok b ->
  let book' := fst (add_birthday [name; text] book) in
  snd (add_birthday [name; text] book)
  = Ok ("Birthday for " ++ name ++ " added as " ++ text ++ ".")%string
  /\ find book' name = Some (Record_.mk (Record_.name r) (Record_.phones r) (Some b))
  /\ show_birthday [name] book'
     = (book', Ok ("Birthday for " ++ name ++ " is " ++ text ++ ".")%string).
Proof.
  intros Hf Hnone Hb. cbv zeta.
  unfold add_birthday, show_birthday, input_error, add_birthday_func,
    show_birthday_func.
  rewrite Hf, Hb. unfold Record_.add_birthday. rewrite Hnone. cbn [fst snd].
  split; [reflexivity|]. unfold find. rewrite dict_get_set_same.
  split; [reflexivity|]. cbn [Record_.birthday].
  rewrite (birthday_init_value _ _ Hb). reflexivity.
Qed.

Lemma show_birthday_after_add_witness :
  let book := [("Ann", Record_.mk "Ann" [] None)] in
  let b := Birthday.mk "1.2.2024" (datetime.mkdate 2024 2 1) in
  let book' := fst (add_birthday ["Ann"; "1.2.2024"] book) in
  snd (add_birthday ["Ann"; "1.2.2024"] book)
  = Ok "Birthday for Ann added as 1.2.2024."
  /\ find book' "Ann" = Some (Record_.mk "Ann" [] (Some b))
  /\ show_birthday ["Ann"] book' = (book', Ok "Birthday for Ann is 1.2.2024.").
Proof.
  apply (show_birthday_after_add "Ann" "1.2.2024"
           [("Ann", Record_.mk "Ann" [] None)] (Record_.mk "Ann" [] None)
           (Birthday.mk "1.2.2024" (datetime.mkdate 2024 2 1)));
    reflexivity.
Defined.

(** X16.  The handler [add_birthday] changes the book in one case only:
    two arguments, a contact of that name without a birthday, and a text
    that [Birthday] accepts.  In every other case (other numbers of
    arguments, no such contact, a refused text, a birthday already set) the
    book is left as it is and a message is returned. *)
Theorem add_birthday_changes_only_on_success args book :
  (fst (add_birthday args book) = book
   /\ exists text, snd (add_birthday args book) = Ok text)
  \/ (exists name text r b,
        args = [name; text]
        /\ find book name = Some r
        /\ Record_.birthday r = None
        /\ Birthday.__init__ text = Ok b
        /\ add_birthday args book
           = (dict.set book name
                (Record_.mk (Record_.name r) (Record_.phones r) (Some b)),
              Ok ("Birthday for " ++ name ++ " added as " ++ text ++ ".")%string)).
Proof.
  unfold add_birthday, input_error, add_birthday_func.
  destruct args as [|name [|text [|x rest]]]; cbn [fst snd]; eauto.
  destruct (find book name) as [r|] eqn:Hf; cbn [fst snd]; eauto.
  destruct (Birthday.__init__ text) as [b|e] eqn:Hb.
  - unfold Record_.add_birthday.
    destruct (Record_.birthday r) as [b0|] eqn:Hr; cbn [fst snd exn_str].
    + left. rewrite (dict_set_get_same _ _ _ Hf). eauto.
    + right. exists name, text, r, b. auto 10.
  - rewrite (birthday_init_raises _ _ Hb). cbn [fst snd]. eauto.
Qed.

End HandlerFacts.
